(** * Voting rules: a shallow embedding of [voting.py]

    The Python module computes an election winner from a preference profile
    (a [dict] from agent identifier to a ranked list of alternatives) under
    several voting rules that share one tie-break resolver.

    Conventions of the embedding:
    - Python [int]s are [Z]; indices and lengths are [nat].
    - A [dict] is an association list in insertion order (CPython keeps
      insertion order; iteration order decides the order of the winners list,
      which [random.choice] and float accumulation can observe).
    - A call either returns a value or raises: [result A].  Python's [None]
      is the [None] of [option Z] in the return type of a rule.
    - [random.choice] takes its draw from an explicit argument [rnd].
    - [STV] mutates the rankings of the profile it is given (each agent's
      list is an object of its own, as [generate_preferences] builds them);
      the embedding returns the final profile next to the outcome.
    - The [while] loop of [STV] runs on fuel; the fuel [STV] is given is
      shown to be enough for every profile. *)

From Stdlib Require Import String ZArith List Bool Lia Permutation Sorted PeanoNat.
From Stdlib Require Import PrimFloat Uint63.
Import ListNotations.
Local Open Scope Z_scope.

(** ** The fragment of the Python runtime the module relies on *)

Module Py.

(** Values that reach a rule as [agent] or [tie_break]: a string or an int. *)
Inductive pyval : Type :=
| PStr (s : string)
| PInt (z : Z).

Definition pyval_eqb (a b : pyval) : bool :=
  match a, b with
  | PStr s, PStr t => String.eqb s t
  | PInt x, PInt y => Z.eqb x y
  | _, _ => false
  end.

(** The text of a [ValueError]: the three messages the module formats itself
    and the one of the builtins [max] and [min] on an empty argument. *)
Inductive message : Type :=
| AgentNotFound (agent : pyval)     (* "Agent {agent} not found in preferences." *)
| ScoreVectorLength                 (* "Score vector length does not match number of alternatives." *)
| InvalidTieBreak (tie_break : pyval) (* "Invalid tie_break option: {tie_break}" *)
| EmptyArg (builtin : string).      (* "max() arg is an empty sequence" *)

Inductive exn : Type :=
| ValueError (msg : message)
| KeyError (key : pyval)
| IndexError.

Inductive result (A : Type) : Type :=
| Ok (a : A)
| Raise (e : exn).
Arguments Ok {A} a.
Arguments Raise {A} e.

Definition bind {A B : Type} (r : result A) (k : A -> result B) : result B :=
  match r with
  | Ok a => k a
  | Raise e => Raise e
  end.

(** A [for] loop whose body may raise. *)
Fixpoint for_each {A S : Type} (body : S -> A -> result S) (l : list A) (s : S)
  : result S :=
  match l with
  | [] => Ok s
  | x :: l' => bind (body s x) (for_each body l')
  end.

(** *** Lists *)

Definition mem (x : Z) (l : list Z) : bool := existsb (Z.eqb x) l.

(** [l[i]] *)
Definition getitem {A : Type} (l : list A) (i : nat) : result A :=
  match nth_error l i with
  | Some x => Ok x
  | None => Raise IndexError
  end.

(** [range(lo, lo + n)] *)
Definition range (lo : Z) (n : nat) : list Z :=
  map (fun i => lo + Z.of_nat i) (seq 0 n).

(** [enumerate(l, start)] *)
Definition enumerate {A : Type} (start : nat) (l : list A) : list (nat * A) :=
  combine (seq start (length l)) l.

(** [l.remove(x)]: drops the first occurrence. *)
Fixpoint remove_first (x : Z) (l : list Z) : list Z :=
  match l with
  | [] => []
  | y :: l' => if Z.eqb x y then l' else y :: remove_first x l'
  end.

(** [max(l)] and [min(l)] on ints. *)
Definition pymax (l : list Z) : result Z :=
  match l with
  | [] => Raise (ValueError (EmptyArg "max"%string))
  | x :: l' => Ok (fold_left Z.max l' x)
  end.

Definition pymin (l : list Z) : result Z :=
  match l with
  | [] => Raise (ValueError (EmptyArg "min"%string))
  | x :: l' => Ok (fold_left Z.min l' x)
  end.

(** [sum(l)] *)
Definition pysum (l : list Z) : Z := fold_left Z.add l 0.

(** [random.choice(l)]: [l[k]] for a draw [k] below [len(l)]; [IndexError] on
    an empty list.  The draw is [rnd] reduced modulo the length. *)
Definition random_choice {A : Type} (rnd : nat) (l : list A) : result A :=
  match l with
  | [] => Raise IndexError
  | _ => getitem l (rnd mod length l)%nat
  end.

(** [sorted(l, key=key, reverse=True)].  The result of a stable sort is
    determined by its input, so a stable insertion sort stands for CPython's:
    [x], which precedes the rest in the input, is placed before the first
    element whose key is not greater than its own. *)
Fixpoint insert_desc {A : Type} (key : A -> Z) (x : A) (l : list A) : list A :=
  match l with
  | [] => [x]
  | y :: l' => if key x <? key y then y :: insert_desc key x l' else x :: l
  end.

Fixpoint sorted_desc {A : Type} (key : A -> Z) (l : list A) : list A :=
  match l with
  | [] => []
  | x :: l' => insert_desc key x (sorted_desc key l')
  end.

(** *** Dictionaries with integer keys, in insertion order *)

Definition dict (V : Type) : Type := list (Z * V).

Fixpoint dict_get {V : Type} (d : dict V) (k : Z) : option V :=
  match d with
  | [] => None
  | (k', v) :: d' => if Z.eqb k k' then Some v else dict_get d' k
  end.

(** [d[k] = v]: an existing key keeps its place, a new one goes last. *)
Fixpoint dict_set {V : Type} (d : dict V) (k : Z) (v : V) : dict V :=
  match d with
  | [] => [(k, v)]
  | (k', v') :: d' =>
      if Z.eqb k k' then (k', v) :: d' else (k', v') :: dict_set d' k v
  end.

(** [d[k]] as an expression. *)
Definition dict_getitem {V : Type} (d : dict V) (k : Z) : result V :=
  match dict_get d k with
  | Some v => Ok v
  | None => Raise (KeyError (PInt k))
  end.

(** [d.get(k, default)] *)
Definition dict_get_default {V : Type} (d : dict V) (k : Z) (default : V) : V :=
  match dict_get d k with
  | Some v => v
  | None => default
  end.

Definition dict_keys {V : Type} (d : dict V) : list Z := map fst d.
Definition dict_values {V : Type} (d : dict V) : list V := map snd d.

(** [{k: v for k in keys}] *)
Definition dict_from_keys {V : Type} (v : V) (keys : list Z) : dict V :=
  fold_left (fun d k => dict_set d k v) keys [].

(** [set(l)], [len(s)] and [s -= set(l)].  A set is kept as a list without
    duplicates.  CPython iterates a set in an order of its own; what [STV]
    computes does not depend on it ([STV_order_irrelevant] below). *)
Definition set_of_list (l : list Z) : list Z := nodup Z.eq_dec l.
Definition set_minus (s l : list Z) : list Z :=
  filter (fun a => negb (mem a l)) s.

End Py.

Import Py.

Declare Scope py_scope.
Delimit Scope py_scope with py.
Notation "x <- c ;; k" := (bind c (fun x => k))
  (at level 61, c at next level, right associativity) : py_scope.
Notation "' pat <- c ;; k" := (bind c (fun x => match x with pat => k end))
  (at level 61, pat pattern, c at next level, right associativity) : py_scope.
Local Open Scope py_scope.

(** ** The module [voting.py] *)

(** A preference profile: agent identifier to ranked alternatives. *)
Definition profile : Type := dict (list Z).

(** [key in preferences] and [preferences[key]] for an argument that may be a
    string: the keys of a profile are ints, so a string is never a key. *)
Definition contains (preferences : profile) (key : pyval) : bool :=
  match key with
  | PInt k => match dict_get preferences k with Some _ => true | None => false end
  | PStr _ => false
  end.

Definition profile_getitem (preferences : profile) (key : pyval)
  : result (list Z) :=
  match key with
  | PInt k => dict_getitem preferences k
  | PStr _ => Raise (KeyError key)
  end.

(** [[alt for alt, val in d.items() if val == v]]: the comprehension that
    builds [winners] in the scoring rules and [eliminated] in [STV]. *)
Definition keys_with_value (d : dict Z) (v : Z) : list Z :=
  map fst (filter (fun kv => Z.eqb (snd kv) v) d).

(** [tie_break_function(preferences, tie_break, winners)].  The agent branch is
    a [for] loop that returns at the first ranked alternative found among the
    winners; when the loop ends without a match the function ends without a
    [return], and the call evaluates to [None]. *)
Definition tie_break_function (rnd : nat) (preferences : profile)
    (tie_break : pyval) (winners : list Z) : result (option Z) :=
  if (length winners =? 1)%nat then
    w <- getitem winners 0 ;; Ok (Some w)
  else if pyval_eqb tie_break (PStr "max") then
    w <- pymax winners ;; Ok (Some w)
  else if pyval_eqb tie_break (PStr "min") then
    w <- pymin winners ;; Ok (Some w)
  else if pyval_eqb tie_break (PStr "random") then
    w <- random_choice rnd winners ;; Ok (Some w)
  else if contains preferences tie_break then
    ranking <- profile_getitem preferences tie_break ;;
    Ok (find (fun alt => mem alt winners) ranking)
  else
    Raise (ValueError (InvalidTieBreak tie_break)).

(** [dictatorship(preferences, agent)] *)
Definition dictatorship (preferences : profile) (agent : pyval) : result Z :=
  if negb (contains preferences agent) then
    Raise (ValueError (AgentNotFound agent))
  else
    ranking <- profile_getitem preferences agent ;; getitem ranking 0.

(** The tabular input: [values.max_row], [values.max_column] and
    [values.cell(row, col).value], with integer cell values. *)
Record table : Type := {
  max_row : nat;
  max_column : nat;
  cell : Z -> Z -> Z
}.

(** [[values.cell(row, col).value for col in range(1, values.max_column + 1)]] *)
Definition row_values (values : table) (row : Z) : list Z :=
  map (fun col => cell values row col) (range 1 (max_column values)).

(** [[alt for alt, _ in sorted(enumerate(vals, 1), key=lambda x: x[1], reverse=True)]] *)
Definition rank_values (vals : list Z) : list Z :=
  map (fun x => Z.of_nat (fst x)) (sorted_desc snd (enumerate 1 vals)).

(** [generate_preferences(values)]: a first loop stores every row's values, a
    second one replaces them by the ranking, key by key. *)
Definition generate_preferences (values : table) : profile :=
  let agent_prefs :=
    fold_left (fun d row => dict_set d row (row_values values row))
              (range 1 (max_row values)) [] in
  fold_left (fun d item => dict_set d (fst item) (rank_values (snd item)))
            agent_prefs agent_prefs.

(** [scores[alt] += w], where [w] is evaluated after [scores[alt]] is read. *)
Definition add_score (scores : dict Z) (alt : Z) (w : result Z)
  : result (dict Z) :=
  s <- dict_getitem scores alt ;;
  w <- w ;;
  Ok (dict_set scores alt (s + w)).

(** [scoring_rule], up to the winners list. *)
Definition scoring_winners (preferences : profile) (score_vector : list Z)
  : result (list Z) :=
  first <- dict_getitem preferences 1 ;;
  let m := length first in
  if negb (length score_vector =? m)%nat then
    Raise (ValueError ScoreVectorLength)
  else
    let scores := dict_from_keys 0 (range 1 m) in
    scores <- for_each (fun scores pref =>
                for_each (fun scores ia =>
                            add_score scores (snd ia) (getitem score_vector (fst ia)))
                         (enumerate 0 pref) scores)
              (dict_values preferences) scores ;;
    max_score <- pymax (dict_values scores) ;;
    Ok (keys_with_value scores max_score).

Definition scoring_rule (rnd : nat) (preferences : profile)
    (score_vector : list Z) (tie_break : pyval) : result (option Z) :=
  winners <- scoring_winners preferences score_vector ;;
  tie_break_function rnd preferences tie_break winners.

(** [plurality], up to the winners list. *)
Definition plurality_winners (preferences : profile) : result (list Z) :=
  top_counts <- for_each (fun top_counts pref =>
                    top <- getitem pref 0 ;;
                    Ok (dict_set top_counts top
                          (dict_get_default top_counts top 0 + 1)))
                  (dict_values preferences) [] ;;
  max_count <- pymax (dict_values top_counts) ;;
  Ok (keys_with_value top_counts max_count).

Definition plurality (rnd : nat) (preferences : profile) (tie_break : pyval)
  : result (option Z) :=
  winners <- plurality_winners preferences ;;
  tie_break_function rnd preferences tie_break winners.

(** [veto], up to the winners list; [pref[:-1]] is [removelast pref]. *)
Definition veto_winners (preferences : profile) : result (list Z) :=
  first <- dict_getitem preferences 1 ;;
  let scores := dict_from_keys 0 first in
  scores <- for_each (fun scores pref =>
              for_each (fun scores alt => add_score scores alt (Ok 1))
                       (removelast pref) scores)
            (dict_values preferences) scores ;;
  max_score <- pymax (dict_values scores) ;;
  Ok (keys_with_value scores max_score).

Definition veto (rnd : nat) (preferences : profile) (tie_break : pyval)
  : result (option Z) :=
  winners <- veto_winners preferences ;;
  tie_break_function rnd preferences tie_break winners.

(** [borda], up to the winners list. *)
Definition borda_winners (preferences : profile) : result (list Z) :=
  first <- dict_getitem preferences 1 ;;
  let m := length first in
  let scores := dict_from_keys 0 first in
  scores <- for_each (fun scores pref =>
              for_each (fun scores ia =>
                          add_score scores (snd ia)
                                    (Ok (Z.of_nat m - Z.of_nat (fst ia))))
                       (enumerate 0 pref) scores)
            (dict_values preferences) scores ;;
  max_score <- pymax (dict_values scores) ;;
  Ok (keys_with_value scores max_score).

Definition borda (rnd : nat) (preferences : profile) (tie_break : pyval)
  : result (option Z) :=
  winners <- borda_winners preferences ;;
  tie_break_function rnd preferences tie_break winners.

(** [harmonic]: the scores are binary64 floats.  [1 / (i + 1)] is the
    correctly rounded quotient, and [0 + x] is [x]. *)
Definition float_of_nat (n : nat) : float :=
  PrimFloat.of_uint63 (Uint63.of_Z (Z.of_nat n)).

Definition float_max (l : list float) : result float :=
  match l with
  | [] => Raise (ValueError (EmptyArg "max"%string))
  | x :: l' => Ok (fold_left (fun best y => if PrimFloat.ltb best y then y else best) l' x)
  end.

Definition harmonic_winners (preferences : profile) : result (list Z) :=
  let scores :=
    fold_left (fun scores pref =>
                 fold_left (fun scores ia =>
                              dict_set scores (snd ia)
                                (PrimFloat.add
                                   (dict_get_default scores (snd ia) PrimFloat.zero)
                                   (PrimFloat.div PrimFloat.one
                                                  (float_of_nat (fst ia + 1)))))
                           (enumerate 0 pref) scores)
              (dict_values preferences) [] in
  max_score <- float_max (dict_values scores) ;;
  Ok (map fst (filter (fun kv => PrimFloat.eqb (snd kv) max_score) scores)).

Definition harmonic (rnd : nat) (preferences : profile) (tie_break : pyval)
  : result (option Z) :=
  winners <- harmonic_winners preferences ;;
  tie_break_function rnd preferences tie_break winners.

(** One round of the [while] loop of [STV]: tally the top choices that are
    still live, find the least tally, strike every alternative that has it
    from every ranking and from the live set.  The outcome comes with the
    profile as the round leaves it. *)
Definition tally_tops (alternatives : list Z) (preferences : profile) : dict Z :=
  fold_left (fun counts pref =>
               match pref with
               | [] => counts
               | top :: _ =>
                   match dict_get counts top with
                   | Some c => dict_set counts top (c + 1)
                   | None => counts
                   end
               end)
            (dict_values preferences) (dict_from_keys 0 alternatives).

Definition strike (eliminated : list Z) (pref : list Z) : list Z :=
  fold_left (fun pref alt => if mem alt pref then remove_first alt pref else pref)
            eliminated pref.

Definition STV_round (alternatives : list Z) (preferences : profile)
  : result (list Z) * profile :=
  let counts := tally_tops alternatives preferences in
  match pymin (dict_values counts) with
  | Raise e => (Raise e, preferences)
  | Ok min_count =>
      let eliminated := keys_with_value counts min_count in
      (Ok (set_minus alternatives eliminated),
       map (fun item => (fst item, strike eliminated (snd item))) preferences)
  end.

(** [while len(alternatives) > 1: ...].  [None] means that [fuel] rounds were
    not enough; the [nat] in the outcome counts the rounds that ran (it is not
    a value of the program). *)
Fixpoint STV_loop (fuel : nat) (alternatives : list Z) (preferences : profile)
  : option (result (nat * list Z) * profile) :=
  if (1 <? length alternatives)%nat then
    match fuel with
    | O => None
    | S fuel' =>
        match STV_round alternatives preferences with
        | (Raise e, preferences') => Some (Raise e, preferences')
        | (Ok alternatives', preferences') =>
            match STV_loop fuel' alternatives' preferences' with
            | Some (Ok (rounds, live), final) => Some (Ok (S rounds, live), final)
            | other => other
            end
        end
    end
  else Some (Ok (O, alternatives), preferences).

(** [STV], up to the winners list [list(alternatives)], with the profile as
    the loop leaves it.  The fuel is the size of the initial live set. *)
Definition STV_winners (preferences : profile)
  : option (result (list Z) * profile) :=
  match dict_getitem preferences 1 with
  | Raise e => Some (Raise e, preferences)
  | Ok first =>
      let alternatives := set_of_list first in
      match STV_loop (length alternatives) alternatives preferences with
      | None => None
      | Some (Raise e, final) => Some (Raise e, final)
      | Some (Ok (_, live), final) => Some (Ok live, final)
      end
  end.

Definition STV (rnd : nat) (preferences : profile) (tie_break : pyval)
  : option (result (option Z) * profile) :=
  match STV_winners preferences with
  | None => None
  | Some (Raise e, final) => Some (Raise e, final)
  | Some (Ok winners, final) =>
      Some (tie_break_function rnd final tie_break winners, final)
  end.

(** [range_voting], up to the winners list. *)
Definition range_voting_winners (values : table) : result (list Z) :=
  let num_alts := max_column values in
  let scores :=
    fold_left (fun d col =>
                 dict_set d col
                   (pysum (map (fun row => cell values row col)
                               (range 1 (max_row values)))))
              (range 1 num_alts) [] in
  max_score <- pymax (dict_values scores) ;;
  Ok (keys_with_value scores max_score).

Definition range_voting (rnd : nat) (values : table) (tie_break : pyval)
  : result (option Z) :=
  let preferences := generate_preferences values in
  winners <- range_voting_winners values ;;
  tie_break_function rnd preferences tie_break winners.

(** ** Notions of the specification the statements below are phrased in *)

Module Spec.

(** The error taxonomy. *)
Inductive error : Type :=
| UnknownAgent
| DimensionMismatch
| InvalidTieBreakPolicy
| NoTiebreakMatch
| NoAlternativesRemain.

(** How an exception of the module reads in the taxonomy: each of its three
    [raise] statements is one of the errors; an exception raised by a builtin
    or by a lookup is none of them. *)
Definition taxonomy (e : exn) : option error :=
  match e with
  | ValueError (AgentNotFound _) => Some UnknownAgent
  | ValueError ScoreVectorLength => Some DimensionMismatch
  | ValueError (InvalidTieBreak _) => Some InvalidTieBreakPolicy
  | ValueError (EmptyArg _) => None
  | KeyError _ => None
  | IndexError => None
  end.

(** A policy the resolver knows: a keyword or a key of the profile. *)
Definition recognized_policy (preferences : profile) (tie_break : pyval) : bool :=
  pyval_eqb tie_break (PStr "max") || pyval_eqb tie_break (PStr "min")
  || pyval_eqb tie_break (PStr "random") || contains preferences tie_break.

(** The score vectors [m, m-1, ..., 1], [1, ..., 1, 0] and [1, 0, ..., 0]
    for [m] alternatives. *)
Definition borda_vector (m : nat) : list Z :=
  map (fun i => Z.of_nat m - Z.of_nat i) (seq 0 m).

Definition veto_vector (m : nat) : list Z :=
  match m with
  | O => []
  | S k => repeat 1 k ++ [0]
  end.

Definition plurality_vector (m : nat) : list Z :=
  match m with
  | O => []
  | S k => 1 :: repeat 0 k
  end.

(** Every agent ranks all of the alternatives [1..m]. *)
Definition full_profile (preferences : profile) (m : nat) : Prop :=
  Forall (fun pref => Permutation pref (range 1 m)) (dict_values preferences).

(** Every agent ranks the alternatives agent 1 ranks (a profile as built, or
    as [STV] leaves it). *)
Definition common_alternatives (preferences : profile) (first : list Z) : Prop :=
  Forall (fun pref => Permutation pref first) (dict_values preferences).

(** [alt] is at the top of some agent's ranking. *)
Definition top_ranked (preferences : profile) (alt : Z) : Prop :=
  exists pref, In pref (dict_values preferences) /\ hd_error pref = Some alt.

(** [a] comes before [b] in row [row] of the table: a greater cell value, or
    the same value and a smaller column index. *)
Definition precedes (values : table) (row a b : Z) : Prop :=
  cell values row a > cell values row b
  \/ (cell values row a = cell values row b /\ a < b).

(** The number of rankings whose top choice is [alt]. *)
Definition is_top (alt : Z) (pref : list Z) : bool :=
  match pref with
  | top :: _ => Z.eqb top alt
  | [] => false
  end.

Definition count_tops (prefs : list (list Z)) (alt : Z) : Z :=
  Z.of_nat (length (filter (is_top alt) prefs)).

Definition top_count (preferences : profile) (alt : Z) : Z :=
  count_tops (dict_values preferences) alt.

(** The order a stable descending sort by [key] produces from an input
    listed by increasing [idx]. *)
Definition before {A : Type} (key idx : A -> Z) (x y : A) : Prop :=
  key x > key y \/ (key x = key y /\ idx x < idx y).

(** The points a list of (alternative, weight) pairs gives to [alt]. *)
Definition tally (points : list (Z * Z)) (alt : Z) : Z :=
  pysum (map snd (filter (fun aw => Z.eqb (fst aw) alt) points)).

(** The pairs of one ballot under positional weights, and of a profile. *)
Definition ballot_points (weight : nat -> Z) (pref : list Z) : list (Z * Z) :=
  map (fun ia => (snd ia, weight (fst ia))) (enumerate 0 pref).

Definition profile_points (weight : nat -> Z) (preferences : profile)
  : list (Z * Z) :=
  flat_map (ballot_points weight) (dict_values preferences).

(** [scores[alt] += w] for a pair [(alt, w)]. *)
Definition add_points (scores : dict Z) (aw : Z * Z) : result (dict Z) :=
  add_score scores (fst aw) (Ok (snd aw)).

(** One of the three keywords of the resolver. *)
Definition keyword_policy (tie_break : pyval) : bool :=
  pyval_eqb tie_break (PStr "max") || pyval_eqb tie_break (PStr "min")
  || pyval_eqb tie_break (PStr "random").

(** The score of [alt] under a score vector: the sum, over all rankings and
    all positions [i] at which the ranking holds [alt], of the weight at [i]. *)
Definition positional_score (score_vector : list Z) (preferences : profile)
    (alt : Z) : Z :=
  tally (profile_points (fun i => nth i score_vector 0) preferences) alt.

(** The Borda score of [alt]: [m - i] for every ranking and position [i]
    at which the ranking holds [alt]. *)
Definition borda_score (m : nat) (preferences : profile) (alt : Z) : Z :=
  tally (profile_points (fun i => Z.of_nat m - Z.of_nat i) preferences) alt.

(** The veto score of [alt]: one point for every occurrence of [alt] in a
    ranking that is not its last entry. *)
Definition veto_score (preferences : profile) (alt : Z) : Z :=
  tally (flat_map (fun pref => map (fun a => (a, 1)) (removelast pref))
                  (dict_values preferences)) alt.

(** The number of rankings whose last entry is [alt]. *)
Definition is_last (alt : Z) (pref : list Z) : bool :=
  match pref with
  | [] => false
  | _ :: _ => Z.eqb (last pref 0) alt
  end.

Definition last_count (preferences : profile) (alt : Z) : Z :=
  Z.of_nat (length (filter (is_last alt) (dict_values preferences))).

(** The profile with every ranking cut down to the alternatives of [live],
    in the order the ranking has them. *)
Definition restrict (live : list Z) (preferences : profile) : profile :=
  map (fun item => (fst item, filter (fun a => mem a live) (snd item))) preferences.

(** The sum of column [col] of the table. *)
Definition column_sum (values : table) (col : Z) : Z :=
  pysum (map (fun row => cell values row col) (range 1 (max_row values))).

(** [w] more points for [alt] in one entry of a score table. *)
Definition bump (alt w : Z) (kv : Z * Z) : Z * Z :=
  (fst kv, if Z.eqb (fst kv) alt then snd kv + w else snd kv).

(** The winners among [keys] under a score function: the keys whose score
    is the greatest one, in the order of [keys]. *)
Definition winners_by (score : Z -> Z) (keys : list Z) : result (list Z) :=
  bind (pymax (map score keys))
       (fun max_score => Ok (filter (fun k => Z.eqb (score k) max_score) keys)).

(** Two computations of a winners list agree: both return, and the lists
    hold the same alternatives up to their order, or both raise the same
    exception. *)
Definition same_winners (r r' : result (list Z)) : Prop :=
  match r, r' with
  | Ok w, Ok w' => Permutation w w'
  | Raise e, Raise e' => e = e'
  | _, _ => False
  end.

End Spec.

Import Spec.

(** * Properties *)

(** ** The scenarios of the specification, run on the embedding *)

Example scenario_plurality :
  plurality_winners [(1, [2; 1; 3]); (2, [1; 2; 3]); (3, [1; 3; 2])] = Ok [1]
  /\ plurality 0 [(1, [2; 1; 3]); (2, [1; 2; 3]); (3, [1; 3; 2])] (PStr "max")
     = Ok (Some 1).
Proof. split; reflexivity. Qed.

Example scenario_borda :
  borda_winners [(1, [2; 1; 3]); (2, [1; 2; 3]); (3, [1; 3; 2])] = Ok [1]
  /\ borda 0 [(1, [2; 1; 3]); (2, [1; 2; 3]); (3, [1; 3; 2])] (PStr "max")
     = Ok (Some 1).
Proof. split; reflexivity. Qed.

Example scenario_harmonic_tie :
  harmonic_winners [(1, [1; 2]); (2, [2; 1])] = Ok [1; 2]
  /\ harmonic 0 [(1, [1; 2]); (2, [2; 1])] (PStr "max") = Ok (Some 2)
  /\ harmonic 0 [(1, [1; 2]); (2, [2; 1])] (PStr "min") = Ok (Some 1).
Proof. repeat split; vm_compute; reflexivity. Qed.

Example scenario_dictatorship :
  dictatorship [(1, [2; 1; 3]); (2, [1; 2; 3]); (3, [1; 3; 2])] (PInt 99)
  = Raise (ValueError (AgentNotFound (PInt 99))).
Proof. reflexivity. Qed.

Example scenario_STV :
  STV 0 [(1, [2; 1; 3]); (2, [1; 2; 3]); (3, [1; 3; 2])] (PStr "max")
  = Some (Ok (Some 1), [(1, [1]); (2, [1]); (3, [1])]).
Proof. reflexivity. Qed.

Example scenario_range_voting :
  let values := {| max_row := 2; max_column := 3;
                   cell := fun row col => if row =? 1 then (if col =? 2 then 5 else 3)
                                          else col |} in
  generate_preferences values = [(1, [2; 1; 3]); (2, [3; 2; 1])]
  /\ range_voting 0 values (PStr "max") = Ok (Some 2).
Proof. split; reflexivity. Qed.

(** ** Lists, [max] and [min] *)

Lemma mem_In (x : Z) (l : list Z) : mem x l = true <-> In x l.
Proof.
  unfold mem. rewrite existsb_exists. split.
  - intros [y [Hy Heq]]. apply Z.eqb_eq in Heq. now subst.
  - intros H. exists x. split; [assumption | apply Z.eqb_refl].
Qed.

Lemma mem_false (x : Z) (l : list Z) : mem x l = false <-> ~ In x l.
Proof.
  rewrite <- mem_In. destruct (mem x l); split; congruence.
Qed.

Lemma getitem_In {A : Type} (l : list A) (i : nat) (x : A) :
  getitem l i = Ok x -> In x l.
Proof.
  unfold getitem. destruct (nth_error l i) eqn:E; [|discriminate].
  intros [= <-]. eapply nth_error_In; eassumption.
Qed.

Lemma fold_max_spec (l : list Z) (x : Z) :
  (fold_left Z.max l x = x \/ In (fold_left Z.max l x) l)
  /\ x <= fold_left Z.max l x
  /\ Forall (fun y => y <= fold_left Z.max l x) l.
Proof.
  revert x. induction l as [|y l IH]; intros x; simpl.
  - repeat split; [now left | lia | constructor].
  - destruct (IH (Z.max x y)) as [Hin [Hle Hall]].
    repeat split.
    + destruct Hin as [Heq | Hin]; [|now right; right].
      rewrite Heq.
      destruct (Z.max_spec x y) as [[_ Hm] | [_ Hm]]; rewrite Hm;
        [right; left; reflexivity | left; reflexivity].
    + lia.
    + constructor; [lia | assumption].
Qed.

Lemma fold_min_spec (l : list Z) (x : Z) :
  (fold_left Z.min l x = x \/ In (fold_left Z.min l x) l)
  /\ fold_left Z.min l x <= x
  /\ Forall (fun y => fold_left Z.min l x <= y) l.
Proof.
  revert x. induction l as [|y l IH]; intros x; simpl.
  - repeat split; [now left | lia | constructor].
  - destruct (IH (Z.min x y)) as [Hin [Hle Hall]].
    repeat split.
    + destruct Hin as [Heq | Hin]; [|now right; right].
      rewrite Heq.
      destruct (Z.min_spec x y) as [[_ Hm] | [_ Hm]]; rewrite Hm;
        [left; reflexivity | right; left; reflexivity].
    + lia.
    + constructor; [lia | assumption].
Qed.

Lemma find_all_false {A : Type} (f : A -> bool) (l : list A) :
  (forall x, In x l -> f x = false) -> find f l = None.
Proof.
  induction l as [|y l IH]; intros H; simpl; [reflexivity|].
  rewrite (H y (or_introl eq_refl)). apply IH. intros x Hx. apply H. now right.
Qed.

(** [max(l)] of a non-empty list is an element of it that bounds the others;
    on the empty list it raises. *)
Lemma pymax_spec (l : list Z) :
  l <> [] ->
  exists mx, pymax l = Ok mx /\ In mx l /\ Forall (fun y => y <= mx) l.
Proof.
  destruct l as [|x l]; [congruence | intros _].
  destruct (fold_max_spec l x) as [Hin [Hle Hall]].
  exists (fold_left Z.max l x). simpl. repeat split.
  - destruct Hin as [Heq | Hin]; [left; symmetry; exact Heq | now right].
  - constructor; assumption.
Qed.

Lemma pymin_spec (l : list Z) :
  l <> [] ->
  exists mn, pymin l = Ok mn /\ In mn l /\ Forall (fun y => mn <= y) l.
Proof.
  destruct l as [|x l]; [congruence | intros _].
  destruct (fold_min_spec l x) as [Hin [Hle Hall]].
  exists (fold_left Z.min l x). simpl. repeat split.
  - destruct Hin as [Heq | Hin]; [left; symmetry; exact Heq | now right].
  - constructor; assumption.
Qed.

Lemma pymax_In (l : list Z) (mx : Z) : pymax l = Ok mx -> In mx l.
Proof.
  destruct l as [|x l]; [discriminate|]. intros H.
  destruct (pymax_spec (x :: l)) as [mx' [H' [Hin _]]]; [discriminate|].
  congruence.
Qed.

Lemma pymin_In (l : list Z) (mn : Z) : pymin l = Ok mn -> In mn l.
Proof.
  destruct l as [|x l]; [discriminate|]. intros H.
  destruct (pymin_spec (x :: l)) as [mn' [H' [Hin _]]]; [discriminate|].
  congruence.
Qed.

(** ** The tie-break resolver *)

Section Resolver.

Variables (rnd : nat) (preferences : profile).

Lemma contains_getitem (key : pyval) :
  contains preferences key = true ->
  exists ranking, profile_getitem preferences key = Ok ranking.
Proof.
  destruct key as [s | k]; simpl; [discriminate|].
  unfold dict_getitem. destruct (dict_get preferences k); [eauto | discriminate].
Qed.

(** A single winner is returned whatever the policy is. *)
Lemma tie_break_single (tie_break : pyval) (w : Z) :
  tie_break_function rnd preferences tie_break [w] = Ok (Some w).
Proof. reflexivity. Qed.

(** What the resolver returns, when it returns an alternative, is a winner. *)
Lemma tie_break_In (tie_break : pyval) (winners : list Z) (a : Z) :
  tie_break_function rnd preferences tie_break winners = Ok (Some a) ->
  In a winners.
Proof.
  unfold tie_break_function.
  destruct (length winners =? 1)%nat.
  { destruct (getitem winners 0) eqn:E; simpl; [|discriminate].
    intros [= <-]. eapply getitem_In; eassumption. }
  destruct (pyval_eqb tie_break (PStr "max")).
  { destruct (pymax winners) eqn:E; simpl; [|discriminate].
    intros [= <-]. now apply pymax_In. }
  destruct (pyval_eqb tie_break (PStr "min")).
  { destruct (pymin winners) eqn:E; simpl; [|discriminate].
    intros [= <-]. now apply pymin_In. }
  destruct (pyval_eqb tie_break (PStr "random")).
  { destruct (random_choice rnd winners) eqn:E; simpl; [|discriminate].
    intros [= <-]. unfold random_choice in E.
    destruct winners; [discriminate|]. eapply getitem_In; eassumption. }
  destruct (contains preferences tie_break); [|discriminate].
  destruct (profile_getitem preferences tie_break); simpl; [|discriminate].
  intros [= H]. apply find_some in H. now apply mem_In.
Qed.

(** With an agent as the policy and no winner in the agent's ranking, the
    loop of the agent branch ends without a match: the call returns [None]. *)
Lemma tie_break_no_match (agent : Z) (ranking winners : list Z) :
  length winners <> 1%nat ->
  dict_get preferences agent = Some ranking ->
  (forall alt, In alt ranking -> ~ In alt winners) ->
  tie_break_function rnd preferences (PInt agent) winners = Ok None.
Proof.
  intros Hlen Hget Hnone. unfold tie_break_function.
  apply Nat.eqb_neq in Hlen. rewrite Hlen. simpl.
  unfold dict_getitem. rewrite Hget. simpl. f_equal.
  apply find_all_false. intros alt Halt. apply mem_false. now apply Hnone.
Qed.

(** The resolver raises "Invalid tie_break option" exactly on a list that
    is not a singleton with a policy it does not know. *)
Lemma tie_break_invalid_iff (tie_break : pyval) (winners : list Z) (e : exn) :
  (tie_break_function rnd preferences tie_break winners = Raise e
   /\ taxonomy e = Some InvalidTieBreakPolicy)
  <-> (length winners <> 1%nat
       /\ recognized_policy preferences tie_break = false
       /\ e = ValueError (InvalidTieBreak tie_break)).
Proof.
  unfold tie_break_function, recognized_policy.
  destruct (length winners =? 1)%nat eqn:Hlen.
  { apply Nat.eqb_eq in Hlen. split.
    - intros [H _]. destruct winners as [|w [|w' ws]]; discriminate.
    - intros [H _]. contradiction. }
  apply Nat.eqb_neq in Hlen.
  destruct (pyval_eqb tie_break (PStr "max")); simpl.
  { split; [|intros [_ [H _]]; discriminate].
    intros [H He]. destruct winners; simpl in H; [|discriminate].
    injection H as <-. discriminate. }
  destruct (pyval_eqb tie_break (PStr "min")); simpl.
  { split; [|intros [_ [H _]]; discriminate].
    intros [H He]. destruct winners; simpl in H; [|discriminate].
    injection H as <-. discriminate. }
  destruct (pyval_eqb tie_break (PStr "random")); simpl.
  { split; [|intros [_ [H _]]; discriminate].
    intros [H He]. unfold random_choice in H.
    destruct winners as [|w ws]; [injection H as <-; discriminate|].
    unfold getitem in H.
    match type of H with
    | context [nth_error ?l ?i] => destruct (nth_error l i)
    end; [discriminate|].
    injection H as <-. discriminate. }
  destruct (contains preferences tie_break) eqn:Hc.
  { split; [|intros [_ [H _]]; discriminate].
    intros [H _]. destruct (contains_getitem _ Hc) as [r Hr].
    rewrite Hr in H. discriminate. }
  split.
  - intros [[= <-] _]. auto.
  - intros [_ [_ ->]]. split; reflexivity.
Qed.

End Resolver.

(** C1: an agent policy whose ranking holds none of the tied winners.  The
    claim asks for an explicit NoTiebreakMatch error; the resolver returns
    [None] there.  Evaluated on the profile [{1: [1, 2]}] with the winners
    [[3, 4]] and the policy [1], and through [plurality] on a profile
    whose agents 2 to 5 put the alternatives 3 and 4 first while agent 1
    ranks neither. *)
Theorem tie_break_no_match_returns_None :
  tie_break_function 0 [(1, [1; 2])] (PInt 1) [3; 4] = Ok None
  /\ plurality_winners [(1, [1; 2]); (2, [3]); (3, [3]); (4, [4]); (5, [4])]
     = Ok [3; 4]
  /\ plurality 0 [(1, [1; 2]); (2, [3]); (3, [3]); (4, [4]); (5, [4])] (PInt 1)
     = Ok None.
Proof.
  split; [|split; reflexivity].
  apply tie_break_no_match with (ranking := [1; 2]); [discriminate | reflexivity |].
  intros alt [<- | [<- | []]] [H | [H | []]]; discriminate.
Qed.

(** C8, as stated, fails on an empty winners list: the resolver raises
    "Invalid tie_break option" on a list that has no element at all, and
    [STV] reaches that call when one round strikes both alternatives. *)
Lemma invalid_policy_on_empty_winners :
  tie_break_function 0 [] (PStr "foo") []
  = Raise (ValueError (InvalidTieBreak (PStr "foo")))
  /\ taxonomy (ValueError (InvalidTieBreak (PStr "foo")))
     = Some InvalidTieBreakPolicy
  /\ ~ (1 < length (@nil Z))%nat
  /\ STV 0 [(1, [1; 2]); (2, [2; 1])] (PStr "foo")
     = Some (Raise (ValueError (InvalidTieBreak (PStr "foo"))), [(1, []); (2, [])]).
Proof.
  repeat split; simpl; lia.
Qed.

(** C8 (amended): a winners list of length one is answered with its element
    under every policy, known or not; the InvalidTieBreakPolicy error is
    raised exactly when the length of the winners list is not one (the list
    is empty or has several elements) and the policy is neither a keyword nor
    a key of the profile. *)
Theorem tie_break_single_or_invalid :
  (forall rnd preferences tie_break w,
      tie_break_function rnd preferences tie_break [w] = Ok (Some w))
  /\ (forall rnd preferences tie_break winners e,
         (tie_break_function rnd preferences tie_break winners = Raise e
          /\ taxonomy e = Some InvalidTieBreakPolicy)
         <-> (length winners <> 1%nat
              /\ recognized_policy preferences tie_break = false
              /\ e = ValueError (InvalidTieBreak tie_break))).
Proof.
  split.
  - intros. apply tie_break_single.
  - intros. apply tie_break_invalid_iff.
Qed.

(** ** Dictatorship *)

(** C9: [dictatorship] returns the first alternative of the agent's ranking
    when the agent is a key of the profile, and fails with the UnknownAgent
    error if and only if the agent is not a key. *)
Theorem dictatorship_spec (preferences : profile) (agent : pyval) :
  (forall ranking top,
      profile_getitem preferences agent = Ok ranking ->
      hd_error ranking = Some top ->
      dictatorship preferences agent = Ok top)
  /\ ((exists e, dictatorship preferences agent = Raise e
                 /\ taxonomy e = Some UnknownAgent)
      <-> contains preferences agent = false).
Proof.
  unfold dictatorship. split.
  - intros ranking top Hget Htop.
    assert (Hc : contains preferences agent = true).
    { destruct agent as [s | k]; simpl in *; [discriminate|].
      unfold dict_getitem in Hget.
      destruct (dict_get preferences k); [reflexivity | discriminate]. }
    rewrite Hc, Hget. simpl.
    destruct ranking as [|a ranking]; [discriminate|].
    now injection Htop as ->.
  - destruct (contains preferences agent) eqn:Hc; simpl.
    + split; [|discriminate]. intros [e [H He]].
      destruct (contains_getitem _ _ Hc) as [ranking Hr]. rewrite Hr in H.
      simpl in H. unfold getitem in H.
      destruct (nth_error ranking 0); [discriminate|].
      injection H as <-. discriminate.
    + split; [reflexivity|]. intros _. eexists. split; reflexivity.
Qed.

Lemma dictatorship_spec_witness :
  dictatorship [(1, [2; 1; 3]); (2, [1; 2; 3]); (3, [1; 3; 2])] (PInt 3) = Ok 1
  /\ exists e, dictatorship [(1, [2; 1; 3]); (2, [1; 2; 3]); (3, [1; 3; 2])]
                            (PInt 99) = Raise e
               /\ taxonomy e = Some UnknownAgent.
Proof.
  split.
  - apply (proj1 (dictatorship_spec _ (PInt 3)) [1; 3; 2] 1); reflexivity.
  - apply (proj2 (dictatorship_spec _ (PInt 99))). reflexivity.
Defined.

(** ** Rules that read agent 1 first *)

(** C10: [scoring_rule], [veto], [borda] and [STV] start by reading
    [preferences[1]]; on a profile without the key 1 (the empty profile is
    one) each of them raises the [KeyError] of that lookup, which is none of
    the errors of the taxonomy, and [STV] leaves the profile as it was. *)
Theorem rules_need_agent_1 (preferences : profile) :
  dict_get preferences 1 = None ->
  forall rnd score_vector tie_break,
    scoring_rule rnd preferences score_vector tie_break = Raise (KeyError (PInt 1))
    /\ veto rnd preferences tie_break = Raise (KeyError (PInt 1))
    /\ borda rnd preferences tie_break = Raise (KeyError (PInt 1))
    /\ STV rnd preferences tie_break = Some (Raise (KeyError (PInt 1)), preferences)
    /\ taxonomy (KeyError (PInt 1)) = None.
Proof.
  intros Hget rnd score_vector tie_break.
  unfold scoring_rule, scoring_winners, veto, veto_winners, borda, borda_winners,
    STV, STV_winners, dict_getitem.
  rewrite Hget. simpl. repeat split.
Qed.

Lemma rules_need_agent_1_witness :
  scoring_rule 0 [] [1; 0] (PStr "max") = Raise (KeyError (PInt 1))
  /\ veto 0 [] (PStr "max") = Raise (KeyError (PInt 1))
  /\ borda 0 [] (PStr "max") = Raise (KeyError (PInt 1))
  /\ STV 0 [] (PStr "max") = Some (Raise (KeyError (PInt 1)), [])
  /\ taxonomy (KeyError (PInt 1)) = None.
Proof.
  apply (rules_need_agent_1 [] eq_refl 0%nat [1; 0] (PStr "max")).
Defined.

(** ** Ranges and dictionaries *)

Lemma range_S (lo : Z) (n : nat) : range lo (S n) = lo :: range (lo + 1) n.
Proof.
  unfold range. simpl. rewrite Z.add_0_r. f_equal.
  rewrite <- seq_shift, map_map. apply map_ext. intros i. lia.
Qed.

Lemma range_length (lo : Z) (n : nat) : length (range lo n) = n.
Proof. unfold range. now rewrite length_map, length_seq. Qed.

Lemma range_In (lo : Z) (n : nat) (x : Z) :
  In x (range lo n) <-> lo <= x < lo + Z.of_nat n.
Proof.
  unfold range. rewrite in_map_iff. split.
  - intros [i [<- Hi]]. apply in_seq in Hi. lia.
  - intros H. exists (Z.to_nat (x - lo)). split; [lia|]. apply in_seq. lia.
Qed.

Lemma range_NoDup (lo : Z) (n : nat) : NoDup (range lo n).
Proof.
  revert lo. induction n as [|n IH]; intros lo.
  - constructor.
  - rewrite range_S. constructor; [|apply IH].
    rewrite range_In. lia.
Qed.

Lemma range_of_seq (n : nat) : range 1 n = map Z.of_nat (seq 1 n).
Proof.
  unfold range. rewrite <- seq_shift, map_map. apply map_ext. intros i. lia.
Qed.

Section Dict.

Context {V : Type}.

Lemma dict_get_In (d : dict V) (k : Z) (v : V) :
  dict_get d k = Some v -> In (k, v) d.
Proof.
  induction d as [|[k' v'] d IH]; simpl; [discriminate|].
  destruct (Z.eqb_spec k k') as [-> | Hne].
  - intros [= ->]. now left.
  - intros H. right. now apply IH.
Qed.

Lemma dict_get_None (d : dict V) (k : Z) :
  dict_get d k = None <-> ~ In k (dict_keys d).
Proof.
  induction d as [|[k' v'] d IH]; simpl; [tauto|].
  destruct (Z.eqb_spec k k') as [-> | Hne].
  - split; [discriminate | intros H; exfalso; apply H; now left].
  - rewrite IH. split; [intros H [Hk | Hk]; [congruence | contradiction] | tauto].
Qed.

Lemma dict_get_key (d : dict V) (k : Z) (v : V) :
  dict_get d k = Some v -> In k (dict_keys d).
Proof.
  intros H. apply dict_get_In in H. change k with (fst (k, v)).
  now apply in_map.
Qed.

(** A key that is not in the dictionary is added after the others. *)
Lemma dict_set_fresh (d : dict V) (k : Z) (v : V) :
  ~ In k (dict_keys d) -> dict_set d k v = d ++ [(k, v)].
Proof.
  induction d as [|[k' v'] d IH]; simpl; intros H; [reflexivity|].
  destruct (Z.eqb_spec k k') as [-> | Hne]; [exfalso; apply H; now left|].
  f_equal. apply IH. tauto.
Qed.

(** A key that is in the dictionary keeps its place. *)
Lemma dict_set_at (pre rest : dict V) (k : Z) (v v' : V) :
  ~ In k (dict_keys pre) ->
  dict_set (pre ++ (k, v) :: rest) k v' = pre ++ (k, v') :: rest.
Proof.
  induction pre as [|[k0 v0] pre IH]; simpl; intros H.
  - now rewrite Z.eqb_refl.
  - destruct (Z.eqb_spec k k0) as [-> | Hne]; [exfalso; apply H; now left|].
    f_equal. apply IH. tauto.
Qed.

(** Storing under distinct new keys, one after the other. *)
Lemma fold_set_fresh (f : Z -> V) (keys : list Z) (d : dict V) :
  NoDup keys ->
  (forall k, In k keys -> ~ In k (dict_keys d)) ->
  fold_left (fun d k => dict_set d k (f k)) keys d
  = d ++ map (fun k => (k, f k)) keys.
Proof.
  revert d. induction keys as [|k keys IH]; intros d Hnd Hfresh; simpl.
  - now rewrite app_nil_r.
  - inversion Hnd as [|? ? Hk Hnd']; subst.
    rewrite dict_set_fresh by (apply Hfresh; now left).
    rewrite IH; [now rewrite <- app_assoc | assumption |].
    intros k' Hk'. unfold dict_keys. rewrite map_app, in_app_iff. simpl.
    intros [H | [-> | []]]; [|contradiction].
    apply (Hfresh k'); [now right | assumption].
Qed.

Lemma dict_from_keys_NoDup (v : V) (keys : list Z) :
  NoDup keys -> dict_from_keys v keys = map (fun k => (k, v)) keys.
Proof.
  intros Hnd. unfold dict_from_keys.
  now rewrite (fold_set_fresh (fun _ => v)) by (assumption || (intros ? ? [])).
Qed.

(** Replacing the value of every key in turn, while iterating over the
    items of the dictionary itself. *)
Lemma fold_update_values (g : V -> V) (pre rest : dict V) :
  NoDup (dict_keys (pre ++ rest)) ->
  fold_left (fun d item => dict_set d (fst item) (g (snd item))) rest (pre ++ rest)
  = pre ++ map (fun item => (fst item, g (snd item))) rest.
Proof.
  revert pre. induction rest as [|[k v] rest IH]; intros pre Hnd; simpl.
  - reflexivity.
  - unfold dict_keys in Hnd. rewrite map_app in Hnd. simpl in Hnd.
    rewrite dict_set_at by (apply NoDup_remove_2 in Hnd; rewrite in_app_iff in Hnd;
      unfold dict_keys; tauto).
    change (pre ++ (k, g v) :: rest) with (pre ++ [(k, g v)] ++ rest).
    rewrite app_assoc, IH; [now rewrite <- app_assoc|].
    unfold dict_keys. rewrite !map_app. simpl. now rewrite <- app_assoc.
Qed.

End Dict.

(** ** Building the profile *)

Section StableSort.

Context {A : Type}.
Variables (key idx : A -> Z).

Local Abbreviation before := (before key idx).

Lemma insert_desc_perm (x : A) (l : list A) :
  Permutation (insert_desc key x l) (x :: l).
Proof.
  induction l as [|y l IH]; simpl; [reflexivity|].
  destruct (key x <? key y); [|reflexivity].
  rewrite IH. apply perm_swap.
Qed.

Lemma sorted_desc_perm (l : list A) : Permutation (sorted_desc key l) l.
Proof.
  induction l as [|x l IH]; simpl; [reflexivity|].
  rewrite insert_desc_perm. now apply perm_skip.
Qed.

Lemma insert_desc_sorted (x : A) (l : list A) :
  StronglySorted before l ->
  Forall (fun y => idx x < idx y) l ->
  StronglySorted before (insert_desc key x l).
Proof.
  induction 1 as [|y l Hs IH Hy]; intros Hidx; simpl.
  - repeat constructor.
  - inversion Hidx as [|? ? Hxy Hidx']; subst.
    destruct (Z.ltb_spec (key x) (key y)) as [Hlt | Hge].
    + constructor; [now apply IH|].
      rewrite insert_desc_perm. constructor; [left; lia | assumption].
    + constructor; [now constructor|].
      constructor; [unfold before; lia|].
      rewrite Forall_forall in *. intros z Hz.
      specialize (Hy z Hz). specialize (Hidx' z Hz). unfold before in *. lia.
Qed.

Lemma sorted_desc_sorted (l : list A) :
  StronglySorted (fun x y => idx x < idx y) l ->
  StronglySorted before (sorted_desc key l).
Proof.
  induction 1 as [|x l Hs IH Hx]; simpl; [constructor|].
  apply insert_desc_sorted; [assumption|].
  now rewrite sorted_desc_perm.
Qed.

End StableSort.

Lemma StronglySorted_map_in {A B : Type} (R : A -> A -> Prop) (R' : B -> B -> Prop)
    (f : A -> B) (l : list A) :
  (forall x y, In x l -> In y l -> R x y -> R' (f x) (f y)) ->
  StronglySorted R l -> StronglySorted R' (map f l).
Proof.
  intros Hf Hs. induction Hs as [|x l Hs IH Hx]; simpl; constructor.
  - apply IH. intros; apply Hf; simpl; auto.
  - rewrite Forall_forall in *. intros y Hy. apply in_map_iff in Hy.
    destruct Hy as [z [<- Hz]]. apply Hf; simpl; auto.
Qed.

Lemma combine_map_self {A B : Type} (f : A -> B) (l : list A) :
  combine l (map f l) = map (fun x => (x, f x)) l.
Proof. induction l; simpl; congruence. Qed.

Lemma seq_sorted (s n : nat) : StronglySorted lt (seq s n).
Proof.
  revert s. induction n as [|n IH]; intros s; simpl; constructor; [apply IH|].
  apply Forall_forall. intros y Hy. apply in_seq in Hy. lia.
Qed.

(** The pairs [enumerate(vals, 1)] of a row of the table. *)
Lemma enumerate_row (values : table) (row : Z) :
  enumerate 1 (row_values values row)
  = map (fun i => (i, cell values row (Z.of_nat i))) (seq 1 (max_column values)).
Proof.
  unfold enumerate, row_values.
  rewrite length_map, range_length, range_of_seq, map_map.
  apply (combine_map_self (fun i => cell values row (Z.of_nat i))).
Qed.

(** The ranking of one row: a permutation of the column indices in which a
    greater value comes first and, among equal values, the smaller index. *)
Lemma rank_row (values : table) (row : Z) :
  let ranking := rank_values (row_values values row) in
  Permutation ranking (range 1 (max_column values))
  /\ StronglySorted (precedes values row) ranking.
Proof.
  unfold rank_values. rewrite enumerate_row.
  set (pairs := map _ (seq 1 (max_column values))). split.
  - rewrite (sorted_desc_perm snd pairs). subst pairs.
    now rewrite map_map, range_of_seq.
  - apply StronglySorted_map_in
      with (R := before snd (fun x : nat * Z => Z.of_nat (fst x))).
    + assert (Hval : forall x, In x (sorted_desc snd pairs) ->
                               snd x = cell values row (Z.of_nat (fst x))).
      { intros x Hx. rewrite (sorted_desc_perm snd pairs) in Hx. subst pairs.
        apply in_map_iff in Hx. destruct Hx as [i [<- _]]. reflexivity. }
      intros x y Hx Hy. unfold before, precedes.
      now rewrite <- (Hval x Hx), <- (Hval y Hy).
    + apply sorted_desc_sorted. subst pairs.
      apply StronglySorted_map_in with (R := lt); [|apply seq_sorted].
      simpl. intros; lia.
Qed.

(** The two loops of [generate_preferences] amount to one ranking per row. *)
Lemma generate_preferences_rows (values : table) :
  generate_preferences values
  = map (fun row => (row, rank_values (row_values values row)))
        (range 1 (max_row values)).
Proof.
  unfold generate_preferences.
  rewrite (fold_set_fresh (row_values values))
    by (apply range_NoDup || (intros ? ? [])).
  simpl. set (rows := map _ (range 1 (max_row values))).
  pose proof (fold_update_values rank_values [] rows) as Hfold.
  simpl in Hfold. rewrite Hfold.
  - subst rows. now rewrite map_map.
  - subst rows. unfold dict_keys. rewrite map_map. simpl.
    rewrite map_id. apply range_NoDup.
Qed.

(** C3: for every table, [generate_preferences] has one entry per row
    [1..max_row], and the ranking of each row is a permutation of the column
    indices [1..max_column] in which a column with a greater cell value
    comes before one with a smaller value and, of two columns with equal
    values, the one with the smaller index comes first (the order of a
    stable descending sort). *)
Theorem generate_preferences_correct (values : table) :
  dict_keys (generate_preferences values) = range 1 (max_row values)
  /\ Forall (fun item =>
               Permutation (snd item) (range 1 (max_column values))
               /\ StronglySorted (precedes values (fst item)) (snd item))
            (generate_preferences values).
Proof.
  rewrite generate_preferences_rows. split.
  - unfold dict_keys. rewrite map_map. simpl. apply map_id.
  - apply Forall_forall. intros item Hitem. apply in_map_iff in Hitem.
    destruct Hitem as [row [<- _]]. simpl. apply rank_row.
Qed.

(** ** Score tables *)

Lemma bump_keys (alt w : Z) (d : dict Z) :
  dict_keys (map (bump alt w) d) = dict_keys d.
Proof. unfold dict_keys. rewrite map_map. reflexivity. Qed.

Lemma bump_absent (alt w : Z) (d : dict Z) :
  ~ In alt (dict_keys d) -> map (bump alt w) d = d.
Proof.
  induction d as [|[k v] d IH]; simpl; intros H; [reflexivity|].
  unfold bump at 1. simpl.
  destruct (Z.eqb_spec k alt) as [-> | Hne]; [exfalso; apply H; now left|].
  f_equal. apply IH. tauto.
Qed.

(** [if alt in d: d[alt] += w] touches the entry of [alt] and no other. *)
Lemma dict_add_bump (alt w : Z) (d : dict Z) :
  NoDup (dict_keys d) ->
  match dict_get d alt with
  | Some c => dict_set d alt (c + w)
  | None => d
  end = map (bump alt w) d.
Proof.
  induction d as [|[k v] d IH]; simpl; intros Hnd; [reflexivity|].
  inversion Hnd as [|? ? Hk Hnd']; subst.
  unfold bump at 1. simpl. rewrite (Z.eqb_sym k alt).
  destruct (Z.eqb_spec alt k) as [-> | Hne].
  - f_equal. symmetry. now apply bump_absent.
  - rewrite <- (IH Hnd'). destruct (dict_get d alt); reflexivity.
Qed.

Lemma add_score_bump (alt w : Z) (d : dict Z) :
  NoDup (dict_keys d) ->
  In alt (dict_keys d) ->
  add_score d alt (Ok w) = Ok (map (bump alt w) d).
Proof.
  intros Hnd Hin. unfold add_score, dict_getitem.
  rewrite <- (dict_add_bump alt w d Hnd).
  destruct (dict_get d alt) eqn:E; [reflexivity|].
  apply dict_get_None in E. contradiction.
Qed.

Lemma keys_with_value_map (f : Z -> Z) (keys : list Z) (v : Z) :
  keys_with_value (map (fun k => (k, f k)) keys) v
  = filter (fun k => Z.eqb (f k) v) keys.
Proof.
  unfold keys_with_value. induction keys as [|k keys IH]; simpl; [reflexivity|].
  destruct (f k =? v); simpl; now rewrite IH.
Qed.

Lemma filter_perm {A : Type} (f : A -> bool) (l l' : list A) :
  Permutation l l' -> Permutation (filter f l) (filter f l').
Proof.
  induction 1 as [|x l l' H IH|x y l|l l' l'' H1 IH1 H2 IH2]; simpl.
  - constructor.
  - destruct (f x); [now constructor | assumption].
  - destruct (f x), (f y); try reflexivity; now constructor.
  - etransitivity; eassumption.
Qed.

Lemma filter_length_lt {A : Type} (f : A -> bool) (l : list A) (x : A) :
  In x l -> f x = false -> (length (filter f l) < length l)%nat.
Proof.
  induction l as [|y l IH]; simpl; [contradiction|].
  intros [-> | Hin] Hx.
  - rewrite Hx. pose proof (filter_length_le f l). lia.
  - specialize (IH Hin Hx). destruct (f y); simpl; lia.
Qed.

(** ** Single transferable vote *)

Lemma count_tops_cons (pref : list Z) (prefs : list (list Z)) (alt : Z) :
  count_tops (pref :: prefs) alt
  = (if is_top alt pref then 1 else 0) + count_tops prefs alt.
Proof.
  unfold count_tops. cbn [filter].
  destruct (is_top alt pref); [cbn [length]; rewrite Nat2Z.inj_succ|]; lia.
Qed.

(** The tally of a round: every live alternative with the number of rankings
    it heads. *)
Lemma tally_loop (prefs : list (list Z)) (counts : dict Z) :
  NoDup (dict_keys counts) ->
  fold_left (fun counts pref =>
               match pref with
               | [] => counts
               | top :: _ =>
                   match dict_get counts top with
                   | Some c => dict_set counts top (c + 1)
                   | None => counts
                   end
               end) prefs counts
  = map (fun kv => (fst kv, snd kv + count_tops prefs (fst kv))) counts.
Proof.
  revert counts. induction prefs as [|pref prefs IH]; intros counts Hnd; simpl.
  - rewrite <- (map_id counts) at 1. apply map_ext. intros [k v].
    unfold count_tops. simpl. f_equal. lia.
  - assert (Hstep : match pref with
                    | [] => counts
                    | top :: _ =>
                        match dict_get counts top with
                        | Some c => dict_set counts top (c + 1)
                        | None => counts
                        end
                    end
                    = map (fun kv => (fst kv,
                                      snd kv + (if is_top (fst kv) pref then 1 else 0)))
                          counts).
    { destruct pref as [|top pref'].
      - rewrite <- (map_id counts) at 1. apply map_ext. intros [k v]. simpl.
        f_equal. lia.
      - rewrite (dict_add_bump top 1 counts Hnd). apply map_ext.
        intros [k v]. unfold bump. simpl. rewrite (Z.eqb_sym top k).
        destruct (k =? top); f_equal; lia. }
    rewrite Hstep, IH.
    + rewrite map_map. apply map_ext. intros [k v]. simpl.
      rewrite count_tops_cons. f_equal. lia.
    + unfold dict_keys. rewrite map_map. simpl. exact Hnd.
Qed.

Lemma tally_tops_spec (alternatives : list Z) (preferences : profile) :
  NoDup alternatives ->
  tally_tops alternatives preferences
  = map (fun a => (a, top_count preferences a)) alternatives.
Proof.
  intros Hnd. unfold tally_tops. rewrite dict_from_keys_NoDup by assumption.
  rewrite tally_loop.
  - rewrite map_map. reflexivity.
  - unfold dict_keys. rewrite map_map. simpl. now rewrite map_id.
Qed.

Lemma set_minus_NoDup (s l : list Z) : NoDup s -> NoDup (set_minus s l).
Proof. apply NoDup_filter. Qed.

(** One round on a non-empty live set: the alternatives that have the least
    tally are struck, and at least one has it. *)
Lemma STV_round_spec (alternatives : list Z) (preferences : profile) :
  NoDup alternatives ->
  alternatives <> [] ->
  exists least,
    (exists a, In a alternatives /\ top_count preferences a = least)
    /\ (forall a, In a alternatives -> least <= top_count preferences a)
    /\ STV_round alternatives preferences
       = (Ok (filter (fun a => negb (top_count preferences a =? least)) alternatives),
          map (fun item =>
                 (fst item,
                  strike (filter (fun a => top_count preferences a =? least)
                                 alternatives)
                         (snd item)))
              preferences).
Proof.
  intros Hnd Hne. unfold STV_round.
  rewrite tally_tops_spec by assumption.
  unfold dict_values. rewrite map_map. simpl.
  destruct (pymin_spec (map (top_count preferences) alternatives))
    as [least [Hmin [Hin Hall]]].
  { destruct alternatives; [congruence | discriminate]. }
  exists least.
  change (map (fun x => top_count preferences x) alternatives)
    with (map (top_count preferences) alternatives).
  rewrite Hmin.
  apply in_map_iff in Hin. destruct Hin as [a [Ha Hina]].
  split; [now exists a|]. split.
  - intros b Hb. rewrite Forall_forall in Hall. apply Hall. now apply in_map.
  - rewrite (keys_with_value_map (top_count preferences)). f_equal. f_equal.
    unfold set_minus. apply filter_ext_in. intros b Hb. f_equal.
    destruct (top_count preferences b =? least) eqn:E.
    + apply mem_In. apply filter_In. now split.
    + apply mem_false. rewrite filter_In. intros [_ H]. congruence.
Qed.

(** The loop ends, whatever the profile: with [fuel + 1] at least the size
    of the live set it runs out of live alternatives before it runs out of
    fuel, after at most [size - 1] rounds. *)
Lemma STV_loop_terminates (fuel : nat) :
  forall (alternatives : list Z) (preferences : profile),
    NoDup alternatives ->
    (length alternatives <= S fuel)%nat ->
    exists rounds live final,
      STV_loop fuel alternatives preferences = Some (Ok (rounds, live), final)
      /\ (rounds <= length alternatives - 1)%nat
      /\ (length live <= 1)%nat
      /\ incl live alternatives
      /\ dict_keys final = dict_keys preferences.
Proof.
  induction fuel as [|fuel IH]; intros alternatives preferences Hnd Hlen.
  - exists O, alternatives, preferences. simpl.
    destruct (Nat.ltb_spec 1 (length alternatives)); [lia|].
    repeat split; [lia | assumption | apply incl_refl].
  - simpl. destruct (Nat.ltb_spec 1 (length alternatives)) as [Hgt | Hle].
    + destruct (STV_round_spec alternatives preferences Hnd)
        as [least [[a [Ha Hleast]] [_ Hround]]].
      { destruct alternatives; [simpl in Hgt; lia | discriminate]. }
      rewrite Hround.
      set (live' := filter _ alternatives).
      set (prefs' := map _ preferences).
      assert (Hshrink : (length live' < length alternatives)%nat).
      { apply filter_length_lt with (x := a); [assumption|].
        apply Z.eqb_eq in Hleast. now rewrite Hleast. }
      destruct (IH live' prefs') as [rounds [live [final [Hloop [Hr [Hl [Hi Hk]]]]]]].
      { now apply NoDup_filter. }
      { lia. }
      exists (S rounds), live, final. rewrite Hloop.
      repeat split; [lia | assumption | |].
      * intros x Hx. apply Hi in Hx. subst live'. apply filter_In in Hx. tauto.
      * rewrite Hk. subst prefs'. unfold dict_keys. now rewrite map_map.
    + exists O, alternatives, preferences.
      repeat split; [lia | assumption | apply incl_refl].
Qed.

Lemma contains_keys (d1 d2 : profile) (key : pyval) :
  dict_keys d1 = dict_keys d2 -> contains d1 key = contains d2 key.
Proof.
  intros Hk. destruct key as [s | k]; simpl; [reflexivity|].
  destruct (dict_get d1 k) eqn:E1, (dict_get d2 k) eqn:E2; try reflexivity.
  - apply dict_get_None in E2. apply dict_get_key in E1. rewrite Hk in E1.
    contradiction.
  - apply dict_get_None in E1. apply dict_get_key in E2. rewrite Hk in E1.
    contradiction.
Qed.

(** [STV] always comes to its last line when agent 1 is in the profile: the
    live set it hands to the resolver has at most one element, and the
    profile keeps its keys. *)
Lemma STV_winners_spec (preferences : profile) (first : list Z) :
  dict_get preferences 1 = Some first ->
  exists rounds live final,
    STV_loop (length (set_of_list first)) (set_of_list first) preferences
    = Some (Ok (rounds, live), final)
    /\ STV_winners preferences = Some (Ok live, final)
    /\ (rounds <= length (set_of_list first) - 1)%nat
    /\ (length live <= 1)%nat
    /\ incl live first
    /\ dict_keys final = dict_keys preferences.
Proof.
  intros Hget.
  destruct (STV_loop_terminates (length (set_of_list first)) (set_of_list first)
              preferences) as [rounds [live [final [Hloop [Hr [Hl [Hi Hk]]]]]]].
  { apply NoDup_nodup. }
  { lia. }
  exists rounds, live, final.
  unfold STV_winners, dict_getitem. rewrite Hget, Hloop.
  repeat split; try assumption.
  intros x Hx. apply Hi in Hx. unfold set_of_list in Hx.
  now apply nodup_In in Hx.
Qed.

(** [STV] returns or raises on every profile: the fuel never runs out. *)
Lemma STV_total (rnd : nat) (preferences : profile) (tie_break : pyval) :
  exists outcome final, STV rnd preferences tie_break = Some (outcome, final).
Proof.
  unfold STV. destruct (dict_get preferences 1) as [first|] eqn:Hget.
  - destruct (STV_winners_spec preferences first Hget)
      as [rounds [live [final [_ [Hw _]]]]].
    rewrite Hw. eauto.
  - unfold STV_winners, dict_getitem. rewrite Hget. eauto.
Qed.

Lemma set_of_list_length (l : list Z) : (length (set_of_list l) <= length l)%nat.
Proof.
  unfold set_of_list. induction l as [|x l IH]; simpl; [lia|].
  destruct (in_dec Z.eq_dec x l); simpl; lia.
Qed.

(** C6: a round of [STV] on a live set of more than one alternative strikes
    exactly the alternatives whose top-choice tally is the least one, of
    which there is at least one, so the live set gets strictly smaller; and
    for a profile whose agent 1 ranks [m] alternatives the loop ends after at
    most [m - 1] rounds, with at most one live alternative. *)
Theorem STV_shrinks_and_terminates (preferences : profile) (first : list Z) :
  dict_get preferences 1 = Some first ->
  (forall live prefs,
      NoDup live -> (1 < length live)%nat ->
      exists least live',
        (exists a, In a live /\ top_count prefs a = least)
        /\ (forall a, In a live -> least <= top_count prefs a)
        /\ fst (STV_round live prefs) = Ok live'
        /\ (forall a, In a live' <-> In a live /\ top_count prefs a <> least)
        /\ (length live' < length live)%nat)
  /\ exists rounds live final,
      STV_loop (length (set_of_list first)) (set_of_list first) preferences
      = Some (Ok (rounds, live), final)
      /\ STV_winners preferences = Some (Ok live, final)
      /\ (rounds <= length first - 1)%nat
      /\ (length live <= 1)%nat.
Proof.
  intros Hget. split.
  - intros live prefs Hnd Hlen.
    destruct (STV_round_spec live prefs Hnd) as [least [[a [Ha Hleast]] [Hmin Hround]]].
    { destruct live; [simpl in Hlen; lia | discriminate]. }
    exists least, (filter (fun a => negb (top_count prefs a =? least)) live).
    rewrite Hround. simpl. repeat split.
    + now exists a.
    + assumption.
    + apply filter_In in H. tauto.
    + apply filter_In in H. destruct H as [_ H].
      apply negb_true_iff, Z.eqb_neq in H. assumption.
    + intros [Hin Hne]. apply filter_In. split; [assumption|].
      now apply negb_true_iff, Z.eqb_neq.
    + apply filter_length_lt with (x := a); [assumption|].
      apply Z.eqb_eq in Hleast. now rewrite Hleast.
  - destruct (STV_winners_spec preferences first Hget)
      as [rounds [live [final [Hloop [Hw [Hr [Hl _]]]]]]].
    exists rounds, live, final. repeat split; try assumption.
    pose proof (set_of_list_length first). lia.
Qed.

Lemma STV_shrinks_and_terminates_witness :
  exists rounds live final,
    STV_loop 3 [2; 1; 3] [(1, [2; 1; 3]); (2, [1; 2; 3]); (3, [1; 3; 2])]
    = Some (Ok (rounds, live), final)
    /\ STV_winners [(1, [2; 1; 3]); (2, [1; 2; 3]); (3, [1; 3; 2])]
       = Some (Ok live, final)
    /\ (rounds <= 2)%nat
    /\ (length live <= 1)%nat.
Proof.
  exact (proj2 (STV_shrinks_and_terminates
                  [(1, [2; 1; 3]); (2, [1; 2; 3]); (3, [1; 3; 2])] [2; 1; 3]
                  eq_refl)).
Defined.

(** C7, as stated, fails: on the profile [{1: [1, 2], 2: [2, 1]}] the first
    round strikes both alternatives, and [STV] then returns [None] under the
    policy [1], and under ["max"] raises the [ValueError] of [max] on an
    empty argument, which is none of the errors of the taxonomy. *)
Lemma STV_wipeout_without_explicit_error :
  fst (STV_round [1; 2] [(1, [1; 2]); (2, [2; 1])]) = Ok []
  /\ STV_winners [(1, [1; 2]); (2, [2; 1])] = Some (Ok [], [(1, []); (2, [])])
  /\ STV 0 [(1, [1; 2]); (2, [2; 1])] (PInt 1) = Some (Ok None, [(1, []); (2, [])])
  /\ STV 0 [(1, [1; 2]); (2, [2; 1])] (PStr "max")
     = Some (Raise (ValueError (EmptyArg "max")), [(1, []); (2, [])])
  /\ taxonomy (ValueError (EmptyArg "max")) <> Some NoAlternativesRemain.
Proof.
  repeat split. discriminate.
Qed.

(** C7 (amended): when the loop of [STV] leaves no live alternative, [STV]
    calls the resolver on the empty winners list; it then fails with the
    [ValueError] of [max] or [min] on an empty argument under the policies
    ["max"] and ["min"], with [IndexError] under ["random"], and with the
    "Invalid tie_break option" error under a policy that is neither a
    keyword nor a key of the profile. *)
Theorem STV_wipeout (preferences final : profile) :
  STV_winners preferences = Some (Ok [], final) ->
  forall rnd,
    STV rnd preferences (PStr "max")
    = Some (Raise (ValueError (EmptyArg "max")), final)
    /\ STV rnd preferences (PStr "min")
       = Some (Raise (ValueError (EmptyArg "min")), final)
    /\ STV rnd preferences (PStr "random") = Some (Raise IndexError, final)
    /\ (forall tie_break,
           recognized_policy preferences tie_break = false ->
           STV rnd preferences tie_break
           = Some (Raise (ValueError (InvalidTieBreak tie_break)), final)).
Proof.
  intros Hw rnd. unfold STV. rewrite Hw.
  repeat split.
  intros tie_break Hrec. unfold recognized_policy in Hrec.
  apply orb_false_iff in Hrec. destruct Hrec as [Hrec Hc].
  apply orb_false_iff in Hrec. destruct Hrec as [Hrec Hrandom].
  apply orb_false_iff in Hrec. destruct Hrec as [Hmax Hmin].
  assert (Hkeys : dict_keys final = dict_keys preferences).
  { unfold STV_winners, dict_getitem in Hw.
    destruct (dict_get preferences 1) as [first|] eqn:Hget; [|discriminate].
    destruct (STV_winners_spec preferences first Hget)
      as [rounds [live [final' [Hloop [_ [_ [_ [_ Hk]]]]]]]].
    rewrite Hloop in Hw. now injection Hw as _ <-. }
  unfold tie_break_function. simpl.
  rewrite Hmax, Hmin, Hrandom, (contains_keys final preferences _ Hkeys), Hc.
  reflexivity.
Qed.

Lemma STV_wipeout_witness :
  STV 0 [(1, [1; 2]); (2, [2; 1])] (PStr "max")
  = Some (Raise (ValueError (EmptyArg "max")), [(1, []); (2, [])])
  /\ STV 0 [(1, [1; 2]); (2, [2; 1])] (PStr "min")
     = Some (Raise (ValueError (EmptyArg "min")), [(1, []); (2, [])])
  /\ STV 0 [(1, [1; 2]); (2, [2; 1])] (PStr "random")
     = Some (Raise IndexError, [(1, []); (2, [])])
  /\ (forall tie_break,
         recognized_policy [(1, [1; 2]); (2, [2; 1])] tie_break = false ->
         STV 0 [(1, [1; 2]); (2, [2; 1])] tie_break
         = Some (Raise (ValueError (InvalidTieBreak tie_break)), [(1, []); (2, [])])).
Proof.
  exact (STV_wipeout [(1, [1; 2]); (2, [2; 1])] [(1, []); (2, [])] eq_refl 0%nat).
Defined.

(** ** What a rule returns *)

Lemma resolved_In (rnd : nat) (preferences : profile) (tie_break : pyval)
    (computed : result (list Z)) (a : Z) :
  bind computed (tie_break_function rnd preferences tie_break) = Ok (Some a) ->
  exists winners, computed = Ok winners /\ In a winners.
Proof.
  destruct computed as [winners | e]; simpl; [|discriminate].
  intros H. exists winners. split; [reflexivity|].
  eapply tie_break_In; eassumption.
Qed.

(** Whenever a rule returns an alternative, the alternative is one of the
    winners the rule computed (for [dictatorship], the top of the agent's
    ranking). *)
Lemma returned_alternative_is_winner :
  (forall rnd preferences score_vector tie_break a,
      scoring_rule rnd preferences score_vector tie_break = Ok (Some a) ->
      exists winners,
        scoring_winners preferences score_vector = Ok winners /\ In a winners)
  /\ (forall rnd preferences tie_break a,
         plurality rnd preferences tie_break = Ok (Some a) ->
         exists winners, plurality_winners preferences = Ok winners /\ In a winners)
  /\ (forall rnd preferences tie_break a,
         veto rnd preferences tie_break = Ok (Some a) ->
         exists winners, veto_winners preferences = Ok winners /\ In a winners)
  /\ (forall rnd preferences tie_break a,
         borda rnd preferences tie_break = Ok (Some a) ->
         exists winners, borda_winners preferences = Ok winners /\ In a winners)
  /\ (forall rnd preferences tie_break a,
         harmonic rnd preferences tie_break = Ok (Some a) ->
         exists winners, harmonic_winners preferences = Ok winners /\ In a winners)
  /\ (forall rnd preferences tie_break a final,
         STV rnd preferences tie_break = Some (Ok (Some a), final) ->
         exists winners,
           STV_winners preferences = Some (Ok winners, final) /\ In a winners)
  /\ (forall rnd values tie_break a,
         range_voting rnd values tie_break = Ok (Some a) ->
         exists winners, range_voting_winners values = Ok winners /\ In a winners)
  /\ (forall preferences agent a,
         dictatorship preferences agent = Ok a ->
         exists ranking,
           profile_getitem preferences agent = Ok ranking
           /\ hd_error ranking = Some a).
Proof.
  repeat split; intros; try (eapply resolved_In; eassumption).
  - unfold STV in H.
    destruct (STV_winners preferences) as [[[winners | e] final'] |];
      [|discriminate | discriminate].
    injection H as H <-. exists winners. split; [reflexivity|].
    eapply tie_break_In; eassumption.
  - unfold dictatorship in H.
    destruct (contains preferences agent); simpl in H; [|discriminate].
    destruct (profile_getitem preferences agent) as [ranking | e]; simpl in H;
      [|discriminate].
    exists ranking. split; [reflexivity|].
    destruct ranking; [discriminate|]. now injection H as ->.
Qed.

(** C2: what a rule returns is to be one of the winners it computed.  On the
    profile [{1: [1, 2, 3], 2: [2, 3, 1], 3: [3, 1, 2]}] the first round of
    [STV] strikes all three alternatives; with agent 2 as the tie-break
    policy the call returns normally, and what it returns is [None], which
    is not an element of the (empty) winners list. *)
Theorem STV_returns_None_on_cycle :
  STV_winners [(1, [1; 2; 3]); (2, [2; 3; 1]); (3, [3; 1; 2])]
  = Some (Ok [], [(1, []); (2, []); (3, [])])
  /\ forall rnd,
      STV rnd [(1, [1; 2; 3]); (2, [2; 3; 1]); (3, [3; 1; 2])] (PInt 2)
      = Some (Ok None, [(1, []); (2, []); (3, [])]).
Proof.
  split; [reflexivity | intros rnd; reflexivity].
Qed.

(** ** Positional scoring *)

Lemma for_each_app {A S : Type} (body : S -> A -> result S) (l1 l2 : list A) (s : S) :
  for_each body (l1 ++ l2) s = bind (for_each body l1 s) (for_each body l2).
Proof.
  revert s. induction l1 as [|x l1 IH]; intros s; simpl; [reflexivity|].
  destruct (body s x); simpl; [apply IH | reflexivity].
Qed.

(** Nested loops are one loop over the concatenated inner lists. *)
Lemma for_each_flat {A B S : Type} (body : S -> B -> result S) (f : A -> list B)
    (l : list A) (s : S) :
  for_each (fun s x => for_each body (f x) s) l s = for_each body (flat_map f l) s.
Proof.
  revert s. induction l as [|x l IH]; intros s; simpl; [reflexivity|].
  rewrite for_each_app. destruct (for_each body (f x) s); simpl; [apply IH | reflexivity].
Qed.

Lemma for_each_map {A B S : Type} (body : S -> B -> result S) (g : A -> B)
    (l : list A) (s : S) :
  for_each body (map g l) s = for_each (fun s x => body s (g x)) l s.
Proof.
  revert s. induction l as [|x l IH]; intros s; simpl; [reflexivity|].
  destruct (body s (g x)); simpl; [apply IH | reflexivity].
Qed.

Lemma for_each_ext_in {A S : Type} (body body' : S -> A -> result S) (l : list A) (s : S) :
  (forall s x, In x l -> body s x = body' s x) ->
  for_each body l s = for_each body' l s.
Proof.
  revert s. induction l as [|x l IH]; intros s H; simpl; [reflexivity|].
  rewrite (H s x (or_introl eq_refl)).
  destruct (body' s x); simpl; [|reflexivity].
  apply IH. intros; apply H; now right.
Qed.

Lemma pysum_cons (x : Z) (l : list Z) : pysum (x :: l) = x + pysum l.
Proof.
  unfold pysum. simpl.
  assert (H : forall l a b, fold_left Z.add l (a + b) = a + fold_left Z.add l b).
  { clear. induction l as [|y l IH]; intros a b; simpl; [reflexivity|].
    now rewrite <- Z.add_assoc, IH. }
  now rewrite <- H, Z.add_0_r.
Qed.

Lemma tally_cons (a w : Z) (points : list (Z * Z)) (alt : Z) :
  tally ((a, w) :: points) alt = (if a =? alt then w else 0) + tally points alt.
Proof.
  unfold tally. simpl. destruct (a =? alt); simpl; [apply pysum_cons | reflexivity].
Qed.

Lemma tally_app (points points' : list (Z * Z)) (alt : Z) :
  tally (points ++ points') alt = tally points alt + tally points' alt.
Proof.
  induction points as [|[a w] points IH]; simpl; [reflexivity|].
  rewrite !tally_cons, IH. lia.
Qed.

Lemma tally_flat_map {A : Type} (f g : A -> list (Z * Z)) (l : list A) (alt : Z) :
  (forall x, In x l -> tally (f x) alt = tally (g x) alt) ->
  tally (flat_map f l) alt = tally (flat_map g l) alt.
Proof.
  induction l as [|x l IH]; intros H; simpl; [reflexivity|].
  rewrite !tally_app, (H x (or_introl eq_refl)), IH; [reflexivity|].
  intros; apply H; now right.
Qed.

(** A run of [scores[alt] += w] over pairs whose alternatives are all keys
    of the table adds to every entry the points of its key. *)
Lemma for_each_points (points : list (Z * Z)) (scores : dict Z) :
  NoDup (dict_keys scores) ->
  (forall aw, In aw points -> In (fst aw) (dict_keys scores)) ->
  for_each add_points points scores
  = Ok (map (fun kv => (fst kv, snd kv + tally points (fst kv))) scores).
Proof.
  revert scores. induction points as [|[a w] points IH]; intros scores Hnd Hin; simpl.
  - f_equal. rewrite <- (map_id scores) at 1. apply map_ext. intros [k v].
    unfold tally, pysum. simpl. f_equal. lia.
  - unfold add_points at 1. simpl fst. simpl snd.
    rewrite add_score_bump; [|assumption | apply (Hin (a, w)); now left]. simpl.
    rewrite IH.
    + f_equal. rewrite map_map. apply map_ext. intros [k v]. unfold bump. simpl.
      rewrite tally_cons, (Z.eqb_sym a k). destruct (k =? a); f_equal; lia.
    + now rewrite bump_keys.
    + intros aw Haw. rewrite bump_keys. apply Hin. now right.
Qed.

(** The table after the loops of a scoring rule, started from zero. *)
Lemma scores_from_zero (points : list (Z * Z)) (keys : list Z) :
  NoDup keys ->
  (forall aw, In aw points -> In (fst aw) keys) ->
  for_each add_points points (dict_from_keys 0 keys)
  = Ok (map (fun k => (k, tally points k)) keys).
Proof.
  intros Hnd Hin. rewrite dict_from_keys_NoDup by assumption.
  rewrite for_each_points.
  - now rewrite map_map.
  - unfold dict_keys. rewrite map_map. simpl. now rewrite map_id.
  - unfold dict_keys. rewrite map_map. simpl. now rewrite map_id.
Qed.

Lemma winners_of_scores (score : Z -> Z) (keys : list Z) :
  bind (pymax (dict_values (map (fun k => (k, score k)) keys)))
       (fun max_score =>
          Ok (keys_with_value (map (fun k => (k, score k)) keys) max_score))
  = winners_by score keys.
Proof.
  unfold winners_by, dict_values. rewrite map_map. simpl.
  destruct (pymax (map score keys)); simpl; [|reflexivity].
  now rewrite keys_with_value_map.
Qed.

Lemma enumerate_In {A : Type} (start : nat) (l : list A) (i : nat) (x : A) :
  In (i, x) (enumerate start l) -> (start <= i < start + length l)%nat /\ In x l.
Proof.
  unfold enumerate. intros H. split.
  - apply in_combine_l in H. apply in_seq in H. lia.
  - now apply in_combine_r in H.
Qed.

Lemma ballot_points_In (weight : nat -> Z) (pref : list Z) (aw : Z * Z) :
  In aw (ballot_points weight pref) -> In (fst aw) pref.
Proof.
  unfold ballot_points. rewrite in_map_iff. intros [[i a] [<- H]]. simpl.
  now apply enumerate_In in H.
Qed.

Lemma profile_points_In (weight : nat -> Z) (preferences : profile) (aw : Z * Z) :
  In aw (profile_points weight preferences) ->
  exists pref, In pref (dict_values preferences) /\ In (fst aw) pref.
Proof.
  unfold profile_points. rewrite in_flat_map. intros [pref [Hp H]].
  exists pref. split; [assumption | now apply ballot_points_In in H].
Qed.

Lemma getitem_nth {A : Type} (l : list A) (i : nat) (d : A) :
  (i < length l)%nat -> getitem l i = Ok (nth i l d).
Proof.
  intros H. unfold getitem.
  destruct (nth_error l i) eqn:E.
  - now rewrite (nth_error_nth l i d E).
  - apply nth_error_None in E. lia.
Qed.

Section ScoreTables.

Variables (preferences : profile) (first : list Z).
Hypothesis first_ranking : dict_get preferences 1 = Some first.

(** [scoring_rule] on a profile whose rankings are no longer than the score
    vector and hold alternatives of [1..m] only. *)
Lemma scoring_winners_points (score_vector : list Z) :
  length score_vector = length first ->
  (forall pref, In pref (dict_values preferences) ->
                (length pref <= length score_vector)%nat
                /\ incl pref (range 1 (length first))) ->
  scoring_winners preferences score_vector
  = winners_by (tally (profile_points (fun i => nth i score_vector 0) preferences))
               (range 1 (length first)).
Proof.
  intros Hlen Hprefs. unfold scoring_winners, dict_getitem.
  rewrite first_ranking. simpl. rewrite Hlen, Nat.eqb_refl. simpl.
  rewrite for_each_ext_in
    with (body' := fun scores pref =>
                     for_each add_points
                              (ballot_points (fun i => nth i score_vector 0) pref)
                              scores).
  - rewrite for_each_flat.
    fold (profile_points (fun i => nth i score_vector 0) preferences).
    rewrite scores_from_zero.
    + simpl. apply winners_of_scores.
    + apply range_NoDup.
    + intros aw Haw. apply profile_points_In in Haw.
      destruct Haw as [pref [Hp Ha]]. now apply (Hprefs pref Hp).
  - intros scores pref Hp. unfold ballot_points. rewrite for_each_map.
    apply for_each_ext_in. intros s [i a] Hia. unfold add_points. simpl.
    apply enumerate_In in Hia. destruct (Hprefs pref Hp) as [Hl _].
    rewrite (getitem_nth score_vector i 0) by lia. reflexivity.
Qed.

(** [borda] on a profile whose rankings hold alternatives of agent 1's
    ranking only. *)
Lemma borda_winners_points :
  NoDup first ->
  (forall pref, In pref (dict_values preferences) -> incl pref first) ->
  borda_winners preferences
  = winners_by (tally (profile_points
                         (fun i => Z.of_nat (length first) - Z.of_nat i)
                         preferences))
               first.
Proof.
  intros Hnd Hprefs. unfold borda_winners, dict_getitem.
  rewrite first_ranking. simpl.
  rewrite for_each_ext_in
    with (body' := fun scores pref =>
                     for_each add_points
                              (ballot_points
                                 (fun i => Z.of_nat (length first) - Z.of_nat i) pref)
                              scores).
  - rewrite for_each_flat.
    fold (profile_points (fun i => Z.of_nat (length first) - Z.of_nat i) preferences).
    rewrite scores_from_zero.
    + simpl. apply winners_of_scores.
    + assumption.
    + intros aw Haw. apply profile_points_In in Haw.
      destruct Haw as [pref [Hp Ha]]. now apply (Hprefs pref Hp).
  - intros scores pref Hp. unfold ballot_points. now rewrite for_each_map.
Qed.

(** [veto] on such a profile. *)
Lemma veto_winners_points :
  NoDup first ->
  (forall pref, In pref (dict_values preferences) -> incl pref first) ->
  veto_winners preferences
  = winners_by (tally (flat_map (fun pref => map (fun a => (a, 1)) (removelast pref))
                                (dict_values preferences)))
               first.
Proof.
  intros Hnd Hprefs. unfold veto_winners, dict_getitem.
  rewrite first_ranking. simpl.
  rewrite for_each_ext_in
    with (body' := fun scores pref =>
                     for_each add_points
                              (map (fun a => (a, 1)) (removelast pref)) scores).
  - rewrite for_each_flat. rewrite scores_from_zero.
    + simpl. apply winners_of_scores.
    + assumption.
    + intros aw Haw. apply in_flat_map in Haw. destruct Haw as [pref [Hp Ha]].
      apply in_map_iff in Ha. destruct Ha as [a [<- Ha]]. simpl.
      apply (Hprefs pref Hp).
      destruct pref as [|x pref']; [contradiction|].
      rewrite (@app_removelast_last _ (x :: pref') 0) by discriminate.
      apply in_or_app. now left.
  - intros scores pref Hp. now rewrite for_each_map.
Qed.

End ScoreTables.

(** ** Winners up to the order of the list *)

Lemma pymax_perm (l l' : list Z) : Permutation l l' -> pymax l = pymax l'.
Proof.
  intros H. destruct l as [|x l].
  - apply Permutation_nil in H. now subst.
  - assert (Hne : l' <> []).
    { intros ->. apply Permutation_sym, Permutation_nil in H. discriminate. }
    destruct (pymax_spec (x :: l)) as [mx [Hmx [Hin Hall]]]; [discriminate|].
    destruct (pymax_spec l' Hne) as [mx' [Hmx' [Hin' Hall']]].
    rewrite Hmx, Hmx'. f_equal. rewrite Forall_forall in Hall, Hall'.
    apply Z.le_antisymm.
    + apply Hall'. now apply (Permutation_in _ H).
    + apply Hall. now apply (Permutation_in _ (Permutation_sym H)).
Qed.

Lemma pymin_perm (l l' : list Z) : Permutation l l' -> pymin l = pymin l'.
Proof.
  intros H. destruct l as [|x l].
  - apply Permutation_nil in H. now subst.
  - assert (Hne : l' <> []).
    { intros ->. apply Permutation_sym, Permutation_nil in H. discriminate. }
    destruct (pymin_spec (x :: l)) as [mn [Hmn [Hin Hall]]]; [discriminate|].
    destruct (pymin_spec l' Hne) as [mn' [Hmn' [Hin' Hall']]].
    rewrite Hmn, Hmn'. f_equal. rewrite Forall_forall in Hall, Hall'.
    apply Z.le_antisymm.
    + apply Hall. now apply (Permutation_in _ (Permutation_sym H)).
    + apply Hall'. now apply (Permutation_in _ H).
Qed.

Lemma mem_perm (a : Z) (l l' : list Z) : Permutation l l' -> mem a l = mem a l'.
Proof.
  intros H. destruct (mem a l) eqn:E; symmetry.
  - apply mem_In. apply mem_In in E. now apply (Permutation_in _ H).
  - apply mem_false. apply mem_false in E. intros Hin. apply E.
    now apply (Permutation_in _ (Permutation_sym H)).
Qed.

Lemma find_ext {A : Type} (f g : A -> bool) (l : list A) :
  (forall x, f x = g x) -> find f l = find g l.
Proof.
  intros H. induction l as [|x l IH]; simpl; [reflexivity|].
  rewrite H, IH. reflexivity.
Qed.

(** Under every policy but ["random"] the resolver does not look at the
    order of the winners. *)
Lemma tie_break_perm (rnd : nat) (preferences : profile) (tie_break : pyval)
    (winners winners' : list Z) :
  Permutation winners winners' ->
  pyval_eqb tie_break (PStr "random") = false ->
  tie_break_function rnd preferences tie_break winners
  = tie_break_function rnd preferences tie_break winners'.
Proof.
  intros Hperm Hrandom. unfold tie_break_function.
  rewrite <- (Permutation_length Hperm), Hrandom.
  destruct (length winners =? 1)%nat eqn:Hlen.
  { apply Nat.eqb_eq in Hlen. destruct winners as [|w [|w2 ws]]; try discriminate.
    apply Permutation_length_1_inv in Hperm. now subst. }
  rewrite (pymax_perm _ _ Hperm), (pymin_perm _ _ Hperm).
  destruct (pyval_eqb tie_break (PStr "max")); [reflexivity|].
  destruct (pyval_eqb tie_break (PStr "min")); [reflexivity|].
  destruct (contains preferences tie_break); [|reflexivity].
  destruct (profile_getitem preferences tie_break); simpl; [|reflexivity].
  f_equal. apply find_ext. intros alt. now apply mem_perm.
Qed.

Lemma same_winners_resolved (rnd : nat) (preferences : profile) (tie_break : pyval)
    (r r' : result (list Z)) :
  same_winners r r' ->
  pyval_eqb tie_break (PStr "random") = false ->
  bind r (tie_break_function rnd preferences tie_break)
  = bind r' (tie_break_function rnd preferences tie_break).
Proof.
  destruct r as [w | e], r' as [w' | e']; simpl; intros H Hrandom;
    try contradiction.
  - now apply tie_break_perm.
  - now subst.
Qed.

Lemma winners_by_ext (score score' : Z -> Z) (keys : list Z) :
  (forall k, In k keys -> score k = score' k) ->
  winners_by score keys = winners_by score' keys.
Proof.
  intros H. unfold winners_by. rewrite (map_ext_in score score' keys H).
  destruct (pymax (map score' keys)); simpl; [|reflexivity].
  f_equal. apply filter_ext_in. intros k Hk. now rewrite (H k Hk).
Qed.

Lemma winners_by_perm (score : Z -> Z) (keys keys' : list Z) :
  Permutation keys keys' ->
  same_winners (winners_by score keys) (winners_by score keys').
Proof.
  intros H. unfold winners_by.
  rewrite (pymax_perm (map score keys) (map score keys')) by now apply Permutation_map.
  destruct (pymax (map score keys')); simpl; [|reflexivity].
  now apply filter_perm.
Qed.

Lemma winners_by_nonempty (score : Z -> Z) (keys : list Z) :
  keys <> [] ->
  exists winners, winners_by score keys = Ok winners /\ winners <> [].
Proof.
  intros Hne. unfold winners_by.
  destruct (pymax_spec (map score keys)) as [mx [Hmx [Hin _]]].
  { destruct keys; [congruence | discriminate]. }
  rewrite Hmx. simpl. eexists. split; [reflexivity|].
  apply in_map_iff in Hin. destruct Hin as [k [Hk Hin]].
  intros Hnil. assert (H : In k (filter (fun k => score k =? mx) keys)).
  { apply filter_In. split; [assumption | now apply Z.eqb_eq]. }
  rewrite Hnil in H. contradiction.
Qed.

(** ** The three score vectors *)

Lemma tally_nil (alt : Z) : tally [] alt = 0.
Proof. reflexivity. Qed.

Lemma borda_vector_length (m : nat) : length (borda_vector m) = m.
Proof. unfold borda_vector. now rewrite length_map, length_seq. Qed.

Lemma veto_vector_length (m : nat) : length (veto_vector m) = m.
Proof.
  destruct m as [|k]; simpl; [reflexivity|].
  rewrite length_app, repeat_length. simpl. lia.
Qed.

Lemma plurality_vector_length (m : nat) : length (plurality_vector m) = m.
Proof. destruct m as [|k]; simpl; [reflexivity|]. now rewrite repeat_length. Qed.

Lemma borda_vector_nth (m i : nat) :
  (i < m)%nat -> nth i (borda_vector m) 0 = Z.of_nat m - Z.of_nat i.
Proof.
  intros H. unfold borda_vector.
  rewrite (nth_indep _ 0 (Z.of_nat m - Z.of_nat 0))
    by (rewrite length_map, length_seq; lia).
  rewrite (map_nth (fun i => Z.of_nat m - Z.of_nat i)), seq_nth by lia.
  reflexivity.
Qed.

(** Reading the weight of every position off a vector is pairing the
    ranking with the vector. *)
Lemma ballot_points_combine (score_vector pref : list Z) :
  (length pref <= length score_vector)%nat ->
  ballot_points (fun i => nth i score_vector 0) pref = combine pref score_vector.
Proof.
  unfold ballot_points, enumerate.
  assert (H : forall pref sv s,
             (length pref <= length sv)%nat ->
             map (fun ia : nat * Z => (snd ia, nth (fst ia - s) sv 0))
                 (combine (seq s (length pref)) pref)
             = combine pref sv).
  { clear. induction pref as [|a pref IH]; intros sv s Hlen; simpl; [reflexivity|].
    destruct sv as [|w sv]; simpl in Hlen; [lia|].
    rewrite Nat.sub_diag. simpl. f_equal.
    rewrite <- (IH sv (S s)) by lia.
    apply map_ext_in. intros [i b] Hib. simpl.
    apply in_combine_l, in_seq in Hib.
    replace (i - s)%nat with (S (i - S s)) by lia. reflexivity. }
  intros Hlen. rewrite <- (H pref score_vector 0%nat Hlen).
  apply map_ext. intros [i a]. simpl. now rewrite Nat.sub_0_r.
Qed.

Lemma borda_ballot (m : nat) (pref : list Z) :
  (length pref <= m)%nat ->
  ballot_points (fun i => nth i (borda_vector m) 0) pref
  = ballot_points (fun i => Z.of_nat m - Z.of_nat i) pref.
Proof.
  intros Hlen. unfold ballot_points. apply map_ext_in. intros [i a] Hia. simpl.
  apply enumerate_In in Hia. rewrite borda_vector_nth by lia. reflexivity.
Qed.

Lemma veto_ballot (k : nat) (pref : list Z) (alt : Z) :
  length pref = S k ->
  tally (combine pref (veto_vector (S k))) alt
  = tally (map (fun a => (a, 1)) (removelast pref)) alt.
Proof.
  revert pref. induction k as [|k IH]; intros pref Hlen.
  - destruct pref as [|x [|y pref]]; try discriminate. simpl.
    rewrite tally_cons, tally_nil. destruct (x =? alt); reflexivity.
  - destruct pref as [|x pref]; [discriminate|].
    injection Hlen as Hlen.
    change (veto_vector (S (S k))) with (1 :: veto_vector (S k)).
    destruct pref as [|y pref]; [discriminate|].
    change (removelast (x :: y :: pref)) with (x :: removelast (y :: pref)).
    simpl combine. simpl map. rewrite !tally_cons.
    f_equal. apply (IH (y :: pref) Hlen).
Qed.

Lemma tally_zero_weights (pref : list Z) (k : nat) (alt : Z) :
  tally (combine pref (repeat 0 k)) alt = 0.
Proof.
  revert k. induction pref as [|x pref IH]; intros k; [reflexivity|].
  destruct k as [|k]; [reflexivity|]. simpl. rewrite tally_cons, IH.
  destruct (x =? alt); reflexivity.
Qed.

Lemma plurality_ballot (k : nat) (pref : list Z) (alt : Z) :
  pref <> [] ->
  tally (combine pref (plurality_vector (S k))) alt
  = if is_top alt pref then 1 else 0.
Proof.
  destruct pref as [|top pref]; [congruence | intros _]. simpl.
  rewrite tally_cons, tally_zero_weights. destruct (top =? alt); reflexivity.
Qed.

Lemma plurality_tally (m : nat) (prefs : list (list Z)) (alt : Z) :
  (0 < m)%nat ->
  Forall (fun pref => length pref = m) prefs ->
  tally (flat_map (ballot_points (fun i => nth i (plurality_vector m) 0)) prefs) alt
  = count_tops prefs alt.
Proof.
  intros Hm. induction 1 as [|pref prefs Hlen Hall IH]; [reflexivity|].
  simpl. rewrite tally_app, IH, count_tops_cons. f_equal.
  rewrite ballot_points_combine by (rewrite plurality_vector_length; lia).
  destruct m as [|k]; [lia|]. apply plurality_ballot.
  destruct pref; [discriminate | discriminate].
Qed.

(** ** [scoring_rule] against [borda], [veto] and [plurality] *)

Section FullProfile.

Variables (preferences : profile) (first : list Z).
Hypothesis first_ranking : dict_get preferences 1 = Some first.
Hypothesis full : full_profile preferences (length first).

Lemma full_profile_pref (pref : list Z) :
  In pref (dict_values preferences) ->
  Permutation pref (range 1 (length first)).
Proof. unfold full_profile in full. rewrite Forall_forall in full. apply full. Qed.

Lemma full_profile_first : Permutation first (range 1 (length first)).
Proof.
  apply full_profile_pref. apply dict_get_In in first_ranking.
  change first with (snd (1, first)). now apply in_map.
Qed.

Lemma full_profile_length (pref : list Z) :
  In pref (dict_values preferences) -> length pref = length first.
Proof.
  intros H. rewrite (Permutation_length (full_profile_pref pref H)).
  apply range_length.
Qed.

Lemma full_profile_NoDup : NoDup first.
Proof.
  apply (Permutation_NoDup (Permutation_sym full_profile_first)), range_NoDup.
Qed.

Lemma full_profile_incl_first (pref : list Z) :
  In pref (dict_values preferences) -> incl pref first.
Proof.
  intros H a Ha. apply (Permutation_in _ (Permutation_sym full_profile_first)).
  now apply (Permutation_in _ (full_profile_pref pref H)).
Qed.

Lemma full_profile_scoring (score_vector : list Z) :
  length score_vector = length first ->
  scoring_winners preferences score_vector
  = winners_by (tally (profile_points (fun i => nth i score_vector 0) preferences))
               (range 1 (length first)).
Proof.
  intros Hlen. apply scoring_winners_points; try assumption.
  intros pref Hp. split.
  - rewrite Hlen, (full_profile_length pref Hp). lia.
  - intros a Ha. now apply (Permutation_in _ (full_profile_pref pref Hp)).
Qed.

Lemma scoring_borda_winners :
  same_winners (scoring_winners preferences (borda_vector (length first)))
               (borda_winners preferences).
Proof.
  rewrite full_profile_scoring by apply borda_vector_length.
  rewrite (borda_winners_points preferences first first_ranking full_profile_NoDup
             full_profile_incl_first).
  rewrite winners_by_ext
    with (score' := tally (profile_points
                             (fun i => Z.of_nat (length first) - Z.of_nat i)
                             preferences)).
  - apply winners_by_perm, Permutation_sym, full_profile_first.
  - intros k _. apply tally_flat_map. intros pref Hp.
    rewrite borda_ballot; [reflexivity|].
    rewrite (full_profile_length pref Hp). lia.
Qed.

Lemma scoring_veto_winners :
  same_winners (scoring_winners preferences (veto_vector (length first)))
               (veto_winners preferences).
Proof.
  rewrite full_profile_scoring by apply veto_vector_length.
  rewrite (veto_winners_points preferences first first_ranking full_profile_NoDup
             full_profile_incl_first).
  rewrite winners_by_ext
    with (score' := tally (flat_map (fun pref => map (fun a => (a, 1)) (removelast pref))
                                    (dict_values preferences))).
  - apply winners_by_perm, Permutation_sym, full_profile_first.
  - intros k _. apply tally_flat_map. intros pref Hp.
    pose proof (full_profile_length pref Hp) as Hlen.
    rewrite ballot_points_combine by (rewrite veto_vector_length; lia).
    destruct (length first) as [|m].
    + destruct pref; [reflexivity | discriminate].
    + now apply veto_ballot.
Qed.

End FullProfile.

(** C4, as stated, fails.  On the profile [{1: [2], 2: [2]}] that [STV]
    leaves of [{1: [2, 1], 2: [2, 1]}], [borda] and [veto] return 2 while
    [scoring_rule] raises [KeyError]; and on [{1: [2, 1], 2: [1, 2]}], where
    both alternatives tie, [scoring_rule] lists the winners as [[1, 2]] and
    [borda] and [veto] as [[2, 1]], so that under ["random"] the same draw
    always picks different alternatives. *)
Lemma scoring_rule_differs_from_borda_and_veto :
  STV 0 [(1, [2; 1]); (2, [2; 1])] (PStr "max")
  = Some (Ok (Some 2), [(1, [2]); (2, [2])])
  /\ borda 0 [(1, [2]); (2, [2])] (PStr "max") = Ok (Some 2)
  /\ scoring_rule 0 [(1, [2]); (2, [2])] (borda_vector 1) (PStr "max")
     = Raise (KeyError (PInt 2))
  /\ scoring_rule 0 [(1, [2]); (2, [2])] (borda_vector 2) (PStr "max")
     = Raise (ValueError ScoreVectorLength)
  /\ veto 0 [(1, [2]); (2, [2])] (PStr "max") = Ok (Some 2)
  /\ scoring_rule 0 [(1, [2]); (2, [2])] (veto_vector 1) (PStr "max")
     = Raise (KeyError (PInt 2))
  /\ (forall rnd,
         scoring_rule rnd [(1, [2; 1]); (2, [1; 2])] (borda_vector 2) (PStr "random")
         <> borda rnd [(1, [2; 1]); (2, [1; 2])] (PStr "random"))
  /\ (forall rnd,
         scoring_rule rnd [(1, [2; 1]); (2, [1; 2])] (veto_vector 2) (PStr "random")
         <> veto rnd [(1, [2; 1]); (2, [1; 2])] (PStr "random")).
Proof.
  repeat split; intros rnd.
  - unfold scoring_rule, borda.
    change (scoring_winners [(1, [2; 1]); (2, [1; 2])] (borda_vector 2))
      with (@Ok (list Z) [1; 2]).
    change (borda_winners [(1, [2; 1]); (2, [1; 2])]) with (@Ok (list Z) [2; 1]).
    unfold bind, tie_break_function, random_choice, getitem, bind.
    cbn [length Nat.eqb pyval_eqb String.eqb Ascii.eqb Bool.eqb].
    pose proof (Nat.mod_upper_bound rnd 2) as Hlt.
    destruct (rnd mod 2)%nat as [|[|k]]; simpl; [discriminate | discriminate | lia].
  - unfold scoring_rule, veto.
    change (scoring_winners [(1, [2; 1]); (2, [1; 2])] (veto_vector 2))
      with (@Ok (list Z) [1; 2]).
    change (veto_winners [(1, [2; 1]); (2, [1; 2])]) with (@Ok (list Z) [2; 1]).
    unfold bind, tie_break_function, random_choice, getitem, bind.
    cbn [length Nat.eqb pyval_eqb String.eqb Ascii.eqb Bool.eqb].
    pose proof (Nat.mod_upper_bound rnd 2) as Hlt.
    destruct (rnd mod 2)%nat as [|[|k]]; simpl; [discriminate | discriminate | lia].
Qed.

(** C4 (amended): on a profile in which every agent ranks all of the
    alternatives [1..m], [m] being the length of agent 1's ranking,
    [scoring_rule] with [[m, m-1, ..., 1]] computes the winners of [borda] and
    with [[1, ..., 1, 0]] the winners of [veto], up to the order of the
    list, and returns what [borda], respectively [veto], returns under every
    tie-break policy other than ["random"]. *)
Theorem scoring_rule_matches_borda_and_veto (preferences : profile) (first : list Z) :
  dict_get preferences 1 = Some first ->
  full_profile preferences (length first) ->
  same_winners (scoring_winners preferences (borda_vector (length first)))
               (borda_winners preferences)
  /\ same_winners (scoring_winners preferences (veto_vector (length first)))
                  (veto_winners preferences)
  /\ (forall rnd tie_break,
         pyval_eqb tie_break (PStr "random") = false ->
         scoring_rule rnd preferences (borda_vector (length first)) tie_break
         = borda rnd preferences tie_break
         /\ scoring_rule rnd preferences (veto_vector (length first)) tie_break
            = veto rnd preferences tie_break).
Proof.
  intros Hfirst Hfull.
  pose proof (scoring_borda_winners preferences first Hfirst Hfull) as Hb.
  pose proof (scoring_veto_winners preferences first Hfirst Hfull) as Hv.
  repeat split; try assumption.
  - unfold scoring_rule, borda. now apply same_winners_resolved.
  - unfold scoring_rule, veto. now apply same_winners_resolved.
Qed.

Lemma scoring_rule_matches_borda_and_veto_witness :
  same_winners (scoring_winners [(1, [2; 1; 3]); (2, [1; 2; 3]); (3, [1; 3; 2])]
                                (borda_vector 3))
               (borda_winners [(1, [2; 1; 3]); (2, [1; 2; 3]); (3, [1; 3; 2])])
  /\ same_winners (scoring_winners [(1, [2; 1; 3]); (2, [1; 2; 3]); (3, [1; 3; 2])]
                                   (veto_vector 3))
                  (veto_winners [(1, [2; 1; 3]); (2, [1; 2; 3]); (3, [1; 3; 2])])
  /\ (forall rnd tie_break,
         pyval_eqb tie_break (PStr "random") = false ->
         scoring_rule rnd [(1, [2; 1; 3]); (2, [1; 2; 3]); (3, [1; 3; 2])]
                      (borda_vector 3) tie_break
         = borda rnd [(1, [2; 1; 3]); (2, [1; 2; 3]); (3, [1; 3; 2])] tie_break
         /\ scoring_rule rnd [(1, [2; 1; 3]); (2, [1; 2; 3]); (3, [1; 3; 2])]
                         (veto_vector 3) tie_break
            = veto rnd [(1, [2; 1; 3]); (2, [1; 2; 3]); (3, [1; 3; 2])] tie_break).
Proof.
  apply (scoring_rule_matches_borda_and_veto
           [(1, [2; 1; 3]); (2, [1; 2; 3]); (3, [1; 3; 2])] [2; 1; 3] eq_refl).
  change (Forall (fun pref => Permutation pref [1; 2; 3])
                 [[2; 1; 3]; [1; 2; 3]; [1; 3; 2]]).
  repeat apply Forall_cons; [apply perm_swap | apply Permutation_refl
                             | apply perm_skip, perm_swap | apply Forall_nil].
Defined.

(** ** Plurality *)

Lemma dict_set_get {V : Type} (d : dict V) (k k' : Z) (v : V) :
  dict_get (dict_set d k v) k' = if k' =? k then Some v else dict_get d k'.
Proof.
  induction d as [|[k0 v0] d IH]; simpl.
  - destruct (k' =? k); reflexivity.
  - destruct (Z.eqb_spec k k0) as [-> | Hne]; simpl.
    + destruct (k' =? k0); reflexivity.
    + rewrite IH. destruct (Z.eqb_spec k' k0) as [-> | Hne'];
        [|reflexivity].
      apply Z.eqb_neq in Hne. now rewrite Z.eqb_sym, Hne.
Qed.

Lemma dict_set_NoDup {V : Type} (d : dict V) (k : Z) (v : V) :
  NoDup (dict_keys d) -> NoDup (dict_keys (dict_set d k v)).
Proof.
  induction d as [|[k0 v0] d IH]; simpl; intros Hnd.
  - repeat constructor. intros [].
  - inversion Hnd as [|? ? Hk Hnd']; subst.
    destruct (Z.eqb_spec k k0) as [-> | Hne]; simpl; [now constructor|].
    constructor; [|now apply IH].
    intros Hin. apply Hk. unfold dict_keys in *.
    apply in_map_iff in Hin. destruct Hin as [[k1 v1] [Heq Hin]]. simpl in Heq. subst k1.
    assert (Hget : dict_get (dict_set d k v) k0 <> None).
    { intros Hnone. apply dict_get_None in Hnone. apply Hnone.
      unfold dict_keys. apply in_map_iff. now exists (k0, v1). }
    rewrite dict_set_get in Hget. apply Z.eqb_neq in Hne.
    rewrite Z.eqb_sym, Hne in Hget.
    destruct (dict_get d k0) eqn:E; [|congruence].
    now apply dict_get_key in E.
Qed.

(** A table without repeated keys is its keys with their values. *)
Lemma dict_as_map (f : Z -> Z) (d : dict Z) :
  NoDup (dict_keys d) ->
  (forall k, In k (dict_keys d) -> dict_get d k = Some (f k)) ->
  d = map (fun k => (k, f k)) (dict_keys d).
Proof.
  induction d as [|[k v] d IH]; simpl; intros Hnd Hget; [reflexivity|].
  inversion Hnd as [|? ? Hk Hnd']; subst.
  pose proof (Hget k (or_introl eq_refl)) as Hkv. rewrite Z.eqb_refl in Hkv.
  injection Hkv as ->. f_equal. apply IH; [assumption|].
  intros k' Hk'. specialize (Hget k' (or_intror Hk')).
  destruct (Z.eqb_spec k' k) as [Heq | Hne]; [|assumption].
  subst k'. contradiction.
Qed.

Lemma count_tops_app (l1 l2 : list (list Z)) (alt : Z) :
  count_tops (l1 ++ l2) alt = count_tops l1 alt + count_tops l2 alt.
Proof.
  unfold count_tops. rewrite filter_app, length_app. lia.
Qed.

Lemma count_tops_nonneg (prefs : list (list Z)) (alt : Z) : 0 <= count_tops prefs alt.
Proof. unfold count_tops. lia. Qed.

Lemma count_tops_positive (prefs : list (list Z)) (alt : Z) :
  0 < count_tops prefs alt
  <-> exists pref, In pref prefs /\ hd_error pref = Some alt.
Proof.
  unfold count_tops. split.
  - intros H. destruct (filter (is_top alt) prefs) as [|pref l] eqn:E;
      [simpl in H; lia|].
    assert (Hin : In pref (filter (is_top alt) prefs)) by (rewrite E; now left).
    apply filter_In in Hin. destruct Hin as [Hin Htop]. exists pref.
    split; [assumption|]. destruct pref as [|top pref']; [discriminate|].
    simpl in *. apply Z.eqb_eq in Htop. now subst.
  - intros [pref [Hin Hhd]].
    assert (Hf : In pref (filter (is_top alt) prefs)).
    { apply filter_In. split; [assumption|].
      destruct pref as [|top pref']; [discriminate|]. simpl in *.
      injection Hhd as ->. apply Z.eqb_refl. }
    destruct (filter (is_top alt) prefs); [contradiction | simpl; lia].
Qed.

(** The loop of [plurality]: once it has seen the rankings [done], the
    table holds exactly the alternatives that head one of them, each with
    the number of rankings it heads. *)
Lemma plurality_loop (prefs : list (list Z)) :
  forall (done : list (list Z)) (top_counts : dict Z),
    Forall (fun pref => pref <> []) prefs ->
    NoDup (dict_keys top_counts) ->
    (forall k, dict_get top_counts k
               = if 0 <? count_tops done k then Some (count_tops done k) else None) ->
    exists final,
      for_each (fun top_counts pref =>
                  top <- getitem pref 0 ;;
                  Ok (dict_set top_counts top
                               (dict_get_default top_counts top 0 + 1)))
               prefs top_counts = Ok final
      /\ NoDup (dict_keys final)
      /\ (forall k, dict_get final k
                    = if 0 <? count_tops (done ++ prefs) k
                      then Some (count_tops (done ++ prefs) k) else None).
Proof.
  induction prefs as [|pref prefs IH]; intros done top_counts Hne Hnd Hget.
  - exists top_counts. rewrite app_nil_r. repeat split; assumption.
  - inversion Hne as [|? ? Hpref Hne']; subst.
    destruct pref as [|top rest]; [congruence|]. simpl.
    destruct (IH (done ++ [top :: rest])
                 (dict_set top_counts top (dict_get_default top_counts top 0 + 1)))
      as [final [Hloop [Hnd' Hget']]].
    + assumption.
    + now apply dict_set_NoDup.
    + intros k. rewrite dict_set_get, count_tops_app, count_tops_cons.
      change (count_tops [] k) with 0. cbn [is_top]. rewrite (Z.eqb_sym k top).
      unfold dict_get_default. rewrite !Hget.
      pose proof (count_tops_nonneg done k) as Hk.
      destruct (Z.eqb_spec top k) as [-> | Hneq].
      * destruct (Z.ltb_spec 0 (count_tops done k));
          destruct (Z.ltb_spec 0 (count_tops done k + (1 + 0)));
          try lia; f_equal; lia.
      * change (0 + 0) with 0. rewrite Z.add_0_r. reflexivity.
    + exists final. rewrite <- app_assoc in Hget'. auto.
Qed.

Lemma plurality_winners_tops (preferences : profile) :
  Forall (fun pref => pref <> []) (dict_values preferences) ->
  exists tops,
    NoDup tops
    /\ (forall k, In k tops <-> top_ranked preferences k)
    /\ plurality_winners preferences = winners_by (top_count preferences) tops.
Proof.
  intros Hne.
  destruct (plurality_loop (dict_values preferences) [] [] Hne)
    as [final [Hloop [Hnd Hget]]].
  { constructor. }
  { intros k. reflexivity. }
  simpl in Hget.
  assert (Hkeys : forall k, In k (dict_keys final)
                            <-> 0 < count_tops (dict_values preferences) k).
  { intros k. specialize (Hget k). split.
    - intros Hin.
      destruct (Z.ltb_spec 0 (count_tops (dict_values preferences) k));
        [assumption|].
      apply dict_get_None in Hget. contradiction.
    - intros Hpos. apply Z.ltb_lt in Hpos. rewrite Hpos in Hget.
      now apply dict_get_key in Hget. }
  exists (dict_keys final). repeat split.
  - assumption.
  - intros Hin. apply (count_tops_positive (dict_values preferences) k).
    now apply Hkeys.
  - intros Hin. apply Hkeys.
    now apply (count_tops_positive (dict_values preferences) k).
  - unfold plurality_winners. rewrite Hloop. simpl.
    assert (Hmap : final = map (fun k => (k, top_count preferences k))
                               (dict_keys final)).
    { apply dict_as_map; [assumption|].
      intros k Hk. rewrite Hget. apply Hkeys in Hk. apply Z.ltb_lt in Hk.
      now rewrite Hk. }
    set (tops := dict_keys final) in *. clearbody tops. subst final.
    apply winners_of_scores.
Qed.

(** C5: on a profile whose agents all rank the alternatives agent 1 ranks,
    and in which every alternative of [1..m] is at the top of some agent's
    ranking, [scoring_rule] with [[1, 0, ..., 0]] and [plurality] both compute
    a winners list, and the two lists hold the same alternatives. *)
Theorem scoring_plurality_same_winners (preferences : profile) (first : list Z) :
  dict_get preferences 1 = Some first ->
  first <> [] ->
  common_alternatives preferences first ->
  (forall alt, In alt (range 1 (length first)) -> top_ranked preferences alt) ->
  exists by_scores by_tops,
    scoring_winners preferences (plurality_vector (length first)) = Ok by_scores
    /\ plurality_winners preferences = Ok by_tops
    /\ Permutation by_scores by_tops.
Proof.
  intros Hfirst Hne Hcommon Htop.
  unfold common_alternatives in Hcommon. rewrite Forall_forall in Hcommon.
  assert (Hperm : Permutation (range 1 (length first)) first).
  { apply NoDup_Permutation_bis.
    - apply range_NoDup.
    - rewrite range_length. lia.
    - intros a Ha. destruct (Htop a Ha) as [pref [Hp Hhd]].
      apply (Permutation_in _ (Hcommon pref Hp)).
      destruct pref as [|top rest]; [discriminate|].
      injection Hhd as ->. now left. }
  assert (Hfull : full_profile preferences (length first)).
  { apply Forall_forall. intros pref Hp.
    rewrite (Hcommon pref Hp). now apply Permutation_sym. }
  assert (Hm : (0 < length first)%nat).
  { destruct first; [congruence | simpl; lia]. }
  destruct (plurality_winners_tops preferences) as [tops [Hnd [Htops Hplur]]].
  { apply Forall_forall. intros pref Hp ->.
    apply Hcommon, Permutation_nil in Hp. congruence. }
  assert (Hsame : same_winners
                    (scoring_winners preferences (plurality_vector (length first)))
                    (plurality_winners preferences)).
  { rewrite (full_profile_scoring preferences first Hfirst Hfull)
      by apply plurality_vector_length.
    rewrite Hplur.
    rewrite winners_by_ext with (score' := top_count preferences).
    - apply winners_by_perm. apply NoDup_Permutation; [apply range_NoDup | assumption|].
      intros k. rewrite Htops. split; [apply Htop|].
      intros [pref [Hp Hhd]].
      apply (Permutation_in _ (full_profile_pref preferences first Hfull pref Hp)).
      destruct pref as [|top rest]; [discriminate|].
      injection Hhd as ->. now left.
    - intros k _. unfold profile_points, top_count.
      apply plurality_tally; [assumption|].
      apply Forall_forall. intros pref Hp.
      apply (full_profile_length preferences first Hfull pref Hp). }
  rewrite (full_profile_scoring preferences first Hfirst Hfull) in *
    by apply plurality_vector_length.
  destruct (winners_by_nonempty
              (tally (profile_points
                        (fun i => nth i (plurality_vector (length first)) 0)
                        preferences))
              (range 1 (length first))) as [by_scores [Hs _]].
  { intros Hnil. apply (f_equal (@length Z)) in Hnil.
    rewrite range_length in Hnil. simpl in Hnil. lia. }
  rewrite Hs in *. destruct (plurality_winners preferences) as [by_tops | e];
    [|contradiction].
  exists by_scores, by_tops. repeat split. exact Hsame.
Qed.

Lemma scoring_plurality_same_winners_witness :
  exists by_scores by_tops,
    scoring_winners [(1, [1; 2; 3]); (2, [2; 3; 1]); (3, [3; 1; 2]); (4, [1; 3; 2])]
                    (plurality_vector 3) = Ok by_scores
    /\ plurality_winners [(1, [1; 2; 3]); (2, [2; 3; 1]); (3, [3; 1; 2]); (4, [1; 3; 2])]
       = Ok by_tops
    /\ Permutation by_scores by_tops.
Proof.
  apply (scoring_plurality_same_winners
           [(1, [1; 2; 3]); (2, [2; 3; 1]); (3, [3; 1; 2]); (4, [1; 3; 2])]
           [1; 2; 3] eq_refl).
  - discriminate.
  - repeat apply Forall_cons; [apply Permutation_refl | | | | apply Forall_nil].
    + apply Permutation_sym, (Permutation_cons_app [2; 3] []), Permutation_refl.
    + apply (Permutation_cons_app [1; 2] []), Permutation_refl.
    + apply perm_skip, perm_swap.
  - intros alt Halt. change (range 1 (length [1; 2; 3])) with [1; 2; 3] in Halt.
    destruct Halt as [<- | [<- | [<- | []]]].
    + exists [1; 2; 3]. split; [simpl; auto | reflexivity].
    + exists [2; 3; 1]. split; [simpl; auto | reflexivity].
    + exists [3; 1; 2]. split; [simpl; auto | reflexivity].
Defined.

(** ** The order in which the live set of [STV] is iterated

    CPython iterates a [set] in an order of its own.  The embedding keeps
    the live set as a list; the lemmas below show that listing it in another
    order changes neither the profile a round leaves, nor the number of
    rounds, nor the alternatives that stay live. *)

Lemma remove_first_absent (x : Z) (l : list Z) :
  ~ In x l -> remove_first x l = l.
Proof.
  induction l as [|y l IH]; simpl; intros H; [reflexivity|].
  destruct (Z.eqb_spec x y) as [-> | Hne]; [exfalso; apply H; now left|].
  f_equal. apply IH. tauto.
Qed.

Lemma strike_step (alt : Z) (pref : list Z) :
  (if mem alt pref then remove_first alt pref else pref) = remove_first alt pref.
Proof.
  destruct (mem alt pref) eqn:E; [reflexivity|].
  symmetry. apply remove_first_absent. now apply mem_false.
Qed.

Lemma remove_first_comm (a b : Z) (l : list Z) :
  remove_first a (remove_first b l) = remove_first b (remove_first a l).
Proof.
  induction l as [|y l IH]; simpl; [reflexivity|].
  destruct (Z.eqb_spec b y) as [Hb | Hb], (Z.eqb_spec a y) as [Ha | Ha]; simpl.
  - congruence.
  - subst b. now rewrite Z.eqb_refl.
  - subst a. now rewrite Z.eqb_refl.
  - apply Z.eqb_neq in Ha, Hb. now rewrite Ha, Hb, IH.
Qed.

Lemma strike_fold (eliminated : list Z) (pref : list Z) :
  strike eliminated pref = fold_left (fun pref alt => remove_first alt pref) eliminated pref.
Proof.
  unfold strike. revert pref.
  induction eliminated as [|alt eliminated IH]; intros pref; simpl; [reflexivity|].
  now rewrite strike_step, IH.
Qed.

Lemma strike_perm (eliminated eliminated' : list Z) (pref : list Z) :
  Permutation eliminated eliminated' ->
  strike eliminated pref = strike eliminated' pref.
Proof.
  intros H. rewrite !strike_fold. revert pref.
  induction H as [|x l l' H IH|x y l|l l' l'' H1 IH1 H2 IH2]; intros pref; simpl.
  - reflexivity.
  - apply IH.
  - now rewrite remove_first_comm.
  - now rewrite IH1, IH2.
Qed.

Lemma STV_round_perm (alternatives alternatives' : list Z) (preferences : profile) :
  NoDup alternatives ->
  alternatives <> [] ->
  Permutation alternatives alternatives' ->
  exists live live' preferences',
    STV_round alternatives preferences = (Ok live, preferences')
    /\ STV_round alternatives' preferences = (Ok live', preferences')
    /\ Permutation live live'
    /\ NoDup live
    /\ (length live < length alternatives)%nat.
Proof.
  intros Hnd Hne Hperm.
  assert (Hnd' : NoDup alternatives') by now apply (Permutation_NoDup Hperm).
  assert (Hne' : alternatives' <> []).
  { intros ->. apply Permutation_sym, Permutation_nil in Hperm. contradiction. }
  destruct (STV_round_spec alternatives preferences Hnd Hne)
    as [least [[a [Ha Hleast]] [Hmin Hround]]].
  destruct (STV_round_spec alternatives' preferences Hnd' Hne')
    as [least' [[a' [Ha' Hleast']] [Hmin' Hround']]].
  assert (Heq : least' = least).
  { apply Z.le_antisymm.
    - rewrite <- Hleast. apply Hmin'. now apply (Permutation_in _ Hperm).
    - rewrite <- Hleast'. apply Hmin.
      now apply (Permutation_in _ (Permutation_sym Hperm)). }
  rewrite Heq in Hround'. rewrite Hround, Hround'.
  exists (filter (fun a => negb (top_count preferences a =? least)) alternatives),
         (filter (fun a => negb (top_count preferences a =? least)) alternatives').
  eexists. split; [reflexivity|]. split; [|split; [|split]].
  - apply f_equal. apply map_ext. intros [agent pref]. simpl. apply f_equal.
    apply strike_perm, filter_perm, Permutation_sym, Hperm.
  - now apply filter_perm.
  - now apply NoDup_filter.
  - apply filter_length_lt with (x := a); [assumption|].
    apply Z.eqb_eq in Hleast. now rewrite Hleast.
Qed.

Lemma STV_loop_perm (fuel : nat) :
  forall (alternatives alternatives' : list Z) (preferences : profile),
    NoDup alternatives ->
    Permutation alternatives alternatives' ->
    (length alternatives <= S fuel)%nat ->
    exists rounds live live' final,
      STV_loop fuel alternatives preferences = Some (Ok (rounds, live), final)
      /\ STV_loop fuel alternatives' preferences = Some (Ok (rounds, live'), final)
      /\ Permutation live live'.
Proof.
  induction fuel as [|fuel IH]; intros alternatives alternatives' preferences
    Hnd Hperm Hlen; simpl; rewrite <- (Permutation_length Hperm).
  - destruct (Nat.ltb_spec 1 (length alternatives)); [lia|].
    exists O, alternatives, alternatives', preferences. auto.
  - destruct (Nat.ltb_spec 1 (length alternatives)) as [Hgt | Hle].
    + destruct (STV_round_perm alternatives alternatives' preferences Hnd)
        as [live1 [live1' [prefs1 [Hr [Hr' [Hp [Hnd1 Hlt]]]]]]]; [|assumption|].
      { destruct alternatives; [simpl in Hgt; lia | discriminate]. }
      rewrite Hr, Hr'.
      destruct (IH live1 live1' prefs1 Hnd1 Hp) as [rounds [live [live' [final [H1 [H2 H3]]]]]];
        [lia|].
      rewrite H1, H2. exists (S rounds), live, live', final. auto.
    + exists O, alternatives, alternatives', preferences. auto.
Qed.

(** Started from any listing of agent 1's alternatives, the loop hands the
    resolver the same winners list and the same profile. *)
Lemma STV_order_irrelevant (preferences : profile) (first listing : list Z) :
  dict_get preferences 1 = Some first ->
  Permutation (set_of_list first) listing ->
  exists rounds live final,
    STV_winners preferences = Some (Ok live, final)
    /\ STV_loop (length listing) listing preferences = Some (Ok (rounds, live), final).
Proof.
  intros Hget Hperm.
  destruct (STV_loop_perm (length (set_of_list first)) (set_of_list first) listing
              preferences) as [rounds [live [live' [final [H1 [H2 H3]]]]]].
  { apply NoDup_nodup. }
  { assumption. }
  { lia. }
  assert (Hlive : (length live <= 1)%nat).
  { destruct (STV_loop_terminates (length (set_of_list first)) (set_of_list first)
                preferences) as [r [l [f [Hl [_ [Hlen _]]]]]];
      [apply NoDup_nodup | lia |].
    rewrite H1 in Hl. now injection Hl as _ <- _. }
  assert (Heq : live' = live).
  { destruct live as [|x [|y live]]; simpl in Hlive; [| |lia].
    - now apply Permutation_nil in H3.
    - now apply Permutation_length_1_inv in H3. }
  subst live'. exists rounds, live, final. split.
  - unfold STV_winners, dict_getitem. now rewrite Hget, H1.
  - now rewrite <- (Permutation_length Hperm).
Qed.

(** * Further properties of the module *)

(** ** The resolver on a non-empty winners list *)

(** X1: on a non-empty winners list the keyword policies always answer with
    a winner: ["max"] with the greatest, ["min"] with the least, ["random"]
    with some element, whatever the profile is. *)
Theorem tie_break_keywords (rnd : nat) (preferences : profile) (winners : list Z) :
  winners <> [] ->
  (exists m, tie_break_function rnd preferences (PStr "max") winners = Ok (Some m)
             /\ In m winners /\ Forall (fun w => w <= m) winners)
  /\ (exists m, tie_break_function rnd preferences (PStr "min") winners = Ok (Some m)
                /\ In m winners /\ Forall (fun w => m <= w) winners)
  /\ (exists a, tie_break_function rnd preferences (PStr "random") winners = Ok (Some a)
                /\ In a winners).
Proof.
  intros Hne. unfold tie_break_function.
  destruct (length winners =? 1)%nat eqn:Hlen.
  - apply Nat.eqb_eq in Hlen. destruct winners as [|w [|w' ws]]; try discriminate.
    simpl. repeat split; exists w; repeat split; auto; repeat constructor; lia.
  - simpl. repeat split.
    + destruct (pymax_spec winners Hne) as [m [Hm [Hin Hall]]].
      exists m. rewrite Hm. auto.
    + destruct (pymin_spec winners Hne) as [m [Hm [Hin Hall]]].
      exists m. rewrite Hm. auto.
    + unfold random_choice. destruct winners as [|w ws]; [congruence|].
      assert (Hlt : (rnd mod length (w :: ws) < length (w :: ws))%nat).
      { apply Nat.mod_upper_bound. discriminate. }
      rewrite (getitem_nth (w :: ws) _ 0 Hlt).
      eexists. split; [reflexivity|]. now apply nth_In.
Qed.

Lemma tie_break_keywords_witness :
  (exists m, tie_break_function 5 [] (PStr "max") [3; 7; 4] = Ok (Some m)
             /\ In m [3; 7; 4] /\ Forall (fun w => w <= m) [3; 7; 4])
  /\ (exists m, tie_break_function 5 [] (PStr "min") [3; 7; 4] = Ok (Some m)
                /\ In m [3; 7; 4] /\ Forall (fun w => m <= w) [3; 7; 4])
  /\ (exists a, tie_break_function 5 [] (PStr "random") [3; 7; 4] = Ok (Some a)
                /\ In a [3; 7; 4]).
Proof.
  apply (tie_break_keywords 5 [] [3; 7; 4]). discriminate.
Defined.

(** X2: with an agent of the profile as the policy, the resolver answers
    with the winner the agent ranks highest: the first alternative of the
    agent's ranking that is a winner. *)
Theorem tie_break_agent_first_choice (rnd : nat) (preferences : profile)
    (agent : Z) (winners above below : list Z) (a : Z) :
  dict_get preferences agent = Some (above ++ a :: below) ->
  In a winners ->
  (forall b, In b above -> ~ In b winners) ->
  tie_break_function rnd preferences (PInt agent) winners = Ok (Some a).
Proof.
  intros Hget Ha Habove. unfold tie_break_function.
  destruct (length winners =? 1)%nat eqn:Hlen.
  - apply Nat.eqb_eq in Hlen. destruct winners as [|w [|w' ws]]; try discriminate.
    destruct Ha as [-> | []]. reflexivity.
  - simpl. unfold dict_getitem. rewrite Hget. simpl. do 2 f_equal.
    clear Hget. induction above as [|b above IH]; simpl.
    + apply mem_In in Ha. now rewrite Ha.
    + assert (Hb : mem b winners = false).
      { apply mem_false, Habove. now left. }
      rewrite Hb. apply IH. intros c Hc. apply Habove. now right.
Qed.

Lemma tie_break_agent_first_choice_witness :
  tie_break_function 0 [(1, [2; 1; 3]); (2, [1; 2; 3])] (PInt 1) [1; 3] = Ok (Some 1).
Proof.
  apply (tie_break_agent_first_choice 0 [(1, [2; 1; 3]); (2, [1; 2; 3])] 1
           [1; 3] [2] [3] 1 eq_refl).
  - now left.
  - intros b [<- | []] [H | [H | []]]; discriminate.
Defined.

(** X3: under every policy other than ["random"] the answer of the resolver
    does not depend on the order in which the winners are listed. *)
Theorem tie_break_order_independent (rnd rnd' : nat) (preferences : profile)
    (tie_break : pyval) (winners winners' : list Z) :
  Permutation winners winners' ->
  tie_break <> PStr "random" ->
  tie_break_function rnd preferences tie_break winners
  = tie_break_function rnd' preferences tie_break winners'.
Proof.
  intros Hperm Hne.
  assert (Hrandom : pyval_eqb tie_break (PStr "random") = false).
  { destruct tie_break as [s | z]; [|reflexivity]. simpl.
    apply String.eqb_neq. congruence. }
  rewrite (tie_break_perm rnd preferences tie_break winners winners' Hperm Hrandom).
  unfold tie_break_function. rewrite Hrandom. reflexivity.
Qed.

Lemma tie_break_order_independent_witness :
  tie_break_function 0 [(1, [2; 1; 3])] (PInt 1) [1; 2; 3]
  = tie_break_function 4 [(1, [2; 1; 3])] (PInt 1) [3; 1; 2].
Proof.
  apply tie_break_order_independent; [|discriminate].
  apply Permutation_sym, (Permutation_cons_app [1; 2] []), Permutation_refl.
Defined.

(** ** What the rules raise, and when they return *)

Lemma for_each_raise {A S : Type} (body : S -> A -> result S) (l : list A) (s : S)
    (e : exn) :
  for_each body l s = Raise e -> exists s' x, In x l /\ body s' x = Raise e.
Proof.
  revert s. induction l as [|x l IH]; intros s; simpl; [discriminate|].
  destruct (body s x) as [s1 | e1] eqn:E; simpl.
  - intros H. destruct (IH s1 H) as [s' [y [Hy Hb]]]. exists s', y. auto.
  - intros [= <-]. exists s, x. auto.
Qed.

(** A loop that ran to its end ran every one of its steps. *)
Lemma for_each_ok {A S : Type} (body : S -> A -> result S) (inv : S -> Prop)
    (l : list A) (s s' : S) :
  (forall s x s1, In x l -> inv s -> body s x = Ok s1 -> inv s1) ->
  inv s ->
  for_each body l s = Ok s' ->
  inv s' /\ forall x, In x l -> exists s0 s1, inv s0 /\ body s0 x = Ok s1.
Proof.
  revert s. induction l as [|x l IH]; intros s Hstep Hinv; simpl.
  - intros [= <-]. split; [assumption | intros ? []].
  - destruct (body s x) as [s1 | e1] eqn:E; simpl; [|discriminate].
    intros H. destruct (IH s1) as [Hinv' Hall]; try assumption.
    + intros s0 y s2 Hy. apply Hstep. now right.
    + apply (Hstep s x s1); auto. now left.
    + split; [assumption|]. intros y [<- | Hy]; [|now apply Hall].
      exists s, s1. auto.
Qed.

Lemma dict_set_keys_present {V : Type} (d : dict V) (k : Z) (v v' : V) :
  dict_get d k = Some v' -> dict_keys (dict_set d k v) = dict_keys d.
Proof.
  induction d as [|[k0 v0] d IH]; simpl; [discriminate|].
  destruct (Z.eqb_spec k k0) as [-> | Hne]; simpl; [reflexivity|].
  intros H. f_equal. now apply IH.
Qed.

Lemma add_score_ok (scores scores' : dict Z) (alt : Z) (w : result Z) :
  add_score scores alt w = Ok scores' ->
  In alt (dict_keys scores)
  /\ (exists v, w = Ok v)
  /\ dict_keys scores' = dict_keys scores.
Proof.
  unfold add_score, dict_getitem.
  destruct (dict_get scores alt) as [s|] eqn:E; simpl; [|discriminate].
  destruct w as [v | e]; simpl; [|discriminate].
  intros [= <-]. repeat split.
  - now apply dict_get_key in E.
  - now exists v.
  - now apply dict_set_keys_present with (v' := s).
Qed.

Lemma add_score_raise (scores : dict Z) (alt : Z) (w : result Z) (e : exn) :
  add_score scores alt w = Raise e -> e = KeyError (PInt alt) \/ w = Raise e.
Proof.
  unfold add_score, dict_getitem.
  destruct (dict_get scores alt); simpl; [|intros [= <-]; now left].
  destruct w; simpl; [discriminate | intros [= <-]; now right].
Qed.

Lemma dict_from_keys_keys (keys : list Z) :
  NoDup keys -> dict_keys (dict_from_keys 0 keys) = keys.
Proof.
  intros H. rewrite dict_from_keys_NoDup by assumption.
  unfold dict_keys. rewrite map_map. apply map_id.
Qed.

(** The exceptions of the resolver: it raises only on an empty winners list
    or under a policy it does not know. *)
Lemma tie_break_raise (rnd : nat) (preferences : profile) (tie_break : pyval)
    (winners : list Z) (e : exn) :
  tie_break_function rnd preferences tie_break winners = Raise e ->
  (winners = [] /\ (e = ValueError (EmptyArg "max") \/ e = ValueError (EmptyArg "min")
                    \/ e = IndexError))
  \/ (recognized_policy preferences tie_break = false
      /\ e = ValueError (InvalidTieBreak tie_break)).
Proof.
  unfold tie_break_function, recognized_policy.
  destruct (length winners =? 1)%nat eqn:Hlen.
  { apply Nat.eqb_eq in Hlen. destruct winners as [|w [|w' ws]]; discriminate. }
  destruct (pyval_eqb tie_break (PStr "max")); simpl.
  { destruct winners; simpl; [|discriminate]. intros [= <-]. left. auto. }
  destruct (pyval_eqb tie_break (PStr "min")); simpl.
  { destruct winners; simpl; [|discriminate]. intros [= <-]. left. auto. }
  destruct (pyval_eqb tie_break (PStr "random")); simpl.
  { destruct winners as [|w ws]; [simpl; intros [= <-]; left; auto|].
    intros H. exfalso. unfold random_choice in H.
    assert (Hlt : (rnd mod length (w :: ws) < length (w :: ws))%nat).
    { apply Nat.mod_upper_bound. discriminate. }
    rewrite (getitem_nth (w :: ws) _ 0 Hlt) in H. discriminate. }
  destruct (contains preferences tie_break) eqn:Hc.
  { destruct (contains_getitem _ _ Hc) as [r Hr]. rewrite Hr. discriminate. }
  intros [= <-]. right. auto.
Qed.

(** The exceptions of the loops of [scoring_rule]. *)
Lemma scoring_loops_raise (score_vector : list Z) (prefs : list (list Z))
    (scores : dict Z) (e : exn) :
  for_each (fun scores pref =>
              for_each (fun scores ia =>
                          add_score scores (snd ia) (getitem score_vector (fst ia)))
                       (enumerate 0 pref) scores)
           prefs scores = Raise e ->
  (exists alt, e = KeyError (PInt alt)) \/ e = IndexError.
Proof.
  intros H. apply for_each_raise in H. destruct H as [s1 [pref [_ H]]].
  apply for_each_raise in H. destruct H as [s2 [[i a] [_ H]]].
  apply add_score_raise in H. destruct H as [-> | H]; [left; eauto|].
  right. simpl in H. unfold getitem in H.
  destruct (nth_error score_vector i); [discriminate | now injection H as <-].
Qed.

(** X4: [scoring_rule] raises the "Score vector length" error exactly when
    agent 1 is in the profile and the length of the vector differs from the
    length of agent 1's ranking; no other path of the rule, of its loops or
    of the resolver raises it. *)
Theorem scoring_rule_dimension_mismatch (rnd : nat) (preferences : profile)
    (score_vector : list Z) (tie_break : pyval) :
  scoring_rule rnd preferences score_vector tie_break
  = Raise (ValueError ScoreVectorLength)
  <-> exists first, dict_get preferences 1 = Some first
                    /\ length score_vector <> length first.
Proof.
  unfold scoring_rule, scoring_winners, dict_getitem. split.
  - destruct (dict_get preferences 1) as [first|]; simpl; [|discriminate].
    intros H. exists first. split; [reflexivity|].
    destruct (Nat.eqb_spec (length score_vector) (length first)) as [Heq | Hne];
      [|assumption].
    exfalso. simpl in H.
    match type of H with
    | context [for_each ?b ?l ?s] => destruct (for_each b l s) as [scores | e] eqn:E
    end; simpl in H.
    + destruct (pymax (dict_values scores)) as [mx | e] eqn:Emax; simpl in H.
      * apply tie_break_raise in H.
        destruct H as [[_ [H | [H | H]]] | [_ H]]; discriminate.
      * destruct (dict_values scores); simpl in Emax; [|discriminate].
        injection Emax as <-. discriminate.
    + apply scoring_loops_raise in E. injection H as ->.
      destruct E as [[alt E] | E]; discriminate.
  - intros [first [Hget Hne]]. rewrite Hget. simpl.
    apply Nat.eqb_neq in Hne. now rewrite Hne.
Qed.

Lemma scoring_rule_dimension_mismatch_witness :
  scoring_rule 0 [(1, [2; 1; 3]); (2, [1; 2; 3])] [1; 0] (PStr "max")
  = Raise (ValueError ScoreVectorLength).
Proof.
  apply (proj2 (scoring_rule_dimension_mismatch 0 [(1, [2; 1; 3]); (2, [1; 2; 3])]
                  [1; 0] (PStr "max"))).
  exists [2; 1; 3]. split; [reflexivity | discriminate].
Defined.

Lemma enumerate_nth (l : list Z) (i : nat) :
  (i < length l)%nat -> In (i, nth i l 0) (enumerate 0 l).
Proof.
  intros H. unfold enumerate.
  assert (Hc : nth i (combine (seq 0 (length l)) l) (0%nat, 0)
               = (nth i (seq 0 (length l)) 0%nat, nth i l 0)).
  { apply combine_nth. apply length_seq. }
  rewrite seq_nth in Hc by assumption. simpl in Hc. rewrite <- Hc.
  apply nth_In. rewrite length_combine, length_seq. lia.
Qed.

(** The loops of a scoring rule ran to their end: every entry they met was a
    key of the table and had a weight, and the keys are the ones they
    started with. *)
Lemma score_loops_ok {X : Type} (alt_of : X -> Z) (weight_of : X -> result Z)
    (items : list Z -> list X) (prefs : list (list Z)) (scores scores' : dict Z) :
  for_each (fun scores pref =>
              for_each (fun scores x => add_score scores (alt_of x) (weight_of x))
                       (items pref) scores)
           prefs scores = Ok scores' ->
  dict_keys scores' = dict_keys scores
  /\ forall pref x, In pref prefs -> In x (items pref) ->
                    In (alt_of x) (dict_keys scores) /\ exists v, weight_of x = Ok v.
Proof.
  intros H.
  apply (for_each_ok _ (fun s => dict_keys s = dict_keys scores)) in H.
  - destruct H as [Hk Hall]. split; [assumption|].
    intros pref x Hp Hx. destruct (Hall pref Hp) as [s0 [s1 [Hs0 Hin]]].
    apply (for_each_ok _ (fun s => dict_keys s = dict_keys scores)) in Hin.
    + destruct Hin as [_ Hin]. destruct (Hin x Hx) as [s2 [s3 [Hs2 Hadd]]].
      apply add_score_ok in Hadd. destruct Hadd as [Ha [Hv _]].
      rewrite Hs2 in Ha. auto.
    + intros s x0 s2 _ Hs Hadd. apply add_score_ok in Hadd.
      destruct Hadd as [_ [_ Hk']]. congruence.
    + assumption.
  - intros s pref s1 _ Hs Hin.
    apply (for_each_ok _ (fun s => dict_keys s = dict_keys scores)) in Hin.
    + tauto.
    + intros s0 x0 s2 _ Hs0 Hadd. apply add_score_ok in Hadd.
      destruct Hadd as [_ [_ Hk']]. congruence.
    + assumption.
  - reflexivity.
Qed.

Lemma pymax_ok_nonempty (l : list Z) (mx : Z) : pymax l = Ok mx -> l <> [].
Proof. destruct l; [discriminate | discriminate]. Qed.

(** The winners under a score function are the keys of greatest score. *)
Lemma winners_by_In (score : Z -> Z) (keys winners : list Z) :
  winners_by score keys = Ok winners ->
  forall a, In a winners
            <-> In a keys /\ forall b, In b keys -> score b <= score a.
Proof.
  unfold winners_by. intros H a.
  destruct (pymax (map score keys)) as [mx|] eqn:Emax; simpl in H; [|discriminate].
  injection H as <-.
  destruct (pymax_spec (map score keys) (pymax_ok_nonempty _ _ Emax))
    as [mx' [Hmx [Hin Hall]]].
  rewrite Emax in Hmx. injection Hmx as <-.
  rewrite Forall_forall in Hall. rewrite filter_In, Z.eqb_eq. split.
  - intros [Ha Heq]. split; [assumption|]. intros b Hb. rewrite Heq.
    apply Hall. now apply in_map.
  - intros [Ha Hbest]. split; [assumption|]. apply Z.le_antisymm.
    + apply Hall. now apply in_map.
    + apply in_map_iff in Hin. destruct Hin as [k [<- Hk]]. now apply Hbest.
Qed.

(** What a winners list of [scoring_rule] tells about the profile. *)
Lemma scoring_winners_ok (preferences : profile) (score_vector winners : list Z) :
  scoring_winners preferences score_vector = Ok winners ->
  exists first,
    dict_get preferences 1 = Some first
    /\ first <> []
    /\ length score_vector = length first
    /\ forall pref, In pref (dict_values preferences) ->
                    (length pref <= length score_vector)%nat
                    /\ incl pref (range 1 (length first)).
Proof.
  intros H. unfold scoring_winners, dict_getitem in H.
  destruct (dict_get preferences 1) as [first|] eqn:Hget; simpl in H; [|discriminate].
  exists first.
  destruct (Nat.eqb_spec (length score_vector) (length first)) as [Hlen | Hlen];
    simpl in H; [|discriminate].
  match type of H with
  | context [for_each ?b ?l ?s] => destruct (for_each b l s) as [scores | e] eqn:E
  end; simpl in H; [|discriminate].
  apply (score_loops_ok (fun ia : nat * Z => snd ia)
           (fun ia => getitem score_vector (fst ia)) (enumerate 0)) in E.
  destruct E as [Hkeys Hall].
  rewrite dict_from_keys_keys in Hkeys, Hall by apply range_NoDup.
  split; [reflexivity|]. split; [|split; [assumption|]].
  - intros ->. simpl in *.
    destruct (pymax (dict_values scores)) as [mx|] eqn:Emax; simpl in H;
      [|discriminate].
    apply pymax_ok_nonempty in Emax. apply Emax.
    unfold dict_keys in Hkeys. unfold dict_values.
    destruct scores; [reflexivity | discriminate].
  - intros pref Hp. split.
    + destruct (Nat.le_gt_cases (length pref) (length score_vector)) as [Hle | Hgt];
        [assumption|].
      exfalso.
      destruct (Hall pref (length score_vector, nth (length score_vector) pref 0) Hp)
        as [_ [v Hv]].
      { apply enumerate_nth. lia. }
      simpl in Hv. unfold getitem in Hv.
      assert (Hnone : nth_error score_vector (length score_vector) = None)
        by (apply nth_error_None; lia).
      rewrite Hnone in Hv. discriminate.
    + intros a Ha. destruct (In_nth pref a 0 Ha) as [i [Hi <-]].
      apply (Hall pref (i, nth i pref 0) Hp). now apply enumerate_nth.
Qed.

(** X5: [scoring_rule] gets as far as a winners list exactly when agent 1
    is in the profile with a non-empty ranking of the length of the score
    vector, no ranking is longer than the vector, and every ranked
    alternative is one of [1..m]; otherwise it raises. *)
Theorem scoring_winners_returns_iff (preferences : profile) (score_vector : list Z) :
  (exists winners, scoring_winners preferences score_vector = Ok winners)
  <-> exists first,
      dict_get preferences 1 = Some first
      /\ first <> []
      /\ length score_vector = length first
      /\ forall pref, In pref (dict_values preferences) ->
                      (length pref <= length score_vector)%nat
                      /\ incl pref (range 1 (length first)).
Proof.
  split.
  - intros [winners H]. now apply scoring_winners_ok in H.
  - intros [first [Hget [Hne [Hlen Hprefs]]]].
    rewrite (scoring_winners_points preferences first Hget score_vector Hlen Hprefs).
    destruct (winners_by_nonempty
                (tally (profile_points (fun i => nth i score_vector 0) preferences))
                (range 1 (length first))) as [winners [Hw _]].
    + intros Hnil. apply (f_equal (@length Z)) in Hnil.
      rewrite range_length in Hnil. destruct first; [congruence | discriminate].
    + now exists winners.
Qed.

Lemma scoring_winners_returns_iff_witness :
  exists winners,
    scoring_winners [(1, [2; 1; 3]); (2, [1]); (3, [3; 2])] [5; 2; 0] = Ok winners.
Proof.
  apply (proj2 (scoring_winners_returns_iff [(1, [2; 1; 3]); (2, [1]); (3, [3; 2])]
                  [5; 2; 0])).
  exists [2; 1; 3]. repeat split; try reflexivity; try discriminate.
  - destruct H as [<- | [<- | [<- | []]]]; simpl; lia.
  - change (range 1 (length [2; 1; 3])) with [1; 2; 3].
    destruct H as [<- | [<- | [<- | []]]]; intros a Ha; simpl in *; intuition.
Defined.

(** X6: the winners list [scoring_rule] computes holds exactly the
    alternatives of [1..m] whose positional score is the greatest. *)
Theorem scoring_winners_greatest_score (preferences : profile)
    (score_vector first winners : list Z) :
  dict_get preferences 1 = Some first ->
  scoring_winners preferences score_vector = Ok winners ->
  forall a,
    In a winners
    <-> In a (range 1 (length first))
        /\ forall b, In b (range 1 (length first)) ->
                     positional_score score_vector preferences b
                     <= positional_score score_vector preferences a.
Proof.
  intros Hget Hw.
  destruct (scoring_winners_ok preferences score_vector winners Hw)
    as [first' [Hget' [_ [Hlen Hprefs]]]].
  rewrite Hget in Hget'. injection Hget' as <-.
  rewrite (scoring_winners_points preferences first Hget score_vector Hlen Hprefs) in Hw.
  apply (winners_by_In _ _ _ Hw).
Qed.

Lemma scoring_winners_greatest_score_witness :
  In 1 [1]
  <-> In 1 (range 1 3)
      /\ forall b, In b (range 1 3) ->
                   positional_score [3; 2; 1]
                     [(1, [2; 1; 3]); (2, [1; 2; 3]); (3, [1; 3; 2])] b
                   <= positional_score [3; 2; 1]
                        [(1, [2; 1; 3]); (2, [1; 2; 3]); (3, [1; 3; 2])] 1.
Proof.
  exact (scoring_winners_greatest_score
           [(1, [2; 1; 3]); (2, [1; 2; 3]); (3, [1; 3; 2])] [3; 2; 1] [2; 1; 3] [1]
           eq_refl eq_refl 1).
Defined.

(** ** The outcomes of the resolver *)

Lemma tie_break_outcome (rnd : nat) (preferences : profile) (tie_break : pyval)
    (winners : list Z) :
  match tie_break_function rnd preferences tie_break winners with
  | Ok (Some a) => In a winners
  | Ok None =>
      length winners <> 1%nat
      /\ keyword_policy tie_break = false
      /\ exists ranking,
          profile_getitem preferences tie_break = Ok ranking
          /\ forall alt, In alt ranking -> ~ In alt winners
  | Raise e =>
      (winners = [] /\ keyword_policy tie_break = true)
      \/ (length winners <> 1%nat /\ recognized_policy preferences tie_break = false)
  end.
Proof.
  destruct (tie_break_function rnd preferences tie_break winners) as [[a|] | e] eqn:E.
  - eapply tie_break_In; eassumption.
  - unfold tie_break_function, keyword_policy in *.
    destruct (length winners =? 1)%nat eqn:Hlen.
    { destruct (getitem winners 0); discriminate. }
    apply Nat.eqb_neq in Hlen.
    destruct (pyval_eqb tie_break (PStr "max")).
    { destruct (pymax winners); discriminate. }
    destruct (pyval_eqb tie_break (PStr "min")).
    { destruct (pymin winners); discriminate. }
    destruct (pyval_eqb tie_break (PStr "random")).
    { destruct (random_choice rnd winners); discriminate. }
    destruct (contains preferences tie_break); [|discriminate].
    destruct (profile_getitem preferences tie_break) as [ranking|]; [|discriminate].
    simpl in E. injection E as E. repeat split; [assumption|].
    exists ranking. split; [reflexivity|].
    intros alt Halt. apply mem_false.
    apply (find_none _ _ E alt Halt).
  - unfold tie_break_function, keyword_policy, recognized_policy in *.
    destruct (length winners =? 1)%nat eqn:Hlen.
    { apply Nat.eqb_eq in Hlen. destruct winners as [|w [|w' ws]]; discriminate. }
    apply Nat.eqb_neq in Hlen.
    destruct (pyval_eqb tie_break (PStr "max")); simpl.
    { left. destruct winners; [auto | discriminate]. }
    destruct (pyval_eqb tie_break (PStr "min")); simpl.
    { left. destruct winners; [auto | discriminate]. }
    destruct (pyval_eqb tie_break (PStr "random")); simpl.
    { left. destruct winners as [|w ws]; [auto|]. exfalso.
      unfold random_choice in E.
      assert (Hlt : (rnd mod length (w :: ws) < length (w :: ws))%nat).
      { apply Nat.mod_upper_bound. discriminate. }
      rewrite (getitem_nth (w :: ws) _ 0 Hlt) in E. discriminate. }
    destruct (contains preferences tie_break) eqn:Hc.
    { destruct (contains_getitem _ _ Hc) as [r Hr]. rewrite Hr in E. discriminate. }
    right. auto.
Qed.

(** The resolver answers with a winner when the list is not empty, the
    policy is known and, for an agent, the agent ranks some winner. *)
Lemma tie_break_returns_winner (rnd : nat) (preferences : profile)
    (tie_break : pyval) (winners : list Z) :
  winners <> [] ->
  recognized_policy preferences tie_break = true ->
  (forall ranking, profile_getitem preferences tie_break = Ok ranking ->
                   exists a, In a ranking /\ In a winners) ->
  exists a, tie_break_function rnd preferences tie_break winners = Ok (Some a)
            /\ In a winners.
Proof.
  intros Hne Hrec Hrank.
  pose proof (tie_break_outcome rnd preferences tie_break winners) as H.
  destruct (tie_break_function rnd preferences tie_break winners) as [[a|] | e].
  - now exists a.
  - destruct H as [_ [_ [ranking [Hr Hnone]]]].
    destruct (Hrank ranking Hr) as [a [Ha Hw]]. now apply Hnone in Ha.
  - destruct H as [[H _] | [_ H]]; congruence.
Qed.

(** X7: the resolver returns [None] exactly when the winners list is not a
    singleton, the policy is no keyword but a key of the profile, and the
    ranking of that agent holds no winner. *)
Theorem tie_break_None_iff (rnd : nat) (preferences : profile) (tie_break : pyval)
    (winners : list Z) :
  tie_break_function rnd preferences tie_break winners = Ok None
  <-> length winners <> 1%nat
      /\ keyword_policy tie_break = false
      /\ exists ranking,
          profile_getitem preferences tie_break = Ok ranking
          /\ forall alt, In alt ranking -> ~ In alt winners.
Proof.
  split.
  - intros H. pose proof (tie_break_outcome rnd preferences tie_break winners) as Ho.
    now rewrite H in Ho.
  - intros [Hlen [Hkw [ranking [Hr Hnone]]]].
    unfold keyword_policy in Hkw.
    apply orb_false_iff in Hkw. destruct Hkw as [Hkw Hrandom].
    apply orb_false_iff in Hkw. destruct Hkw as [Hmax Hmin].
    unfold tie_break_function. apply Nat.eqb_neq in Hlen.
    rewrite Hlen, Hmax, Hmin, Hrandom.
    assert (Hc : contains preferences tie_break = true).
    { destruct tie_break as [s | k]; simpl in *; [discriminate|].
      unfold dict_getitem in Hr. destruct (dict_get preferences k); [reflexivity|discriminate]. }
    rewrite Hc, Hr. simpl. f_equal.
    apply find_all_false. intros alt Halt. apply mem_false. now apply Hnone.
Qed.

Lemma tie_break_None_iff_witness :
  tie_break_function 0 [(1, [1; 2]); (2, [2; 1])] (PInt 2) [] = Ok None.
Proof.
  apply (proj2 (tie_break_None_iff 0 [(1, [1; 2]); (2, [2; 1])] (PInt 2) [])).
  split; [discriminate|]. split; [reflexivity|].
  exists [2; 1]. split; [reflexivity|]. intros alt _ [].
Defined.

(** X8: the resolver raises exactly on an empty winners list under a
    keyword, and on a list that is not a singleton under a policy that is
    neither a keyword nor a key of the profile. *)
Theorem tie_break_raises_iff (rnd : nat) (preferences : profile) (tie_break : pyval)
    (winners : list Z) :
  (exists e, tie_break_function rnd preferences tie_break winners = Raise e)
  <-> (winners = [] /\ keyword_policy tie_break = true)
      \/ (length winners <> 1%nat /\ recognized_policy preferences tie_break = false).
Proof.
  split.
  - intros [e H]. pose proof (tie_break_outcome rnd preferences tie_break winners) as Ho.
    now rewrite H in Ho.
  - unfold tie_break_function, keyword_policy, recognized_policy.
    intros [[-> Hkw] | [Hlen Hrec]].
    + simpl. destruct (pyval_eqb tie_break (PStr "max")); simpl; [eauto|].
      destruct (pyval_eqb tie_break (PStr "min")); simpl; [eauto|].
      simpl in Hkw. rewrite Hkw. simpl. eauto.
    + apply Nat.eqb_neq in Hlen. rewrite Hlen.
      apply orb_false_iff in Hrec. destruct Hrec as [Hrec Hc].
      apply orb_false_iff in Hrec. destruct Hrec as [Hrec Hrandom].
      apply orb_false_iff in Hrec. destruct Hrec as [Hmax Hmin].
      rewrite Hmax, Hmin, Hrandom, Hc. eauto.
Qed.

Lemma tie_break_raises_iff_witness :
  exists e, tie_break_function 0 [(1, [1; 2])] (PInt 7) [1; 2] = Raise e.
Proof.
  apply (proj2 (tie_break_raises_iff 0 [(1, [1; 2])] (PInt 7) [1; 2])).
  right. split; [discriminate | reflexivity].
Defined.

(** ** Plurality *)

Lemma top_ranked_count (preferences : profile) (alt : Z) :
  top_ranked preferences alt <-> 0 < top_count preferences alt.
Proof.
  unfold top_ranked, top_count. symmetry. apply count_tops_positive.
Qed.

Lemma plurality_winners_ok (preferences : profile) (winners : list Z) :
  plurality_winners preferences = Ok winners ->
  preferences <> [] /\ Forall (fun pref => pref <> []) (dict_values preferences).
Proof.
  unfold plurality_winners. intros H.
  match type of H with
  | context [for_each ?b ?l ?s] => destruct (for_each b l s) as [counts | e] eqn:E
  end; simpl in H; [|discriminate].
  split.
  - intros ->. simpl in E. injection E as <-. discriminate.
  - apply (for_each_ok _ (fun _ => True)) in E; auto.
    destruct E as [_ Hall]. apply Forall_forall. intros pref Hp ->.
    destruct (Hall [] Hp) as [s0 [s1 [_ Hb]]]. discriminate.
Qed.

(** X9: [plurality] gets as far as a winners list exactly when the profile
    has an agent and no ranking is empty; the list then holds exactly the
    alternatives that head the greatest number of rankings. *)
Theorem plurality_winners_spec (preferences : profile) :
  ((exists winners, plurality_winners preferences = Ok winners)
   <-> preferences <> []
       /\ Forall (fun pref => pref <> []) (dict_values preferences))
  /\ forall winners,
      plurality_winners preferences = Ok winners ->
      NoDup winners
      /\ forall a, In a winners
                   <-> top_ranked preferences a
                       /\ forall b, top_count preferences b <= top_count preferences a.
Proof.
  split; [split|].
  - intros [winners H]. now apply plurality_winners_ok in H.
  - intros [Hne Hall].
    destruct (plurality_winners_tops preferences Hall) as [tops [Hnd [Htops ->]]].
    destruct (winners_by_nonempty (top_count preferences) tops) as [w [Hw _]];
      [|now exists w].
    destruct preferences as [|[agent pref] rest]; [congruence|].
    inversion Hall as [|? ? Hpref _]; subst. simpl in Hpref.
    destruct pref as [|top pref']; [congruence|].
    intros Hnil. assert (Hin : In top tops).
    { apply Htops. exists (top :: pref'). split; [now left | reflexivity]. }
    rewrite Hnil in Hin. contradiction.
  - intros winners H. destruct (plurality_winners_ok _ _ H) as [_ Hall].
    destruct (plurality_winners_tops preferences Hall) as [tops [Hnd [Htops Heq]]].
    rewrite Heq in H. split.
    + unfold winners_by in H.
      destruct (pymax (map (top_count preferences) tops)); simpl in H; [|discriminate].
      injection H as <-. now apply NoDup_filter.
    + intros a. rewrite (winners_by_In _ _ _ H a), Htops. split.
      * intros [Ha Hbest]. split; [assumption|]. intros b.
        destruct (Z.ltb_spec 0 (top_count preferences b)) as [Hpos | Hle].
        -- apply Hbest, Htops. now apply top_ranked_count.
        -- apply top_ranked_count in Ha. lia.
      * intros [Ha Hbest]. split; [assumption|]. intros b _. apply Hbest.
Qed.

Lemma count_tops_disjoint (prefs : list (list Z)) (a b : Z) :
  a <> b ->
  count_tops prefs a + count_tops prefs b <= Z.of_nat (length prefs).
Proof.
  intros Hne. induction prefs as [|pref prefs IH]; [unfold count_tops; simpl; lia|].
  rewrite !count_tops_cons. cbn [length]. rewrite Nat2Z.inj_succ.
  destruct pref as [|top pref']; simpl; [lia|].
  destruct (Z.eqb_spec top a), (Z.eqb_spec top b); lia.
Qed.

Lemma NoDup_all_equal (a : Z) (l : list Z) :
  NoDup l -> In a l -> (forall b, In b l -> b = a) -> l = [a].
Proof.
  intros Hnd Ha Hall. destruct l as [|x l]; [contradiction|].
  assert (x = a) by (apply Hall; now left). subst x.
  destruct l as [|y l]; [reflexivity|].
  assert (y = a) by (apply Hall; right; now left). subst y.
  inversion Hnd as [|? ? Hnotin _]. exfalso. apply Hnotin. now left.
Qed.

(** X10: an alternative that heads more than half of the rankings of a
    profile without empty rankings is what [plurality] returns, under every
    tie-break policy (the resolver gets a single winner). *)
Theorem plurality_majority (rnd : nat) (preferences : profile) (tie_break : pyval)
    (a : Z) :
  Forall (fun pref => pref <> []) (dict_values preferences) ->
  Z.of_nat (length preferences) < 2 * top_count preferences a ->
  plurality_winners preferences = Ok [a]
  /\ plurality rnd preferences tie_break = Ok (Some a).
Proof.
  intros Hall Hmaj.
  assert (Hwin : plurality_winners preferences = Ok [a]).
  { destruct (plurality_winners_tops preferences Hall) as [tops [Hnd [Htops Heq]]].
    assert (Ha : In a tops).
    { apply Htops, top_ranked_count. lia. }
    destruct (winners_by_nonempty (top_count preferences) tops) as [w [Hw _]].
    { intros Hnil. rewrite Hnil in Ha. contradiction. }
    rewrite Heq, Hw. f_equal.
    pose proof (winners_by_In _ _ _ Hw) as Hin.
    assert (Hbest : forall b, b <> a -> top_count preferences b < top_count preferences a).
    { intros b Hb.
      pose proof (count_tops_disjoint (dict_values preferences) a b
                    (fun H => Hb (eq_sym H))) as Hd.
      unfold dict_values in Hd. rewrite length_map in Hd.
      unfold top_count, dict_values in *. lia. }
    apply NoDup_all_equal.
    - unfold winners_by in Hw.
      destruct (pymax (map (top_count preferences) tops)); simpl in Hw; [|discriminate].
      injection Hw as <-. now apply NoDup_filter.
    - apply Hin. split; [assumption|]. intros b _.
      destruct (Z.eq_dec b a) as [-> | Hb]; [lia|]. specialize (Hbest b Hb). lia.
    - intros b Hb. apply Hin in Hb. destruct Hb as [_ Hb].
      destruct (Z.eq_dec b a) as [-> | Hne]; [reflexivity|].
      specialize (Hbest b Hne). specialize (Hb a Ha). lia. }
  split; [assumption|]. unfold plurality. rewrite Hwin. reflexivity.
Qed.

Lemma plurality_majority_witness :
  plurality_winners [(1, [2; 1; 3]); (2, [1; 2; 3]); (3, [1; 3; 2])] = Ok [1]
  /\ plurality 0 [(1, [2; 1; 3]); (2, [1; 2; 3]); (3, [1; 3; 2])] (PStr "nobody")
     = Ok (Some 1).
Proof.
  apply (plurality_majority 0 [(1, [2; 1; 3]); (2, [1; 2; 3]); (3, [1; 3; 2])]
           (PStr "nobody") 1).
  - repeat constructor; discriminate.
  - reflexivity.
Defined.

(** ** Borda and veto *)

Lemma dict_set_keys_In {V : Type} (d : dict V) (k k' : Z) (v : V) :
  In k' (dict_keys (dict_set d k v)) <-> k' = k \/ In k' (dict_keys d).
Proof.
  induction d as [|[k0 v0] d IH]; simpl.
  - intuition.
  - destruct (Z.eqb_spec k k0) as [-> | Hne]; simpl.
    + intuition.
    + rewrite IH. intuition.
Qed.

Lemma dict_from_keys_In {V : Type} (v : V) (keys : list Z) (k : Z) :
  In k (dict_keys (dict_from_keys v keys)) <-> In k keys.
Proof.
  unfold dict_from_keys.
  assert (H : forall d, In k (dict_keys (fold_left (fun d k => dict_set d k v) keys d))
                        <-> In k (dict_keys d) \/ In k keys).
  { induction keys as [|x keys IH]; intros d; simpl; [tauto|].
    rewrite IH, dict_set_keys_In. intuition. }
  rewrite H. simpl. tauto.
Qed.

Lemma scores_nonempty_keys (scores : dict Z) (mx : Z) (keys : list Z) :
  pymax (dict_values scores) = Ok mx ->
  (forall k, In k (dict_keys scores) <-> In k keys) ->
  keys <> [].
Proof.
  intros Hmax Hkeys ->. apply pymax_ok_nonempty in Hmax. apply Hmax.
  destruct scores as [|[k v] scores]; [reflexivity|].
  exfalso. apply (Hkeys k). now left.
Qed.

Lemma borda_winners_ok (preferences : profile) (winners : list Z) :
  borda_winners preferences = Ok winners ->
  exists first,
    dict_get preferences 1 = Some first
    /\ first <> []
    /\ forall pref, In pref (dict_values preferences) -> incl pref first.
Proof.
  intros H. unfold borda_winners, dict_getitem in H.
  destruct (dict_get preferences 1) as [first|] eqn:Hget; simpl in H; [|discriminate].
  exists first. split; [reflexivity|].
  match type of H with
  | context [for_each ?b ?l ?s] => destruct (for_each b l s) as [scores | e] eqn:E
  end; simpl in H; [|discriminate].
  apply (score_loops_ok (fun ia : nat * Z => snd ia)
           (fun ia => Ok (Z.of_nat (length first) - Z.of_nat (fst ia)))
           (enumerate 0)) in E.
  destruct E as [Hkeys Hall]. split.
  - destruct (pymax (dict_values scores)) as [mx|] eqn:Emax; simpl in H; [|discriminate].
    apply (scores_nonempty_keys scores mx first Emax).
    intros k. rewrite Hkeys. apply dict_from_keys_In.
  - intros pref Hp a Ha. destruct (In_nth pref a 0 Ha) as [i [Hi <-]].
    apply (dict_from_keys_In 0 first).
    apply (Hall pref (i, nth i pref 0) Hp). now apply enumerate_nth.
Qed.

Lemma veto_winners_ok (preferences : profile) (winners : list Z) :
  veto_winners preferences = Ok winners ->
  exists first,
    dict_get preferences 1 = Some first
    /\ first <> []
    /\ forall pref, In pref (dict_values preferences) -> incl (removelast pref) first.
Proof.
  intros H. unfold veto_winners, dict_getitem in H.
  destruct (dict_get preferences 1) as [first|] eqn:Hget; simpl in H; [|discriminate].
  exists first. split; [reflexivity|].
  match type of H with
  | context [for_each ?b ?l ?s] => destruct (for_each b l s) as [scores | e] eqn:E
  end; simpl in H; [|discriminate].
  apply (score_loops_ok (fun alt : Z => alt) (fun _ => Ok 1) (@removelast Z)) in E.
  destruct E as [Hkeys Hall]. split.
  - destruct (pymax (dict_values scores)) as [mx|] eqn:Emax; simpl in H; [|discriminate].
    apply (scores_nonempty_keys scores mx first Emax).
    intros k. rewrite Hkeys. apply dict_from_keys_In.
  - intros pref Hp a Ha. apply (dict_from_keys_In 0 first).
    now apply (Hall pref a Hp).
Qed.

(** [veto] never looks up the last entry of a ranking. *)
Lemma veto_winners_scores (preferences : profile) (first : list Z) :
  dict_get preferences 1 = Some first ->
  NoDup first ->
  (forall pref, In pref (dict_values preferences) -> incl (removelast pref) first) ->
  veto_winners preferences = winners_by (veto_score preferences) first.
Proof.
  intros Hget Hnd Hprefs. unfold veto_winners, dict_getitem.
  rewrite Hget. simpl.
  rewrite for_each_ext_in
    with (body' := fun scores pref =>
                     for_each add_points
                              (map (fun a => (a, 1)) (removelast pref)) scores).
  - rewrite for_each_flat. rewrite scores_from_zero.
    + simpl. apply winners_of_scores.
    + assumption.
    + intros aw Haw. apply in_flat_map in Haw. destruct Haw as [pref [Hp Ha]].
      apply in_map_iff in Ha. destruct Ha as [a [<- Ha]]. simpl.
      now apply (Hprefs pref Hp).
  - intros scores pref Hp. now rewrite for_each_map.
Qed.

(** X11: for a profile whose agent 1 ranks each alternative once, [borda]
    gets as far as a winners list exactly when agent 1's ranking is not
    empty and every ranking holds alternatives of agent 1's ranking only
    (a ranking may be shorter or longer); the list then holds exactly the
    alternatives of greatest Borda score. *)
Theorem borda_winners_spec (preferences : profile) (first : list Z) :
  dict_get preferences 1 = Some first ->
  NoDup first ->
  ((exists winners, borda_winners preferences = Ok winners)
   <-> first <> []
       /\ forall pref, In pref (dict_values preferences) -> incl pref first)
  /\ forall winners,
      borda_winners preferences = Ok winners ->
      forall a, In a winners
                <-> In a first
                    /\ forall b, In b first ->
                                 borda_score (length first) preferences b
                                 <= borda_score (length first) preferences a.
Proof.
  intros Hget Hnd. split; [split|].
  - intros [winners H]. destruct (borda_winners_ok _ _ H) as [first' [Hget' H']].
    rewrite Hget in Hget'. now injection Hget' as <-.
  - intros [Hne Hprefs].
    rewrite (borda_winners_points preferences first Hget Hnd Hprefs).
    destruct (winners_by_nonempty
                (tally (profile_points
                          (fun i => Z.of_nat (length first) - Z.of_nat i) preferences))
                first Hne) as [w [Hw _]].
    now exists w.
  - intros winners H. destruct (borda_winners_ok _ _ H) as [first' [Hget' [_ Hprefs]]].
    rewrite Hget in Hget'. injection Hget' as <-.
    rewrite (borda_winners_points preferences first Hget Hnd Hprefs) in H.
    apply (winners_by_In _ _ _ H).
Qed.

Lemma borda_winners_spec_witness :
  exists winners,
    borda_winners [(1, [2; 1; 3]); (2, [1]); (3, [3; 2; 1; 2])] = Ok winners.
Proof.
  apply (proj2 (proj1 (borda_winners_spec [(1, [2; 1; 3]); (2, [1]); (3, [3; 2; 1; 2])]
                         [2; 1; 3] eq_refl
                         ltac:(repeat constructor; simpl; intuition discriminate)))).
  split; [discriminate|].
  intros pref [<- | [<- | [<- | []]]] a Ha; simpl in *; intuition.
Defined.

(** X12: for such a profile [veto] gets as far as a winners list exactly
    when agent 1's ranking is not empty and every ranking, its last entry
    apart, holds alternatives of agent 1's ranking only: the last entry of a
    ranking is never looked up.  The list then holds exactly the
    alternatives of greatest veto score. *)
Theorem veto_winners_spec (preferences : profile) (first : list Z) :
  dict_get preferences 1 = Some first ->
  NoDup first ->
  ((exists winners, veto_winners preferences = Ok winners)
   <-> first <> []
       /\ forall pref, In pref (dict_values preferences) ->
                       incl (removelast pref) first)
  /\ forall winners,
      veto_winners preferences = Ok winners ->
      forall a, In a winners
                <-> In a first
                    /\ forall b, In b first ->
                                 veto_score preferences b <= veto_score preferences a.
Proof.
  intros Hget Hnd. split; [split|].
  - intros [winners H]. destruct (veto_winners_ok _ _ H) as [first' [Hget' H']].
    rewrite Hget in Hget'. now injection Hget' as <-.
  - intros [Hne Hprefs].
    rewrite (veto_winners_scores preferences first Hget Hnd Hprefs).
    destruct (winners_by_nonempty (veto_score preferences) first Hne) as [w [Hw _]].
    now exists w.
  - intros winners H. destruct (veto_winners_ok _ _ H) as [first' [Hget' [_ Hprefs]]].
    rewrite Hget in Hget'. injection Hget' as <-.
    rewrite (veto_winners_scores preferences first Hget Hnd Hprefs) in H.
    apply (winners_by_In _ _ _ H).
Qed.

Lemma veto_winners_spec_witness :
  exists winners,
    veto_winners [(1, [2; 1; 3]); (2, [1; 9]); (3, [3; 2; 7])] = Ok winners.
Proof.
  apply (proj2 (proj1 (veto_winners_spec [(1, [2; 1; 3]); (2, [1; 9]); (3, [3; 2; 7])]
                         [2; 1; 3] eq_refl
                         ltac:(repeat constructor; simpl; intuition discriminate)))).
  split; [discriminate|].
  intros pref [<- | [<- | [<- | []]]] a Ha; simpl in *; intuition.
Defined.

Lemma tally_ones_absent (l : list Z) (a : Z) :
  ~ In a l -> tally (map (fun x => (x, 1)) l) a = 0.
Proof.
  induction l as [|x l IH]; intros H; [reflexivity|].
  simpl map. rewrite tally_cons, IH by (simpl in H; tauto).
  destruct (Z.eqb_spec x a) as [-> | _]; [exfalso; apply H; now left | reflexivity].
Qed.

Lemma tally_ones_once (l : list Z) (a : Z) :
  NoDup l -> In a l -> tally (map (fun x => (x, 1)) l) a = 1.
Proof.
  induction 1 as [|x l Hx Hnd IH]; intros Ha; [contradiction|].
  simpl map. rewrite tally_cons.
  destruct (Z.eqb_spec x a) as [-> | Hne].
  - now rewrite tally_ones_absent.
  - destruct Ha as [Ha | Ha]; [contradiction|]. now rewrite IH.
Qed.

(** One ranking gives its point to every alternative it holds but the last. *)
Lemma veto_ballot_last (pref : list Z) (a : Z) :
  NoDup pref -> In a pref ->
  tally (map (fun x => (x, 1)) (removelast pref)) a
  = if is_last a pref then 0 else 1.
Proof.
  intros Hnd Ha. destruct pref as [|x p]; [contradiction|].
  assert (Heq : x :: p = removelast (x :: p) ++ [last (x :: p) 0])
    by (apply app_removelast_last; discriminate).
  unfold is_last. set (init := removelast (x :: p)) in *.
  set (l := last (x :: p) 0) in *. clearbody init l.
  rewrite Heq in Hnd, Ha.
  apply NoDup_remove in Hnd. rewrite app_nil_r in Hnd. destruct Hnd as [Hnd Hl].
  destruct (Z.eqb_spec l a) as [-> | Hne].
  - now apply tally_ones_absent.
  - apply tally_ones_once; [assumption|].
    apply in_app_or in Ha. destruct Ha as [Ha | [Ha | []]]; [assumption | congruence].
Qed.

Lemma veto_score_last_count (preferences : profile) (a : Z) :
  Forall (fun pref => NoDup pref /\ In a pref) (dict_values preferences) ->
  veto_score preferences a
  = Z.of_nat (length preferences) - last_count preferences a.
Proof.
  unfold veto_score, last_count.
  replace (length preferences) with (length (dict_values preferences))
    by (unfold dict_values; apply length_map).
  induction 1 as [|pref prefs [Hnd Ha] Hall IH]; [reflexivity|].
  cbn [flat_map filter]. rewrite tally_app, IH, (veto_ballot_last pref a Hnd Ha).
  cbn [length]. destruct (is_last a pref); cbn [length];
    rewrite ?Nat2Z.inj_succ; lia.
Qed.

(** X13: on a profile whose agents all rank, each once, the alternatives
    agent 1 ranks, [veto] computes a winners list, and the list holds exactly
    the alternatives that are last in the least number of rankings. *)
Theorem veto_least_often_last (preferences : profile) (first : list Z) :
  dict_get preferences 1 = Some first ->
  first <> [] ->
  NoDup first ->
  common_alternatives preferences first ->
  exists winners,
    veto_winners preferences = Ok winners
    /\ forall a, In a winners
                 <-> In a first
                     /\ forall b, In b first ->
                                  last_count preferences a <= last_count preferences b.
Proof.
  intros Hget Hne Hnd Hcommon.
  unfold common_alternatives in Hcommon. rewrite Forall_forall in Hcommon.
  assert (Hprefs : forall pref, In pref (dict_values preferences) ->
                                incl (removelast pref) first).
  { intros pref Hp a Ha. apply (Permutation_in _ (Hcommon pref Hp)).
    destruct pref as [|x p]; [contradiction|].
    rewrite (@app_removelast_last _ (x :: p) 0) by discriminate.
    apply in_or_app. now left. }
  assert (Hscore : forall a, In a first ->
                             veto_score preferences a
                             = Z.of_nat (length preferences) - last_count preferences a).
  { intros a Ha. apply veto_score_last_count. apply Forall_forall. intros pref Hp.
    split.
    - apply (Permutation_NoDup (Permutation_sym (Hcommon pref Hp)) Hnd).
    - now apply (Permutation_in _ (Permutation_sym (Hcommon pref Hp))). }
  destruct (winners_by_nonempty (veto_score preferences) first Hne) as [w [Hw _]].
  exists w. rewrite (veto_winners_scores preferences first Hget Hnd Hprefs).
  split; [assumption|]. intros a. rewrite (winners_by_In _ _ _ Hw a). split.
  - intros [Ha Hbest]. split; [assumption|]. intros b Hb.
    specialize (Hbest b Hb). rewrite (Hscore a Ha), (Hscore b Hb) in Hbest. lia.
  - intros [Ha Hbest]. split; [assumption|]. intros b Hb.
    specialize (Hbest b Hb). rewrite (Hscore a Ha), (Hscore b Hb). lia.
Qed.

Lemma veto_least_often_last_witness :
  exists winners,
    veto_winners [(1, [2; 1; 3]); (2, [1; 2; 3]); (3, [1; 3; 2])] = Ok winners
    /\ forall a, In a winners
                 <-> In a [2; 1; 3]
                     /\ forall b, In b [2; 1; 3] ->
                                  last_count [(1, [2; 1; 3]); (2, [1; 2; 3]); (3, [1; 3; 2])] a
                                  <= last_count [(1, [2; 1; 3]); (2, [1; 2; 3]); (3, [1; 3; 2])] b.
Proof.
  apply (veto_least_often_last [(1, [2; 1; 3]); (2, [1; 2; 3]); (3, [1; 3; 2])]
           [2; 1; 3] eq_refl).
  - discriminate.
  - repeat constructor; simpl; intuition discriminate.
  - repeat apply Forall_cons; [apply Permutation_refl | apply perm_swap | | apply Forall_nil].
    simpl. apply (Permutation_cons_app [2] [3]), perm_swap.
Defined.

(** ** Rules on a complete profile, and on the profile built from a table *)

Lemma dict_get_map {V : Type} (f : Z -> V) (keys : list Z) (k : Z) :
  dict_get (map (fun k => (k, f k)) keys) k
  = if mem k keys then Some (f k) else None.
Proof.
  induction keys as [|x keys IH]; simpl; [reflexivity|].
  destruct (Z.eqb_spec k x) as [-> | Hne]; simpl; [reflexivity | exact IH].
Qed.

Lemma profile_getitem_In (preferences : profile) (key : pyval) (ranking : list Z) :
  profile_getitem preferences key = Ok ranking ->
  In ranking (dict_values preferences).
Proof.
  destruct key as [s | k]; simpl; [discriminate|]. unfold dict_getitem.
  destruct (dict_get preferences k) as [r|] eqn:E; [|discriminate].
  intros [= <-]. apply dict_get_In in E.
  change r with (snd (k, r)). now apply in_map.
Qed.

Lemma winners_by_incl (score : Z -> Z) (keys winners : list Z) :
  winners_by score keys = Ok winners -> incl winners keys.
Proof.
  intros H a Ha. now apply (winners_by_In _ _ _ H a) in Ha.
Qed.

(** On a complete profile the resolver always has a winner to answer with. *)
Lemma full_profile_resolved (rnd : nat) (preferences : profile) (m : nat)
    (tie_break : pyval) (computed : result (list Z)) (winners : list Z) :
  full_profile preferences m ->
  recognized_policy preferences tie_break = true ->
  computed = Ok winners ->
  winners <> [] ->
  incl winners (range 1 m) ->
  exists a, bind computed (tie_break_function rnd preferences tie_break) = Ok (Some a)
            /\ In a (range 1 m).
Proof.
  intros Hfull Hrec -> Hne Hincl. simpl.
  destruct (tie_break_returns_winner rnd preferences tie_break winners Hne Hrec)
    as [a [Ha Hin]].
  - intros ranking Hr. apply profile_getitem_In in Hr.
    unfold full_profile in Hfull. rewrite Forall_forall in Hfull.
    destruct winners as [|w ws]; [congruence|]. exists w. split; [|now left].
    apply (Permutation_in _ (Permutation_sym (Hfull ranking Hr))).
    apply Hincl. now left.
  - exists a. auto.
Qed.

Lemma full_profile_rules (rnd : nat) (preferences : profile) (first : list Z)
    (score_vector : list Z) (tie_break : pyval) :
  dict_get preferences 1 = Some first ->
  first <> [] ->
  full_profile preferences (length first) ->
  length score_vector = length first ->
  recognized_policy preferences tie_break = true ->
  (exists a, scoring_rule rnd preferences score_vector tie_break = Ok (Some a)
             /\ In a (range 1 (length first)))
  /\ (exists a, plurality rnd preferences tie_break = Ok (Some a)
                /\ In a (range 1 (length first)))
  /\ (exists a, veto rnd preferences tie_break = Ok (Some a)
                /\ In a (range 1 (length first)))
  /\ (exists a, borda rnd preferences tie_break = Ok (Some a)
                /\ In a (range 1 (length first))).
Proof.
  intros Hget Hne Hfull Hlen Hrec.
  pose proof (full_profile_first preferences first Hget Hfull) as Hperm.
  pose proof (full_profile_NoDup preferences first Hget Hfull) as Hnd.
  pose proof (full_profile_incl_first preferences first Hget Hfull) as Hincl.
  assert (Hrange : range 1 (length first) <> []).
  { intros Hnil. apply (f_equal (@length Z)) in Hnil. rewrite range_length in Hnil.
    destruct first; [congruence | discriminate]. }
  assert (Hfirst : incl first (range 1 (length first))).
  { intros a Ha. now apply (Permutation_in _ Hperm). }
  repeat split.
  - destruct (winners_by_nonempty
                (tally (profile_points (fun i => nth i score_vector 0) preferences))
                (range 1 (length first)) Hrange) as [w [Hw Hwne]].
    apply (full_profile_resolved rnd preferences (length first) tie_break _ w Hfull Hrec);
      [|assumption | now apply winners_by_incl in Hw].
    now rewrite (full_profile_scoring preferences first Hget Hfull score_vector Hlen).
  - assert (Hall : Forall (fun pref => pref <> []) (dict_values preferences)).
    { apply Forall_forall. intros pref Hp ->.
      pose proof (full_profile_length preferences first Hfull [] Hp) as Hl.
      destruct first; [congruence | discriminate]. }
    destruct (plurality_winners_tops preferences Hall) as [tops [_ [Htops Heq]]].
    assert (Htne : tops <> []).
    { intros Hnil. destruct first as [|top rest]; [congruence|].
      assert (Hin : In top tops).
      { apply Htops. exists (top :: rest). split; [|reflexivity].
        apply dict_get_In in Hget. change (top :: rest) with (snd (1, top :: rest)).
        now apply in_map. }
      rewrite Hnil in Hin. contradiction. }
    destruct (winners_by_nonempty (top_count preferences) tops Htne) as [w [Hw Hwne]].
    apply (full_profile_resolved rnd preferences (length first) tie_break _ w Hfull Hrec);
      [congruence | assumption|].
    intros a Ha. apply (winners_by_incl _ _ _ Hw), Htops in Ha.
    destruct Ha as [pref [Hp Hhd]].
    apply (Permutation_in _ (full_profile_pref preferences first Hfull pref Hp)).
    destruct pref; [discriminate|]. injection Hhd as ->. now left.
  - destruct (winners_by_nonempty
                (tally (flat_map (fun pref => map (fun a => (a, 1)) (removelast pref))
                                 (dict_values preferences)))
                first Hne) as [w [Hw Hwne]].
    apply (full_profile_resolved rnd preferences (length first) tie_break _ w Hfull Hrec);
      [|assumption|].
    + now rewrite (veto_winners_points preferences first Hget Hnd Hincl).
    + intros a Ha. now apply Hfirst, (winners_by_incl _ _ _ Hw).
  - destruct (winners_by_nonempty
                (tally (profile_points
                          (fun i => Z.of_nat (length first) - Z.of_nat i) preferences))
                first Hne) as [w [Hw Hwne]].
    apply (full_profile_resolved rnd preferences (length first) tie_break _ w Hfull Hrec);
      [|assumption|].
    + now rewrite (borda_winners_points preferences first Hget Hnd Hincl).
    + intros a Ha. now apply Hfirst, (winners_by_incl _ _ _ Hw).
Qed.

(** X14: on a profile in which every agent ranks all of [1..m], with
    [m >= 1], the rules [scoring_rule] (with a vector of length [m]),
    [plurality], [veto] and [borda] return an alternative of [1..m] under
    every keyword and every agent of the profile: they neither raise nor
    return [None]. *)
Theorem complete_profile_rules_return (rnd : nat) (preferences : profile)
    (first : list Z) (score_vector : list Z) (tie_break : pyval) :
  dict_get preferences 1 = Some first ->
  first <> [] ->
  full_profile preferences (length first) ->
  length score_vector = length first ->
  recognized_policy preferences tie_break = true ->
  (exists a, scoring_rule rnd preferences score_vector tie_break = Ok (Some a)
             /\ In a (range 1 (length first)))
  /\ (exists a, plurality rnd preferences tie_break = Ok (Some a)
                /\ In a (range 1 (length first)))
  /\ (exists a, veto rnd preferences tie_break = Ok (Some a)
                /\ In a (range 1 (length first)))
  /\ (exists a, borda rnd preferences tie_break = Ok (Some a)
                /\ In a (range 1 (length first))).
Proof. apply full_profile_rules. Qed.

Lemma complete_profile_rules_return_witness :
  (exists a, scoring_rule 0 [(1, [2; 1]); (2, [1; 2])] [4; 1] (PInt 2) = Ok (Some a)
             /\ In a (range 1 2))
  /\ (exists a, plurality 0 [(1, [2; 1]); (2, [1; 2])] (PInt 2) = Ok (Some a)
                /\ In a (range 1 2))
  /\ (exists a, veto 0 [(1, [2; 1]); (2, [1; 2])] (PInt 2) = Ok (Some a)
                /\ In a (range 1 2))
  /\ (exists a, borda 0 [(1, [2; 1]); (2, [1; 2])] (PInt 2) = Ok (Some a)
                /\ In a (range 1 2)).
Proof.
  apply (complete_profile_rules_return 0 [(1, [2; 1]); (2, [1; 2])] [2; 1] [4; 1]
           (PInt 2) eq_refl); try reflexivity; try discriminate.
  repeat apply Forall_cons; [apply perm_swap | apply Permutation_refl | apply Forall_nil].
Defined.

Lemma built_profile_get (values : table) (row : Z) :
  In row (range 1 (max_row values)) ->
  dict_get (generate_preferences values) row
  = Some (rank_values (row_values values row)).
Proof.
  intros H. rewrite generate_preferences_rows.
  rewrite (dict_get_map (fun row => rank_values (row_values values row))).
  apply mem_In in H. now rewrite H.
Qed.

Lemma built_profile_contains (values : table) (k : Z) :
  contains (generate_preferences values) (PInt k) = true
  <-> 1 <= k <= Z.of_nat (max_row values).
Proof.
  simpl. rewrite generate_preferences_rows.
  rewrite (dict_get_map (fun row => rank_values (row_values values row))).
  destruct (mem k (range 1 (max_row values))) eqn:E.
  - apply mem_In, range_In in E. split; [lia | reflexivity].
  - apply mem_false in E. rewrite range_In in E. split; [discriminate | lia].
Qed.

Lemma built_profile_full (values : table) :
  full_profile (generate_preferences values) (max_column values).
Proof.
  unfold full_profile. rewrite generate_preferences_rows.
  apply Forall_forall. intros pref Hp. unfold dict_values in Hp.
  rewrite map_map in Hp. simpl in Hp. apply in_map_iff in Hp.
  destruct Hp as [row [<- _]]. apply rank_row.
Qed.

Lemma built_profile_policy (values : table) (tie_break : pyval) :
  keyword_policy tie_break = true
  \/ (exists k, tie_break = PInt k /\ 1 <= k <= Z.of_nat (max_row values)) ->
  recognized_policy (generate_preferences values) tie_break = true.
Proof.
  unfold recognized_policy, keyword_policy. intros [H | [k [-> Hk]]].
  - rewrite H. reflexivity.
  - apply built_profile_contains in Hk. rewrite Hk. apply orb_true_r.
Qed.

Lemma built_profile_first (values : table) :
  (1 <= max_row values)%nat ->
  exists first,
    dict_get (generate_preferences values) 1 = Some first
    /\ length first = max_column values.
Proof.
  intros Hrow. eexists. split.
  - apply built_profile_get. apply range_In. lia.
  - rewrite (Permutation_length (proj1 (rank_row values 1))). apply range_length.
Qed.

(** X15: building the profile of a table with at least one row and one
    column and running [scoring_rule] (with one weight per column),
    [plurality], [veto] or [borda] on it returns a column index of
    [1..max_column], under every keyword and every row index as the policy;
    the rows are the agents of the profile. *)
Theorem built_profile_rules_return (rnd : nat) (values : table)
    (score_vector : list Z) (tie_break : pyval) :
  (1 <= max_row values)%nat ->
  (1 <= max_column values)%nat ->
  length score_vector = max_column values ->
  keyword_policy tie_break = true
  \/ (exists k, tie_break = PInt k /\ 1 <= k <= Z.of_nat (max_row values)) ->
  dict_keys (generate_preferences values) = range 1 (max_row values)
  /\ (exists a, scoring_rule rnd (generate_preferences values) score_vector tie_break
                = Ok (Some a) /\ In a (range 1 (max_column values)))
  /\ (exists a, plurality rnd (generate_preferences values) tie_break = Ok (Some a)
                /\ In a (range 1 (max_column values)))
  /\ (exists a, veto rnd (generate_preferences values) tie_break = Ok (Some a)
                /\ In a (range 1 (max_column values)))
  /\ (exists a, borda rnd (generate_preferences values) tie_break = Ok (Some a)
                /\ In a (range 1 (max_column values))).
Proof.
  intros Hrow Hcol Hlen Hpolicy.
  destruct (built_profile_first values Hrow) as [first [Hget Hfirst]].
  split.
  - rewrite generate_preferences_rows. unfold dict_keys. rewrite map_map. apply map_id.
  - rewrite <- Hfirst.
    apply (full_profile_rules rnd (generate_preferences values) first score_vector
             tie_break Hget).
    + intros ->. simpl in Hfirst. lia.
    + rewrite Hfirst. apply built_profile_full.
    + congruence.
    + now apply built_profile_policy.
Qed.

Lemma built_profile_rules_return_witness :
  let values := {| max_row := 2; max_column := 3;
                   cell := fun row col => if row =? 1 then (if col =? 2 then 5 else 3)
                                          else col |} in
  dict_keys (generate_preferences values) = range 1 2
  /\ (exists a, scoring_rule 0 (generate_preferences values) [2; 1; 0] (PInt 2)
                = Ok (Some a) /\ In a (range 1 3))
  /\ (exists a, plurality 0 (generate_preferences values) (PInt 2) = Ok (Some a)
                /\ In a (range 1 3))
  /\ (exists a, veto 0 (generate_preferences values) (PInt 2) = Ok (Some a)
                /\ In a (range 1 3))
  /\ (exists a, borda 0 (generate_preferences values) (PInt 2) = Ok (Some a)
                /\ In a (range 1 3)).
Proof.
  apply (built_profile_rules_return 0
           {| max_row := 2; max_column := 3;
              cell := fun row col => if row =? 1 then (if col =? 2 then 5 else 3)
                                     else col |}
           [2; 1; 0] (PInt 2)); simpl; try lia.
  right. exists 2. split; [reflexivity | lia].
Defined.

(** ** Range voting *)

Lemma range_voting_winners_sums (values : table) :
  range_voting_winners values
  = winners_by (column_sum values) (range 1 (max_column values)).
Proof.
  unfold range_voting_winners.
  rewrite (fold_set_fresh (column_sum values))
    by (apply range_NoDup || (intros ? ? [])).
  simpl. apply winners_of_scores.
Qed.

(** X16: [range_voting] gets as far as a winners list exactly when the
    table has a column; the list then holds exactly the columns whose sum
    over the rows is the greatest.  On a table without columns the rule
    raises the [ValueError] of [max] on an empty argument, whatever the
    policy is. *)
Theorem range_voting_winners_spec (values : table) :
  ((exists winners, range_voting_winners values = Ok winners)
   <-> (1 <= max_column values)%nat)
  /\ (forall winners,
         range_voting_winners values = Ok winners ->
         forall a, In a winners
                   <-> In a (range 1 (max_column values))
                       /\ forall b, In b (range 1 (max_column values)) ->
                                    column_sum values b <= column_sum values a)
  /\ (max_column values = 0%nat ->
      forall rnd tie_break,
        range_voting rnd values tie_break = Raise (ValueError (EmptyArg "max"))).
Proof.
  rewrite range_voting_winners_sums. split; [split|split].
  - intros [w Hw]. destruct (max_column values); [|lia].
    vm_compute in Hw. discriminate.
  - intros Hcol.
    destruct (winners_by_nonempty (column_sum values) (range 1 (max_column values)))
      as [w [Hw _]]; [|now exists w].
    intros Hnil. apply (f_equal (@length Z)) in Hnil. rewrite range_length in Hnil.
    simpl in Hnil. lia.
  - intros winners H. apply (winners_by_In _ _ _ H).
  - intros Hcol rnd tie_break. unfold range_voting.
    rewrite range_voting_winners_sums, Hcol. reflexivity.
Qed.

(** X17: on a table with at least one column, [range_voting] returns a
    column index of [1..max_column] under every keyword and every row index
    as the policy. *)
Theorem range_voting_returns (rnd : nat) (values : table) (tie_break : pyval) :
  (1 <= max_column values)%nat ->
  keyword_policy tie_break = true
  \/ (exists k, tie_break = PInt k /\ 1 <= k <= Z.of_nat (max_row values)) ->
  exists a, range_voting rnd values tie_break = Ok (Some a)
            /\ In a (range 1 (max_column values)).
Proof.
  intros Hcol Hpolicy. unfold range_voting.
  destruct (winners_by_nonempty (column_sum values) (range 1 (max_column values)))
    as [w [Hw Hne]].
  { intros Hnil. apply (f_equal (@length Z)) in Hnil. rewrite range_length in Hnil.
    simpl in Hnil. lia. }
  apply (full_profile_resolved rnd (generate_preferences values) (max_column values)
           tie_break _ w).
  - apply built_profile_full.
  - now apply built_profile_policy.
  - now rewrite range_voting_winners_sums.
  - assumption.
  - now apply winners_by_incl in Hw.
Qed.

Lemma range_voting_returns_witness :
  exists a,
    range_voting 0 {| max_row := 2; max_column := 3;
                      cell := fun row col => if row =? 1 then (if col =? 2 then 5 else 3)
                                             else col |} (PInt 1) = Ok (Some a)
    /\ In a (range 1 3).
Proof.
  apply (range_voting_returns 0
           {| max_row := 2; max_column := 3;
              cell := fun row col => if row =? 1 then (if col =? 2 then 5 else 3)
                                     else col |} (PInt 1)); simpl; [lia|].
  right. exists 1. split; [reflexivity | lia].
Defined.

(** ** What [STV] does to the profile, and whom it elects *)

Lemma filter_none {A : Type} (f : A -> bool) (l : list A) :
  (forall x, In x l -> f x = false) -> filter f l = [].
Proof.
  induction l as [|y l IH]; intros H; simpl; [reflexivity|].
  rewrite (H y (or_introl eq_refl)). apply IH. intros x Hx. apply H. now right.
Qed.

Lemma filter_all {A : Type} (f : A -> bool) (l : list A) :
  (forall x, In x l -> f x = true) -> filter f l = l.
Proof.
  induction l as [|y l IH]; intros H; simpl; [reflexivity|].
  rewrite (H y (or_introl eq_refl)). f_equal. apply IH. intros x Hx. apply H. now right.
Qed.

Lemma filter_twice {A : Type} (f g : A -> bool) (l : list A) :
  filter f (filter g l) = filter (fun x => g x && f x) l.
Proof.
  induction l as [|y l IH]; simpl; [reflexivity|].
  destruct (g y); simpl; [destruct (f y)|]; now rewrite IH.
Qed.

Lemma remove_first_filter (x : Z) (l : list Z) :
  NoDup l -> remove_first x l = filter (fun a => negb (a =? x)) l.
Proof.
  induction 1 as [|y l Hy Hnd IH]; simpl; [reflexivity|].
  rewrite (Z.eqb_sym y x). destruct (Z.eqb_spec x y) as [-> | Hne]; simpl.
  - rewrite <- IH. symmetry. now apply remove_first_absent.
  - now rewrite IH.
Qed.

Lemma strike_filter (eliminated l : list Z) :
  NoDup l -> strike eliminated l = filter (fun a => negb (mem a eliminated)) l.
Proof.
  rewrite strike_fold. revert l.
  induction eliminated as [|x eliminated IH]; intros l Hnd; simpl.
  - symmetry. apply filter_all. reflexivity.
  - rewrite remove_first_filter by assumption.
    rewrite IH by now apply NoDup_filter.
    rewrite filter_twice. apply filter_ext. intros a.
    rewrite negb_orb. reflexivity.
Qed.

Lemma restrict_all (live : list Z) (preferences : profile) :
  (forall pref, In pref (dict_values preferences) -> incl pref live) ->
  restrict live preferences = preferences.
Proof.
  intros H. unfold restrict. rewrite <- (map_id preferences) at 2.
  apply map_ext_in. intros [agent pref] Hin. simpl. f_equal.
  apply filter_all. intros a Ha. apply mem_In.
  apply (H pref); [|assumption]. change pref with (snd (agent, pref)).
  now apply in_map.
Qed.

(** A round on the restricted profile leaves the profile restricted to the
    new live set. *)
Lemma STV_round_restrict (alternatives : list Z) (preferences : profile) :
  NoDup alternatives ->
  alternatives <> [] ->
  Forall (@NoDup Z) (dict_values preferences) ->
  exists live least,
    STV_round alternatives (restrict alternatives preferences)
    = (Ok live, restrict live preferences)
    /\ live = filter (fun a => negb (top_count (restrict alternatives preferences) a
                                     =? least)) alternatives
    /\ (forall a, In a alternatives ->
                  least <= top_count (restrict alternatives preferences) a)
    /\ NoDup live
    /\ (length live < length alternatives)%nat.
Proof.
  intros Hnd Hne Hprefs.
  destruct (STV_round_spec alternatives (restrict alternatives preferences) Hnd Hne)
    as [least [[a [Ha Hleast]] [Hmin Hround]]].
  set (tc := top_count (restrict alternatives preferences)) in *.
  exists (filter (fun a => negb (tc a =? least)) alternatives), least.
  rewrite Hround. repeat split; try assumption.
  - apply f_equal. unfold restrict. rewrite map_map.
    apply map_ext_in. intros [agent pref] Hin. simpl. f_equal.
    rewrite strike_filter.
    + rewrite filter_twice. apply filter_ext. intros b.
      destruct (mem b alternatives) eqn:Eb; simpl.
      * apply mem_In in Eb. destruct (tc b =? least) eqn:Et; simpl.
        -- transitivity false; [|symmetry].
           ++ apply negb_false_iff, mem_In, filter_In. auto.
           ++ apply mem_false. rewrite filter_In, Et. intros [_ H]. discriminate.
        -- transitivity true; [|symmetry].
           ++ apply negb_true_iff, mem_false. rewrite filter_In, Et.
              intros [_ H]. discriminate.
           ++ apply mem_In, filter_In. rewrite Et. auto.
      * symmetry. apply mem_false. rewrite filter_In.
        apply mem_false in Eb. tauto.
    + apply NoDup_filter. rewrite Forall_forall in Hprefs. apply Hprefs.
      change pref with (snd (agent, pref)). now apply in_map.
  - now apply NoDup_filter.
  - apply filter_length_lt with (x := a); [assumption|].
    apply Z.eqb_eq in Hleast. now rewrite Hleast.
Qed.

(** The loop on the restricted profile leaves the profile restricted to the
    alternatives that stay live. *)
Lemma STV_loop_restrict (fuel : nat) :
  forall (alternatives : list Z) (preferences : profile) rounds live final,
    NoDup alternatives ->
    Forall (@NoDup Z) (dict_values preferences) ->
    STV_loop fuel alternatives (restrict alternatives preferences)
    = Some (Ok (rounds, live), final) ->
    final = restrict live preferences.
Proof.
  induction fuel as [|fuel IH]; intros alternatives preferences rounds live final
    Hnd Hprefs; simpl.
  - destruct (1 <? length alternatives)%nat; [discriminate|]. now intros [= _ <- <-].
  - destruct (Nat.ltb_spec 1 (length alternatives)) as [Hgt | Hle];
      [|now intros [= _ <- <-]].
    destruct (STV_round_restrict alternatives preferences Hnd) as
      [live1 [least [Hround [_ [_ [Hnd1 _]]]]]]; [|assumption|].
    { destruct alternatives; [simpl in Hgt; lia | discriminate]. }
    rewrite Hround.
    destruct (STV_loop fuel live1 (restrict live1 preferences))
      as [[[[r l] | e] f] |] eqn:Eloop; try discriminate.
    intros [= _ <- <-]. now apply (IH live1 preferences r l f).
Qed.

(** X18: [STV] on a profile whose agents all rank, each once, the
    alternatives agent 1 ranks leaves every ranking cut down to the
    alternatives that stayed live, in their original order: every ranking
    ends as the one-element list of the survivor, or empty when a round
    struck all that was left. *)
Theorem STV_final_profile (preferences : profile) (first : list Z) :
  dict_get preferences 1 = Some first ->
  NoDup first ->
  common_alternatives preferences first ->
  exists live final,
    STV_winners preferences = Some (Ok live, final)
    /\ (length live <= 1)%nat
    /\ final = restrict live preferences
    /\ Forall (fun pref => pref = live) (dict_values final).
Proof.
  intros Hget Hnd Hcommon.
  unfold common_alternatives in Hcommon. rewrite Forall_forall in Hcommon.
  destruct (STV_winners_spec preferences first Hget)
    as [rounds [live [final [Hloop [Hw [_ [Hlen [Hincl _]]]]]]]].
  assert (Hset : forall a, In a (set_of_list first) <-> In a first).
  { intros a. unfold set_of_list. apply nodup_In. }
  assert (Hfinal : final = restrict live preferences).
  { apply (STV_loop_restrict (length (set_of_list first)) (set_of_list first)
             preferences rounds live final).
    - apply NoDup_nodup.
    - apply Forall_forall. intros pref Hp.
      apply (Permutation_NoDup (Permutation_sym (Hcommon pref Hp)) Hnd).
    - rewrite restrict_all; [assumption|].
      intros pref Hp a Ha. apply Hset. now apply (Permutation_in _ (Hcommon pref Hp)). }
  exists live, final. repeat split; try assumption.
  rewrite Hfinal. apply Forall_forall. intros pref Hp.
  unfold restrict, dict_values in Hp. rewrite map_map in Hp. simpl in Hp.
  apply in_map_iff in Hp. destruct Hp as [[agent r] [<- Hin]]. simpl.
  assert (Hr : In r (dict_values preferences)).
  { change r with (snd (agent, r)). now apply in_map. }
  destruct live as [|w [|w' ws]]; simpl in Hlen; [| |lia].
  - clear. induction r; [reflexivity | exact IHr].
  - assert (Hwr : In w r).
    { apply (Permutation_in _ (Permutation_sym (Hcommon r Hr))). apply Hincl. now left. }
    assert (Hndr : NoDup r)
      by apply (Permutation_NoDup (Permutation_sym (Hcommon r Hr)) Hnd).
    clear - Hwr Hndr. induction Hndr as [|x r Hx Hndr IH]; [contradiction|].
    simpl. rewrite orb_false_r. destruct (Z.eqb_spec x w) as [-> | Hne].
    + f_equal. apply filter_none. intros y Hy. simpl. rewrite orb_false_r.
      apply Z.eqb_neq. intros ->. contradiction.
    + destruct Hwr as [Hw | Hw]; [contradiction | now apply IH].
Qed.

Lemma STV_final_profile_witness :
  exists live final,
    STV_winners [(1, [2; 1; 3]); (2, [1; 2; 3]); (3, [1; 3; 2])] = Some (Ok live, final)
    /\ (length live <= 1)%nat
    /\ final = restrict live [(1, [2; 1; 3]); (2, [1; 2; 3]); (3, [1; 3; 2])]
    /\ Forall (fun pref => pref = live) (dict_values final).
Proof.
  apply (STV_final_profile [(1, [2; 1; 3]); (2, [1; 2; 3]); (3, [1; 3; 2])]
           [2; 1; 3] eq_refl).
  - repeat constructor; simpl; intuition discriminate.
  - repeat apply Forall_cons; [apply Permutation_refl | apply perm_swap | | apply Forall_nil].
    simpl. apply (Permutation_cons_app [2] [3]), perm_swap.
Defined.

(** X19: the tie-break policy never decides an [STV] election.  When agent 1
    is in the profile, either one alternative of agent 1's ranking survives
    and [STV] returns it under every policy, known or not, or no alternative
    is left live. *)
Theorem STV_policy_independent (preferences : profile) (first : list Z) :
  dict_get preferences 1 = Some first ->
  (exists w final,
      In w first
      /\ forall rnd tie_break,
          STV rnd preferences tie_break = Some (Ok (Some w), final))
  \/ (exists final, STV_winners preferences = Some (Ok [], final)).
Proof.
  intros Hget.
  destruct (STV_winners_spec preferences first Hget)
    as [rounds [live [final [_ [Hw [_ [Hlen [Hincl _]]]]]]]].
  destruct live as [|w [|w' ws]]; simpl in Hlen; [| |lia].
  - right. now exists final.
  - left. exists w, final. split; [apply Hincl; now left|].
    intros rnd tie_break. unfold STV. rewrite Hw. reflexivity.
Qed.

Lemma STV_policy_independent_witness :
  (exists w final,
      In w [2; 1; 3]
      /\ forall rnd tie_break,
          STV rnd [(1, [2; 1; 3]); (2, [1; 2; 3]); (3, [1; 3; 2])] tie_break
          = Some (Ok (Some w), final))
  \/ (exists final,
         STV_winners [(1, [2; 1; 3]); (2, [1; 2; 3]); (3, [1; 3; 2])]
         = Some (Ok [], final)).
Proof.
  exact (STV_policy_independent [(1, [2; 1; 3]); (2, [1; 2; 3]); (3, [1; 3; 2])]
           [2; 1; 3] eq_refl).
Defined.

Lemma count_tops_restrict (live : list Z) (prefs : profile) (a : Z) :
  In a live -> top_count prefs a <= top_count (restrict live prefs) a.
Proof.
  intros Ha. unfold top_count, restrict, dict_values. rewrite map_map. simpl.
  induction prefs as [|[agent pref] prefs IH]; [reflexivity|].
  simpl map. rewrite !count_tops_cons. simpl snd.
  assert (Hstep : (if is_top a pref then 1 else 0)
                  <= (if is_top a (filter (fun x => mem x live) pref) then 1 else 0)).
  { destruct pref as [|top rest]; simpl; [lia|].
    destruct (Z.eqb_spec top a) as [-> | Hne].
    - apply mem_In in Ha. rewrite Ha. simpl. rewrite Z.eqb_refl. lia.
    - destruct (is_top a (if mem top live then top :: _ else _)); lia. }
  lia.
Qed.

Lemma restrict_length (live : list Z) (prefs : profile) :
  length (dict_values (restrict live prefs)) = length prefs.
Proof. unfold restrict, dict_values. now rewrite !length_map. Qed.

(** An alternative that heads more than half of the rankings is never
    struck. *)
Lemma STV_loop_majority (a : Z) (preferences : profile) (fuel : nat) :
  Z.of_nat (length preferences) < 2 * top_count preferences a ->
  Forall (@NoDup Z) (dict_values preferences) ->
  forall alternatives rounds live final,
    NoDup alternatives ->
    In a alternatives ->
    STV_loop fuel alternatives (restrict alternatives preferences)
    = Some (Ok (rounds, live), final) ->
    In a live.
Proof.
  intros Hmaj Hprefs.
  induction fuel as [|fuel IH]; intros alternatives rounds live final Hnd Ha; simpl.
  - destruct (1 <? length alternatives)%nat; [discriminate|]. now intros [= _ <- _].
  - destruct (Nat.ltb_spec 1 (length alternatives)) as [Hgt | Hle];
      [|now intros [= _ <- _]].
    destruct (STV_round_restrict alternatives preferences Hnd) as
      [live1 [least [Hround [Hlive1 [Hmin [Hnd1 _]]]]]]; [|assumption|].
    { destruct alternatives; [simpl in Hgt; lia | discriminate]. }
    rewrite Hround.
    assert (Ha1 : In a live1).
    { rewrite Hlive1. apply filter_In. split; [assumption|].
      apply negb_true_iff, Z.eqb_neq.
      assert (Hb : exists b, In b alternatives /\ b <> a).
      { destruct alternatives as [|x [|y rest]]; simpl in Hgt; try lia.
        inversion Hnd as [|? ? Hx _]; subst.
        destruct (Z.eq_dec x a) as [-> | Hxa].
        - exists y. split; [right; now left|]. intros ->. apply Hx. now left.
        - exists x. split; [now left | assumption]. }
      destruct Hb as [b [Hb Hba]].
      pose proof (count_tops_disjoint (dict_values (restrict alternatives preferences))
                    a b (fun H => Hba (eq_sym H))) as Hd.
      rewrite restrict_length in Hd.
      pose proof (count_tops_restrict alternatives preferences a Ha) as Hge.
      specialize (Hmin b Hb). unfold top_count in *. lia. }
    destruct (STV_loop fuel live1 (restrict live1 preferences))
      as [[[[r l] | e] f] |] eqn:Eloop; try discriminate.
    intros [= _ <- _]. now apply (IH live1 r l f).
Qed.

(** X20: on a profile whose agents all rank, each once, the alternatives
    agent 1 ranks, an alternative that heads more than half of the rankings
    is what [STV] returns, under every tie-break policy, and every ranking is
    left as the one-element list of that alternative. *)
Theorem STV_majority (rnd : nat) (preferences : profile) (first : list Z)
    (tie_break : pyval) (a : Z) :
  dict_get preferences 1 = Some first ->
  NoDup first ->
  common_alternatives preferences first ->
  Z.of_nat (length preferences) < 2 * top_count preferences a ->
  STV rnd preferences tie_break = Some (Ok (Some a), restrict [a] preferences).
Proof.
  intros Hget Hnd Hcommon Hmaj.
  unfold common_alternatives in Hcommon. rewrite Forall_forall in Hcommon.
  assert (Hprefs : Forall (@NoDup Z) (dict_values preferences)).
  { apply Forall_forall. intros pref Hp.
    apply (Permutation_NoDup (Permutation_sym (Hcommon pref Hp)) Hnd). }
  assert (Hset : forall b, In b (set_of_list first) <-> In b first).
  { intros b. unfold set_of_list. apply nodup_In. }
  assert (Hall : restrict (set_of_list first) preferences = preferences).
  { apply restrict_all. intros pref Hp b Hb. apply Hset.
    now apply (Permutation_in _ (Hcommon pref Hp)). }
  assert (Ha : In a (set_of_list first)).
  { apply Hset. assert (Hpos : 0 < top_count preferences a) by lia.
    apply top_ranked_count in Hpos. destruct Hpos as [pref [Hp Hhd]].
    apply (Permutation_in _ (Hcommon pref Hp)).
    destruct pref; [discriminate|]. injection Hhd as ->. now left. }
  destruct (STV_winners_spec preferences first Hget)
    as [rounds [live [final [Hloop [Hw [_ [Hlen _]]]]]]].
  rewrite <- Hall in Hloop.
  pose proof (STV_loop_majority a preferences (length (set_of_list first)) Hmaj Hprefs
                (set_of_list first) rounds live final (NoDup_nodup _ _) Ha Hloop)
    as Hlive.
  pose proof (STV_loop_restrict (length (set_of_list first)) (set_of_list first)
                preferences rounds live final (NoDup_nodup _ _) Hprefs Hloop)
    as Hfinal.
  destruct live as [|w [|w' ws]]; simpl in Hlen; [contradiction | |lia].
  destruct Hlive as [-> | []].
  unfold STV. rewrite Hw, Hfinal. reflexivity.
Qed.

Lemma STV_majority_witness :
  STV 0 [(1, [2; 1; 3]); (2, [1; 2; 3]); (3, [1; 3; 2])] (PStr "min")
  = Some (Ok (Some 1),
          restrict [1] [(1, [2; 1; 3]); (2, [1; 2; 3]); (3, [1; 3; 2])]).
Proof.
  apply (STV_majority 0 [(1, [2; 1; 3]); (2, [1; 2; 3]); (3, [1; 3; 2])] [2; 1; 3]
           (PStr "min") 1 eq_refl).
  - repeat constructor; simpl; intuition discriminate.
  - repeat apply Forall_cons; [apply Permutation_refl | apply perm_swap | | apply Forall_nil].
    simpl. apply (Permutation_cons_app [2] [3]), perm_swap.
  - reflexivity.
Defined.

(** ** Harmonic, dictatorship and degenerate tables *)

Lemma dict_set_nonempty {V : Type} (d : dict V) (k : Z) (v : V) : dict_set d k v <> [].
Proof.
  destruct d as [|[k0 v0] d]; simpl; [discriminate|].
  destruct (k =? k0); discriminate.
Qed.

Lemma fold_dict_set_nil {X V : Type} (key : X -> Z) (val : dict V -> X -> V)
    (l : list X) (d : dict V) :
  fold_left (fun d x => dict_set d (key x) (val d x)) l d = [] <-> l = [] /\ d = [].
Proof.
  revert d. induction l as [|x l IH]; intros d; simpl.
  - tauto.
  - rewrite IH. split.
    + intros [_ H]. now apply dict_set_nonempty in H.
    + intros [H _]. discriminate.
Qed.

Lemma harmonic_scores_nil (prefs : list (list Z)) (scores : dict float) :
  fold_left (fun scores pref =>
               fold_left (fun scores ia =>
                            dict_set scores (snd ia)
                              (PrimFloat.add
                                 (dict_get_default scores (snd ia) PrimFloat.zero)
                                 (PrimFloat.div PrimFloat.one
                                                (float_of_nat (fst ia + 1)))))
                         (enumerate 0 pref) scores)
            prefs scores = []
  <-> Forall (fun pref => pref = []) prefs /\ scores = [].
Proof.
  revert scores. induction prefs as [|pref prefs IH]; intros scores; simpl.
  - split; [intros ->; auto | tauto].
  - rewrite IH.
    rewrite (fold_dict_set_nil (fun ia : nat * Z => snd ia)
               (fun scores ia =>
                  PrimFloat.add (dict_get_default scores (snd ia) PrimFloat.zero)
                                (PrimFloat.div PrimFloat.one (float_of_nat (fst ia + 1))))).
    unfold enumerate. split.
    + intros [Hall [Hen ->]]. split; [|reflexivity]. constructor; [|assumption].
      destruct pref; [reflexivity | discriminate].
    + intros [Hall ->]. inversion Hall; subst. auto.
Qed.

(** X21: [harmonic] takes any rankings: it never fails on an alternative or
    on the length of a ranking.  It raises, with the [ValueError] of [max]
    on an empty argument, exactly when no ranking of the profile holds an
    alternative (the empty profile is such a profile). *)
Theorem harmonic_raises_iff (preferences : profile) :
  (harmonic_winners preferences = Raise (ValueError (EmptyArg "max"))
   <-> Forall (fun pref => pref = []) (dict_values preferences))
  /\ ((exists winners, harmonic_winners preferences = Ok winners)
      <-> exists pref, In pref (dict_values preferences) /\ pref <> []).
Proof.
  unfold harmonic_winners.
  match goal with
  | |- context [float_max (dict_values ?s)] => set (scores := s)
  end.
  pose proof (harmonic_scores_nil (dict_values preferences) []) as Hnil.
  fold scores in Hnil.
  assert (Hcase : (scores = [] /\ Forall (fun pref => pref = []) (dict_values preferences))
                  \/ (scores <> []
                      /\ exists pref, In pref (dict_values preferences) /\ pref <> [])).
  { destruct scores as [|kv rest] eqn:E.
    - left. split; [reflexivity|]. now apply Hnil.
    - right. split; [discriminate|].
      destruct (Exists_dec (fun pref : list Z => pref <> []) (dict_values preferences))
        as [Hex | Hno].
      + intros [|x l]; [right; congruence | left; discriminate].
      + apply Exists_exists in Hex. exact Hex.
      + exfalso. assert (Hall : Forall (fun pref => pref = []) (dict_values preferences)).
        { apply Forall_forall. intros pref Hp.
          destruct pref as [|x l]; [reflexivity|]. exfalso. apply Hno.
          apply Exists_exists. exists (x :: l). split; [assumption | discriminate]. }
        assert (H : @nil (Z * float) = kv :: rest) by (symmetry; apply Hnil; auto).
        discriminate. }
  destruct Hcase as [[Hs Hall] | [Hs [pref [Hp Hne]]]].
  - rewrite Hs. simpl. split; split; auto.
    + intros [w Hw]. discriminate.
    + intros [pref [Hp Hne]]. rewrite Forall_forall in Hall. now apply Hall in Hp.
  - destruct scores as [|kv rest]; [congruence|]. simpl. split; split.
    + discriminate.
    + intros Hall. rewrite Forall_forall in Hall. now apply Hall in Hp.
    + intros _. now exists pref.
    + intros _. eauto.
Qed.

(** X22: [dictatorship] raises [IndexError] exactly when the agent is in the
    profile with an empty ranking. *)
Theorem dictatorship_empty_ranking (preferences : profile) (agent : pyval) :
  dictatorship preferences agent = Raise IndexError
  <-> profile_getitem preferences agent = Ok [].
Proof.
  unfold dictatorship. split.
  - destruct (contains preferences agent) eqn:Hc; simpl; [|discriminate].
    destruct (profile_getitem preferences agent) as [ranking | e] eqn:Hr; simpl.
    + destruct ranking; [reflexivity | discriminate].
    + destruct (contains_getitem _ _ Hc) as [r Hr']. congruence.
  - intros Hr.
    assert (Hc : contains preferences agent = true).
    { destruct agent as [s | k]; simpl in *; [discriminate|].
      unfold dict_getitem in Hr. destruct (dict_get preferences k); [reflexivity|discriminate]. }
    rewrite Hc, Hr. reflexivity.
Qed.

(** The rules on a profile whose rankings are all empty. *)
Lemma empty_rankings_rules (rnd : nat) (preferences : profile) (tie_break : pyval) :
  dict_get preferences 1 = Some [] ->
  Forall (fun pref => pref = []) (dict_values preferences) ->
  dictatorship preferences (PInt 1) = Raise IndexError
  /\ plurality rnd preferences tie_break = Raise IndexError
  /\ veto rnd preferences tie_break = Raise (ValueError (EmptyArg "max"))
  /\ borda rnd preferences tie_break = Raise (ValueError (EmptyArg "max"))
  /\ harmonic rnd preferences tie_break = Raise (ValueError (EmptyArg "max"))
  /\ scoring_rule rnd preferences [] tie_break = Raise (ValueError (EmptyArg "max"))
  /\ STV rnd preferences (PStr "max")
     = Some (Raise (ValueError (EmptyArg "max")), preferences).
Proof.
  intros Hget Hvals.
  assert (Hloop : forall (X : Type) (items : list Z -> list X)
                         (body : dict Z -> X -> result (dict Z)),
             items [] = [] ->
             for_each (fun scores pref => for_each body (items pref) scores)
                      (dict_values preferences) [] = Ok []).
  { intros X items body Hitems. rewrite for_each_flat.
    assert (Hflat : flat_map items (dict_values preferences) = []).
    { clear -Hvals Hitems. induction Hvals as [|pref l Hp Hl IH]; [reflexivity|].
      simpl. now rewrite Hp, Hitems, IH. }
    now rewrite Hflat. }
  split; [|split; [|split; [|split; [|split; [|split]]]]].
  - unfold dictatorship. simpl. unfold dict_getitem. now rewrite Hget.
  - unfold plurality, plurality_winners.
    destruct preferences as [|[agent pref] rest]; [discriminate|].
    apply Forall_inv in Hvals. simpl in Hvals. subst pref. reflexivity.
  - unfold veto, veto_winners, dict_getitem. rewrite Hget. cbn [bind].
    change (dict_from_keys 0 []) with (@nil (Z * Z)).
    rewrite (Hloop Z (@removelast Z) (fun scores alt => add_score scores alt (Ok 1)))
      by reflexivity.
    reflexivity.
  - unfold borda, borda_winners, dict_getitem. rewrite Hget. cbn [bind].
    change (dict_from_keys 0 []) with (@nil (Z * Z)).
    rewrite (Hloop (nat * Z)%type (enumerate 0)
               (fun scores ia => add_score scores (snd ia)
                                   (Ok (Z.of_nat (length (@nil Z)) - Z.of_nat (fst ia)))))
      by reflexivity.
    reflexivity.
  - unfold harmonic, harmonic_winners.
    rewrite (proj2 (harmonic_scores_nil (dict_values preferences) []) (conj Hvals eq_refl)).
    reflexivity.
  - unfold scoring_rule, scoring_winners, dict_getitem. rewrite Hget. cbn [bind].
    change (negb (length (@nil Z) =? length (@nil Z))%nat) with false. cbv iota.
    change (dict_from_keys 0 (range 1 (length (@nil Z)))) with (@nil (Z * Z)).
    rewrite (Hloop (nat * Z)%type (enumerate 0)
               (fun scores ia => add_score scores (snd ia) (getitem [] (fst ia))))
      by reflexivity.
    reflexivity.
  - unfold STV, STV_winners, dict_getitem. rewrite Hget. reflexivity.
Qed.

(** X23: a table without rows gives the empty profile, on which [plurality]
    and [harmonic] raise the [ValueError] of [max] on an empty argument; a
    table with rows but no columns gives every agent the empty ranking, on
    which [dictatorship] and [plurality] raise [IndexError], and [veto],
    [borda], [harmonic], [scoring_rule] with the empty vector and [STV] under
    ["max"] raise the [ValueError] of [max] on an empty argument. *)
Theorem degenerate_tables (values : table) (rnd : nat) (tie_break : pyval) :
  (max_row values = 0%nat ->
   generate_preferences values = []
   /\ plurality rnd (generate_preferences values) tie_break
      = Raise (ValueError (EmptyArg "max"))
   /\ harmonic rnd (generate_preferences values) tie_break
      = Raise (ValueError (EmptyArg "max")))
  /\ (max_column values = 0%nat ->
      (1 <= max_row values)%nat ->
      Forall (fun pref => pref = []) (dict_values (generate_preferences values))
      /\ dictatorship (generate_preferences values) (PInt 1) = Raise IndexError
      /\ plurality rnd (generate_preferences values) tie_break = Raise IndexError
      /\ veto rnd (generate_preferences values) tie_break
         = Raise (ValueError (EmptyArg "max"))
      /\ borda rnd (generate_preferences values) tie_break
         = Raise (ValueError (EmptyArg "max"))
      /\ harmonic rnd (generate_preferences values) tie_break
         = Raise (ValueError (EmptyArg "max"))
      /\ scoring_rule rnd (generate_preferences values) [] tie_break
         = Raise (ValueError (EmptyArg "max"))
      /\ STV rnd (generate_preferences values) (PStr "max")
         = Some (Raise (ValueError (EmptyArg "max")), generate_preferences values)).
Proof.
  split.
  - intros Hrow. rewrite generate_preferences_rows, Hrow. repeat split.
  - intros Hcol Hrow.
    assert (Hvals : Forall (fun pref => pref = [])
                           (dict_values (generate_preferences values))).
    { pose proof (built_profile_full values) as Hfull. unfold full_profile in Hfull.
      rewrite Hcol in Hfull. apply Forall_forall. intros pref Hp.
      rewrite Forall_forall in Hfull. apply Hfull, Permutation_sym in Hp.
      now apply Permutation_nil in Hp. }
    split; [assumption|].
    apply empty_rankings_rules; [|assumption].
    destruct (built_profile_first values Hrow) as [first [Hget Hlen]].
    rewrite Hcol in Hlen. destruct first; [assumption | discriminate].
Qed.

Lemma degenerate_tables_witness :
  generate_preferences {| max_row := 0; max_column := 2; cell := fun _ _ => 0 |} = []
  /\ plurality 0 (generate_preferences
                    {| max_row := 0; max_column := 2; cell := fun _ _ => 0 |})
               (PStr "max")
     = Raise (ValueError (EmptyArg "max"))
  /\ harmonic 0 (generate_preferences
                   {| max_row := 0; max_column := 2; cell := fun _ _ => 0 |})
              (PStr "max")
     = Raise (ValueError (EmptyArg "max")).
Proof.
  exact (proj1 (degenerate_tables
                  {| max_row := 0; max_column := 2; cell := fun _ _ => 0 |}
                  0 (PStr "max")) eq_refl).
Defined.

(** ** Who cast which ranking *)





